(** * Smart-Home-Security-System: a shallow embedding of the detection cycle

    The Python sources embedded here are
      - [detector.py]        (class [ObjectDetector]),
      - [camera_manager.py]  (class [CameraManager]),
      - [telegram_bot.py]    (class [TelegramBot]),
      - [config_loader.py]   (function [load_config]),
      - [main.py]            (class [SecuritySystem], function [main]).

    Python code is stateful and fallible, so every method becomes a
    computation in a state-and-exception monad [M] over a [World]: the fields
    the objects mutate ([CameraManager.picam2]), the file system, and the
    chronological trace of everything the program did to its collaborators
    (SDK calls with their outcome, sleeps, console output).

    The collaborators themselves (picamera2, OpenCV, MediaPipe, ffmpeg,
    requests, gpiozero, the clock) are not part of the repository.  They are
    an [Env]: an arbitrary deterministic environment that decides, from the
    call and the history so far, whether the call raises, and that supplies
    the values the program only passes along.  Theorems quantify over every
    [Env].

    Only subclasses of Python's [Exception] are modelled as [exn]; the
    asynchronous [KeyboardInterrupt] is outside the model. *)

From Stdlib Require Import QArith Ascii String.
From stdpp Require Import base option list strings gmap pretty.

#[local] Set Warnings "-clear-no-such-hyp".

Open Scope string_scope.
Open Scope list_scope.

(** ** Exceptions and results *)

(** A raised exception: its class name and [str(e)]. *)
Record exn := Exn { exn_class : string; exn_str : string }.

Inductive result (A : Type) : Type :=
| Ok (a : A)
| Raise (e : exn).
Arguments Ok {A} a.
Arguments Raise {A} e.

Definition is_ok {A} (r : result A) : bool :=
  match r with Ok _ => true | Raise _ => false end.

Definition IndexError : exn := Exn "IndexError" "list index out of range".
Definition TypeError (m : string) : exn := Exn "TypeError" m.
Definition FileNotFoundError (p : string) : exn :=
  Exn "FileNotFoundError" ("[Errno 2] No such file or directory: '" +:+ p +:+ "'").
Definition RuntimeError (m : string) : exn := Exn "RuntimeError" m.

(** ** Data model *)

Definition NL : string := String "010"%char "".

(** [mediapipe] detection results, as far as the program reads them. *)
Record Category := { category_name : string; score : Q }.
Record BoundingBox := { origin_x : Z; origin_y : Z; width : Z; height : Z }.
Record Detection := { bounding_box : BoundingBox; categories : list Category }.
Record DetectionResult := { detections : list Detection }.

(** A camera handle (a [Picamera2] object), named by the length of the trace
    at the time it was constructed. *)
Definition handle := nat.

Inductive mode := Preview | Video.

Definition colour : Type := Z * Z * Z.

(** [ObjectDetector.__init__]: the fields of the detector object. *)
Record ObjectDetector := {
  model_path : string;
  confidence_threshold : Q;
  max_results : nat;
  output_dir : string;
}.

(** [ObjectDetector(model_path)] with the constructor's defaults. *)
Definition ObjectDetector_new (path : string) : ObjectDetector :=
  {| model_path := path; confidence_threshold := 9 # 10; max_results := 5;
     output_dir := "images" |}.

(** Images are kept symbolic: the term records which calls built the array. *)
Inductive image :=
| Captured (h : handle) (at_ : nat)
| Resized (img : image) (w h : Z)
| Flipped (img : image) (code : Z)
| CvtColor (img : image)
| Rectangle (img : image) (p1 p2 : Z * Z) (c : colour) (thickness : Z)
| PutText (img : image) (text : string) (org : Z * Z) (scale : Q) (c : colour)
    (thickness : Z).

(** Decoded JSON; [JNull] is Python's [None]. *)
#[warnings="-register-all"] Inductive json :=
| JNull
| JBool (b : bool)
| JNum (q : Q)
| JStr (s : string)
| JArr (items : list json)
| JObj (members : list (string * json)).

(** ** Collaborator calls and the trace *)

Inductive call :=
(* picamera2 *)
| Picamera2_new (h : handle)
| close (h : handle)
| stop (h : handle)
| set_preview_size (h : handle) (w h' : Z)
| set_preview_format (h : handle) (fmt : string)
| preview_align (h : handle)
| configure (h : handle) (m : mode)
| create_video_configuration (h : handle)
| start (h : handle)
| start_recording (h : handle) (path : string)
| stop_recording (h : handle)
| capture_array (h : handle)
(* cv2 *)
| cv2_resize
| cv2_flip
| cv2_imwrite (path : string) (img : image)
| cv2_cvtColor
(* mediapipe *)
| mp_Image
| create_from_options
| detector_detect
| detector_close
(* subprocess *)
| subprocess_run (command : string)
(* requests.post followed by response.json() *)
| post_sendMessage (text : string)
| post_sendVideo (path : string) (caption : option string)
| post_sendPhoto (path : string) (caption : option string)
(* builtins *)
| builtin_open (path : string)
(* time.sleep on a value read from the configuration *)
| time_sleep (seconds : json)
(* gpiozero *)
| wait_for_motion
| buzzer_set_value (v : Q)
| buzzer_off
| buzzer_close.

Inductive event :=
| Called (c : call) (outcome : option exn)   (* [None]: returned normally *)
| Slept (seconds : nat)                      (* [time.sleep] *)
| Printed (line : string).                   (* [print] *)

Definition trace := list event.

(** The world the repository's code runs in. *)
Record Env := {
  (** does this call, made after this history, raise? *)
  oracle : call → trace → option exn;
  (** [datetime.now().strftime("%Y%m%d_%H%M%S")] *)
  now : trace → string;
  (** what [detector.detect] returns for an image, for a detector created
      from this object's options *)
  infer : ObjectDetector → image → DetectionResult;
  (** what [json.load] does with the file at a path: the decoded value or
      the exception it raises *)
  decode : string → result json;
  (** [format(x, ".2%")] on a float *)
  fmt_percent : Q → string;
  (** [str(round(x, 2))] on a float *)
  fmt_round2 : Q → string;
}.

(** The local variables of one iteration of [SecuritySystem.run]: they are
    assigned inside the [try] block and read in its [finally] block. *)
Record Locals := {
  h264_path : option string;
  image_path : option string;
  mp4_path : option string;
  annotated_image_path : option string;
}.

Definition no_paths : Locals :=
  {| h264_path := None; image_path := None; mp4_path := None;
     annotated_image_path := None |}.

Record World := {
  picam2 : option handle;      (* CameraManager.picam2 *)
  fs : gset string;            (* paths of the files on disk *)
  locals : Locals;             (* frame of SecuritySystem.run *)
  log : trace;                 (* chronological, oldest first *)
}.

Definition set_picam2 (o : option handle) (w : World) : World :=
  {| picam2 := o; fs := fs w; locals := locals w; log := log w |}.
Definition set_fs (s : gset string) (w : World) : World :=
  {| picam2 := picam2 w; fs := s; locals := locals w; log := log w |}.
Definition set_locals (l : Locals) (w : World) : World :=
  {| picam2 := picam2 w; fs := fs w; locals := l; log := log w |}.
Definition emit (e : event) (w : World) : World :=
  {| picam2 := picam2 w; fs := fs w; locals := locals w;
     log := log w ++ [e] |}.

(** ** The state-and-exception monad *)

Definition M (A : Type) : Type := World → result A * World.

#[global] Instance M_ret : MRet M := λ A a w, (Ok a, w).
#[global] Instance M_bind : MBind M := λ A B f m w,
  match m w with
  | (Ok a, w') => f a w'
  | (Raise e, w') => (Raise e, w')
  end.

Definition raise {A} (e : exn) : M A := λ w, (Raise e, w).
Definition get : M World := λ w, (Ok w, w).
Definition modify (f : World → World) : M unit := λ w, (Ok tt, f w).

(** [try: body / except Exception as e: handler e] *)
Definition try_except {A} (body : M A) (handler : exn → M A) : M A := λ w,
  match body w with
  | (Ok a, w') => (Ok a, w')
  | (Raise e, w') => handler e w'
  end.

(** [try: body / finally: fin]: [fin] always runs; if it raises, its
    exception replaces the outcome of [body]. *)
Definition try_finally {A} (body : M A) (fin : M unit) : M A := λ w,
  match body w with
  | (r, w') =>
      match fin w' with
      | (Ok _, w'') => (r, w'')
      | (Raise e, w'') => (Raise e, w'')
      end
  end.

Definition print (line : string) : M unit := modify (emit (Printed line)).
(** [time.sleep] on a literal number of seconds; the one sleep whose length
    comes from the configuration is the call [time_sleep]. *)
Definition sleep (seconds : nat) : M unit := modify (emit (Slept seconds)).

Section WithEnv.
Variable env : Env.

(** A call into a collaborator: recorded in the trace with its outcome. *)
Definition ext (c : call) : M unit := λ w,
  match oracle env c (log w) with
  | None => (Ok tt, emit (Called c None) w)
  | Some e => (Raise e, emit (Called c (Some e)) w)
  end.

Definition strftime_now : M string := λ w, (Ok (now env (log w)), w).

(** ** File system: [os.path], [os.remove], file creation *)

(** [os.path.join(a, b)] for a relative [b]. *)
Definition path_join (a b : string) : string := a +:+ "/" +:+ b.

(** [os.path.exists(path)]: [os.stat(None)] raises [TypeError], which
    [genericpath.exists] does not catch. *)
Definition path_exists (path : option string) : M bool := λ w,
  match path with
  | None => (Raise (TypeError "stat: path should be string, bytes, os.PathLike or integer, not NoneType"), w)
  | Some p => (Ok (bool_decide (p ∈ fs w)), w)
  end.

(** [os.remove(path)]: the disk is a set of paths, removing a file that
    exists succeeds. *)
Definition os_remove (path : option string) : M unit := λ w,
  match path with
  | None => (Raise (TypeError "remove: path should be string, bytes or os.PathLike, not NoneType"), w)
  | Some p =>
      if bool_decide (p ∈ fs w) then (Ok tt, set_fs (fs w ∖ {[p]}) w)
      else (Raise (FileNotFoundError p), w)
  end.

(** A collaborator that writes [path] when it succeeds. *)
Definition ext_writing (c : call) (path : string) : M unit :=
  ext c ;; modify (λ w, set_fs (fs w ∪ {[path]}) w).

(** Python truthiness of [None]-or-string. *)
Definition truthy (o : option string) : bool :=
  match o with
  | None => false
  | Some s => negb (String.eqb s "")
  end.

(** [str(x)] of a [None]-or-string inside an f-string. *)
Definition str_opt (o : option string) : string := default "None" o.

(** ** detector.py *)

(** [detection.categories[0]] *)
Definition first_category (d : Detection) : M Category :=
  match categories d with
  | [] => raise IndexError
  | c :: _ => mret c
  end.

Definition magenta : colour := (255, 0, 255)%Z.

(** [ObjectDetector.draw_detections]: the loop over
    [detection_result.detections]; [cv2.rectangle] and [cv2.putText] draw in
    memory (font [FONT_HERSHEY_SIMPLEX]). *)
Fixpoint draw_detections_loop (img : image) (ds : list Detection) : M image :=
  match ds with
  | [] => mret img
  | detection :: ds' =>
      let bbox := bounding_box detection in
      let start_point := (origin_x bbox, origin_y bbox) in
      let end_point :=
        ((origin_x bbox + width bbox)%Z, (origin_y bbox + height bbox)%Z) in
      let img := Rectangle img start_point end_point magenta 3 in
      category ← first_category detection;
      let probability := fmt_round2 env (score category) in
      let result_text := category_name category +:+ " (" +:+ probability +:+ ")" in
      let text_location := (origin_x bbox, (origin_y bbox - 10)%Z) in
      let img := PutText img result_text text_location (7 # 10) magenta 2 in
      draw_detections_loop img ds'
  end.

Definition draw_detections (img : image) (detection_result : DetectionResult)
  : M image :=
  draw_detections_loop img (detections detection_result).

Definition annotated_name (timestamp : string) (n : nat) : string :=
  "detected_" +:+ timestamp +:+ "_" +:+ pretty n +:+ "objects.jpg".

(** [ObjectDetector.detect_objects] *)
Definition detect_objects (self : ObjectDetector) (img : image)
    (timestamp : string) : M (DetectionResult * option string) :=
  ext cv2_cvtColor ;;
  let rgb_image := CvtColor img in
  ext mp_Image ;;
  ext create_from_options ;;
  print "Performing object detection..." ;;
  ext detector_detect ;;
  let detection_result := infer env self rgb_image in
  annotated_image ← draw_detections img detection_result;
  let n := length (detections detection_result) in
  annotated_path ←
    (if (0 <? n)%nat then
       let annotated_path :=
         path_join (output_dir self) (annotated_name timestamp n) in
       ext_writing (cv2_imwrite annotated_path annotated_image) annotated_path ;;
       mret (Some annotated_path)
     else mret None);
  ext detector_close ;;
  mret (detection_result, if (0 <? n)%nat then annotated_path else None).

(** [ObjectDetector.check_access]: the [for] loop. *)
Fixpoint check_access_loop (self : ObjectDetector) (ds : list Detection)
  : M bool :=
  match ds with
  | [] =>
      print "No authorized objects detected with sufficient confidence" ;;
      mret false
  | detection :: ds' =>
      category ← first_category detection;
      let confidence := score category in
      if Qle_bool (confidence_threshold self) confidence then
        print ("Authorized object detected with confidence: "
               +:+ fmt_percent env confidence) ;;
        mret true
      else check_access_loop self ds'
  end.

(** [ObjectDetector.check_access] *)
Definition check_access (self : ObjectDetector)
    (detection_result : DetectionResult) : M bool :=
  match detections detection_result with
  | [] => print "No objects detected" ;; mret false
  | _ => check_access_loop self (detections detection_result)
  end.

Definition no_objects_detected : string := "🚫 No objects detected".
Definition results_header : string := "🔍 <b>Detection Results:</b>" +:+ NL.
Definition granted_line : string := NL +:+ "   ✅ Access Granted - Door Open".
Definition denied_line : string := NL +:+ "   ❌ Access Denied".

(** What one pass of the loop of [format_detection_message] appends to
    [message] for the [i]-th detection (see [format_loop_entries]). *)
Definition format_entry (self : ObjectDetector) (i : nat) (category : Category)
  : string :=
  let confidence := score category in
  (NL +:+ pretty i +:+ ". <b>" +:+ category_name category +:+ "</b>")
  +:+ (NL +:+ "   Confidence: " +:+ fmt_percent env confidence)
  +:+ (if Qle_bool (confidence_threshold self) confidence
       then granted_line else denied_line).

(** The loop [for i, detection in enumerate(detections, 1)]. *)
Fixpoint format_loop (self : ObjectDetector) (i : nat) (message : string)
    (ds : list Detection) : M string :=
  match ds with
  | [] => mret message
  | detection :: ds' =>
      category ← first_category detection;
      let confidence := score category in
      let message :=
        message +:+ (NL +:+ pretty i +:+ ". <b>" +:+ category_name category +:+ "</b>") in
      let message :=
        message +:+ (NL +:+ "   Confidence: " +:+ fmt_percent env confidence) in
      let message :=
        if Qle_bool (confidence_threshold self) confidence
        then message +:+ granted_line
        else message +:+ denied_line in
      format_loop self (S i) message ds'
  end.

(** [ObjectDetector.format_detection_message] *)
Definition format_detection_message (self : ObjectDetector)
    (detection_result : DetectionResult) : M string :=
  if (length (detections detection_result) =? 0)%nat then
    mret no_objects_detected
  else format_loop self 1 results_header (detections detection_result).

(** [ObjectDetector.remove_annotated_image] *)
Definition remove_annotated_image (annotated_image_path : option string)
  : M unit :=
  try_except
    (if truthy annotated_image_path then
       present ← path_exists annotated_image_path;
       if present : bool then
         os_remove annotated_image_path ;;
         print ("Removed annotated image: " +:+ str_opt annotated_image_path)
       else mret tt
     else mret tt)
    (λ e, print ("Error removing annotated image "
                 +:+ str_opt annotated_image_path +:+ ": " +:+ exn_str e)).

(** ** Strings: [str.replace] and [os.path.basename] *)

(** [s.replace(old, new)] for a non-empty [old]: occurrences are replaced
    left to right without overlap; [skip] counts the characters of a matched
    occurrence still to drop. *)
Fixpoint replace_from (old new : string) (skip : nat) (s : string) : string :=
  match s with
  | "" => ""
  | String c s' =>
      match skip with
      | S k => replace_from old new k s'
      | O =>
          if String.prefix old s
          then new +:+ replace_from old new (String.length old - 1) s'
          else String c (replace_from old new 0 s')
      end
  end.

Definition str_replace (old new s : string) : string := replace_from old new 0 s.

(** [os.path.basename(p)]: what follows the last slash; [cur] is the
    component read so far. *)
Fixpoint basename_from (cur p : string) : string :=
  match p with
  | "" => cur
  | String c p' =>
      if Ascii.eqb c "/" then basename_from "" p'
      else basename_from (cur +:+ String c "") p'
  end.

Definition basename (p : string) : string := basename_from "" p.

(** ** camera_manager.py *)

(** [CameraManager.__init__]: the constant fields ([picam2] is in the
    [World]). *)
Record CameraManager := {
  _max_retries : nat;
  _retry_delay : nat;
  video_dir : string;
  images_dir : string;
}.

Definition CameraManager_new : CameraManager :=
  {| _max_retries := 3; _retry_delay := 2; video_dir := "videos";
     images_dir := "images" |}.

(** [Picamera2()]: a fresh handle when the constructor returns. *)
Definition Picamera2 : M handle :=
  w ← get;
  let h := length (log w) in
  ext (Picamera2_new h) ;;
  mret h.

(** [self.picam2.<method>]: [None] has no attributes. *)
Definition the_camera : M handle :=
  w ← get;
  match picam2 w with
  | Some h => mret h
  | None => raise (Exn "AttributeError" "'NoneType' object has no attribute")
  end.

(** The [try] block of one iteration of [initialize_camera]; [mode] is
    ['preview'] or ['video'], the two values the callers pass. *)
Definition initialize_attempt (m : mode) : M bool :=
  w ← get;
  match picam2 w with
  | Some h => ext (close h) ;; sleep 1
  | None => mret tt
  end ;;
  h ← Picamera2;
  modify (set_picam2 (Some h)) ;;
  match m with
  | Preview =>
      ext (set_preview_size h 640 480) ;;
      ext (set_preview_format h "RGB888") ;;
      ext (preview_align h) ;;
      ext (configure h Preview)
  | Video =>
      ext (create_video_configuration h) ;;
      ext (configure h Video)
  end ;;
  ext (start h) ;;
  sleep 2 ;;
  mret true.

Definition attempt_failed_line (attempt : nat) (e : exn) : string :=
  "Camera initialization attempt " +:+ pretty (attempt + 1)%nat +:+ " failed: "
  +:+ exn_str e.

Definition init_failed (self : CameraManager) : exn :=
  RuntimeError ("Failed to initialize camera after "
                +:+ pretty (_max_retries self) +:+ " attempts").

(** [for attempt in range(self._max_retries)] with [todo] iterations left;
    the function returns [True] from inside the loop and [None] when the
    loop ends. *)
Fixpoint initialize_camera_loop (self : CameraManager) (m : mode) (todo : nat)
  : M (option bool) :=
  match todo with
  | O => mret None
  | S todo' =>
      let attempt := (_max_retries self - todo)%nat in
      try_except
        (b ← initialize_attempt m; mret (Some b))
        (λ e,
           print (attempt_failed_line attempt e) ;;
           if (attempt <? _max_retries self - 1)%nat then
             sleep (_retry_delay self) ;;
             initialize_camera_loop self m todo'
           else raise (init_failed self))
  end.

(** [CameraManager.initialize_camera] *)
Definition initialize_camera (self : CameraManager) (m : mode) : M (option bool) :=
  initialize_camera_loop self m (_max_retries self).

(** [CameraManager.cleanup] *)
Definition cleanup : M unit :=
  w ← get;
  match picam2 w with
  | Some h =>
      try_finally
        (try_except
           (ext (stop h) ;; ext (close h))
           (λ e, print ("Error during camera cleanup: " +:+ exn_str e)))
        (modify (set_picam2 None))
  | None => mret tt
  end.

(** [CameraManager.capture_h264_video]; [duration] is whatever the
    configuration holds, and [time.sleep(duration)] raises on a value it
    does not accept (a negative number, [None], a string). *)
Definition capture_h264_video (self : CameraManager) (duration : json) : M string :=
  timestamp ← strftime_now;
  let h264_path := path_join (video_dir self) ("video_" +:+ timestamp +:+ ".h264") in
  try_finally
    (try_except
       (initialize_camera self Video ;;
        print "Recording H.264 video..." ;;
        h ← the_camera;
        ext_writing (start_recording h h264_path) h264_path ;;
        ext (time_sleep duration) ;;
        ext (stop_recording h) ;;
        mret h264_path)
       (λ e, print ("Error during H.264 video capture: " +:+ exn_str e) ;; raise e))
    cleanup.

(** [CameraManager.convert_h264_to_mp4] *)
Definition convert_h264_to_mp4 (h264_path : string) (mp4_path : option string)
  : M string :=
  let mp4_path :=
    match mp4_path with
    | None => str_replace ".h264" ".mp4" h264_path
    | Some p => p
    end in
  let command :=
    "ffmpeg -fflags +genpts -i " +:+ h264_path +:+ " -vf vflip -c:v h264 " +:+ mp4_path in
  try_except
    (ext_writing (subprocess_run command) mp4_path ;;
     print ("Converted and flipped video to " +:+ mp4_path) ;;
     mret mp4_path)
    (λ e,
       if String.eqb (exn_class e) "CalledProcessError" then
         print ("Error during video conversion: " +:+ exn_str e) ;; raise e
       else raise e).

(** [CameraManager.store_converted_video] *)
Definition store_converted_video (self : CameraManager) (h264_path : string)
  : M string :=
  try_except
    (let filename := str_replace ".h264" ".mp4" (basename h264_path) in
     let mp4_path := path_join (video_dir self) filename in
     convert_h264_to_mp4 h264_path (Some mp4_path))
    (λ e, print ("Error storing converted video: " +:+ exn_str e) ;; raise e).

(** [CameraManager.capture_image] *)
Definition capture_image (self : CameraManager) : M (image * string * string) :=
  try_finally
    (try_except
       (initialize_camera self Preview ;;
        print "Capturing image..." ;;
        h ← the_camera;
        w ← get;
        ext (capture_array h) ;;
        let img := Captured h (length (log w)) in
        timestamp ← strftime_now;
        ext cv2_resize ;;
        let img := Resized img 640 480 in
        ext cv2_flip ;;
        let img := Flipped img (-1) in
        let image_path :=
          path_join (images_dir self) ("captured_" +:+ timestamp +:+ ".jpg") in
        ext_writing (cv2_imwrite image_path img) image_path ;;
        mret (img, timestamp, image_path))
       (λ e, print ("Error during image capture: " +:+ exn_str e) ;; raise e))
    cleanup.

(** The body of [for path in video_paths] in [cleanup_files]. *)
Definition remove_video_file (path : option string) : M unit :=
  try_except
    (present ← path_exists path;
     if present : bool then
       os_remove path ;;
       print ("Removed video file: " +:+ str_opt path)
     else mret tt)
    (λ e, print ("Error removing video file " +:+ str_opt path +:+ ": "
                 +:+ exn_str e)).

Fixpoint remove_video_files (paths : list (option string)) : M unit :=
  match paths with
  | [] => mret tt
  | path :: paths' => remove_video_file path ;; remove_video_files paths'
  end.

(** [CameraManager.cleanup_files]; [video_paths] is [None] or a list whose
    items may be [None]. *)
Definition cleanup_files (video_paths : option (list (option string)))
    (image_path : option string) : M unit :=
  match video_paths with
  | Some ((_ :: _) as paths) => remove_video_files paths
  | _ => mret tt
  end ;;
  if truthy image_path then
    try_except
      (present ← path_exists image_path;
       if present : bool then
         os_remove image_path ;;
         print ("Removed image file: " +:+ str_opt image_path)
       else mret tt)
      (λ e, print ("Error removing image file " +:+ str_opt image_path +:+ ": "
                   +:+ exn_str e))
  else mret tt.

(** ** telegram_bot.py *)

(** [open(path, 'r')] and [open(path, 'rb')]: [FileNotFoundError] when there
    is no such file; an existing file may still fail to open. *)
Definition open_file (path : string) : M unit :=
  present ← path_exists (Some path);
  if present : bool then ext (builtin_open path)
  else raise (FileNotFoundError path).

(** [TelegramBot.send_message]: [requests.post] then [response.json()];
    the decoded response is not used by any caller. *)
Definition send_message (text : string) : M unit :=
  ext (post_sendMessage text).

(** [TelegramBot.send_video] *)
Definition send_video (video_path : string) (caption : option string) : M unit :=
  open_file video_path ;;
  ext (post_sendVideo video_path caption).

(** [TelegramBot.send_photo] *)
Definition send_photo (photo_path : string) (caption : option string) : M unit :=
  open_file photo_path ;;
  ext (post_sendPhoto photo_path caption).

(** ** config_loader.py *)

(** [json.load(config_file)] *)
Definition json_load (path : string) : M json :=
  match decode env path with
  | Ok v => mret v
  | Raise e => raise e
  end.

(** The [try] block of [load_config]. *)
Definition load_config_body (config_path : string) : M json :=
  open_file config_path ;;
  json_load config_path.

(** [load_config]; the result [JNull] is Python's [None]. *)
Definition load_config (config_path : string) : M json :=
  try_except
    (load_config_body config_path)
    (λ e,
       if String.eqb (exn_class e) "FileNotFoundError" then
         print ("Config file not found at " +:+ config_path) ;; mret JNull
       else if String.eqb (exn_class e) "JSONDecodeError" then
         print ("Invalid JSON in config file at " +:+ config_path) ;; mret JNull
       else raise e).

(** ** main.py *)

(** [SecuritySystem.__init__]: the fields [run] uses. *)
Record SecuritySystem := {
  camera_manager : CameraManager;
  detector : ObjectDetector;
  VIDEO_DURATION : json;       (* config.get('video_duration', 5), unvalidated *)
}.

(** [SecuritySystem.buzz_buzzer] *)
Definition buzz_buzzer (duration : nat) : M unit :=
  print "Access Denied - Activating Buzzer" ;;
  ext (buzzer_set_value (1 # 2)) ;;
  sleep duration ;;
  ext buzzer_off.

(** The default of [buzz_buzzer]'s parameter. *)
Definition buzz_default_duration : nat := 1.

(** [SecuritySystem.handle_access_granted] *)
Definition handle_access_granted : M unit :=
  print (NL +:+ "=== Access Granted - Door Open ===" +:+ NL).

Definition assign (f : Locals → Locals) : M unit :=
  modify (λ w, set_locals (f (locals w)) w).

Definition video_caption : string := "📹 Security Footage".
Definition photo_caption : string := "🔍 Detected Objects".

(** The inner [try] block of [run]. *)
Definition cycle_try (self : SecuritySystem) : M unit :=
  (* 1. Capture H.264 video *)
  h264 ← capture_h264_video (camera_manager self) (VIDEO_DURATION self);
  assign (λ l, {| h264_path := Some h264; image_path := image_path l;
                  mp4_path := mp4_path l;
                  annotated_image_path := annotated_image_path l |}) ;;
  print ("H.264 video captured: " +:+ h264) ;;
  (* 2. Capture image *)
  '(img, timestamp, img_path) ← capture_image (camera_manager self);
  assign (λ l, {| h264_path := h264_path l; image_path := Some img_path;
                  mp4_path := mp4_path l;
                  annotated_image_path := annotated_image_path l |}) ;;
  print ("Image captured: " +:+ img_path) ;;
  (* 3. Perform object detection *)
  '(detection_result, annotated) ← detect_objects (detector self) img timestamp;
  assign (λ l, {| h264_path := h264_path l; image_path := image_path l;
                  mp4_path := mp4_path l;
                  annotated_image_path := annotated |}) ;;
  print ("Object detection completed. Annotated image: " +:+ str_opt annotated) ;;
  (* 4. Determine action based on detection *)
  granted ← check_access (detector self) detection_result;
  (if granted : bool then handle_access_granted
   else buzz_buzzer buzz_default_duration) ;;
  (* 5. Convert H.264 to MP4 *)
  mp4 ← store_converted_video (camera_manager self) h264;
  assign (λ l, {| h264_path := h264_path l; image_path := image_path l;
                  mp4_path := Some mp4;
                  annotated_image_path := annotated_image_path l |}) ;;
  print ("Video converted to MP4: " +:+ mp4) ;;
  (* 6. Send all to Telegram *)
  message ← format_detection_message (detector self) detection_result;
  send_message message ;;
  send_video mp4 (Some video_caption) ;;
  match annotated with
  | Some photo =>
      if truthy annotated then send_photo photo (Some photo_caption) else mret tt
  | None => mret tt
  end.

(** The [except Exception as e] block of the cycle. *)
Definition cycle_except (e : exn) : M unit :=
  let error_msg := "Error in detection cycle: " +:+ exn_str e in
  print error_msg ;;
  send_message ("❌ " +:+ error_msg).

(** The [finally] block of the cycle. *)
Definition cycle_finally : M unit :=
  w ← get;
  let l := locals w in
  cleanup_files
    (if truthy (h264_path l) || truthy (mp4_path l)
     then Some [h264_path l; mp4_path l] else None)
    (image_path l) ;;
  (if truthy (annotated_image_path l) then
     try_except
       (remove_annotated_image (annotated_image_path l))
       (λ cleanup_error,
          print ("Error removing annotated image: " +:+ exn_str cleanup_error))
   else mret tt) ;;
  cleanup.

(** One iteration of [while True] in [run]. *)
Definition cycle (self : SecuritySystem) : M unit :=
  print "Waiting for motion..." ;;
  ext wait_for_motion ;;
  print "Motion detected!" ;;
  modify (set_locals no_paths) ;;
  try_finally (try_except (cycle_try self) cycle_except) cycle_finally ;;
  sleep 5.

(** [while True]: the loop only ends by an exception or by the operator's
    interrupt; [cycles] is the number of iterations completed before
    [KeyboardInterrupt] arrives.  The interrupt is taken to arrive between
    two iterations: one that cuts an iteration short is outside the
    embedding, and no statement below is about such a run. *)
Fixpoint run_loop (self : SecuritySystem) (cycles : nat) : M unit :=
  match cycles with
  | O => print (NL +:+ "Program interrupted by user")
  | S cycles' => cycle self ;; run_loop self cycles'
  end.

(** [SecuritySystem.run] *)
Definition run (self : SecuritySystem) (cycles : nat) : M unit :=
  try_finally (run_loop self cycles) (ext buzzer_close ;; cleanup).

(** How the process ends: [sys.exit(code)], or [main] returns. *)
Inductive exit := Exits (code : Z) | Returns.

(** [main], once [SecuritySystem()] has been constructed. *)
Definition main (security_system : SecuritySystem) (cycles : nat) : M exit :=
  try_except
    (run security_system cycles ;; mret Returns)
    (λ e,
       print ("Critical error in security system: " +:+ exn_str e) ;;
       mret (Exits 1)).

(** *** The configuration block of [SecuritySystem.__init__] *)

(** [bool(v)] on a decoded JSON value. *)
Definition truth (v : json) : bool :=
  match v with
  | JNull => false
  | JBool b => b
  | JNum q => negb (Qeq_bool q 0)
  | JStr s => negb (String.eqb s "")
  | JArr items => match items with [] => false | _ => true end
  | JObj members => match members with [] => false | _ => true end
  end.

(** The value at a key among the items of a [dict]. *)
Fixpoint dict_lookup (key : string) (members : list (string * json))
  : option json :=
  match members with
  | [] => None
  | (k, v) :: members' =>
      if String.eqb k key then Some v else dict_lookup key members'
  end.

Definition type_name (v : json) : string :=
  match v with
  | JNull => "NoneType"
  | JBool _ => "bool"
  | JNum _ => "int"            (* or float *)
  | JStr _ => "str"
  | JArr _ => "list"
  | JObj _ => "dict"
  end.

Definition KeyError (key : string) : exn := Exn "KeyError" ("'" +:+ key +:+ "'").

(** [v[key]] for a string [key]. *)
Definition subscript (v : json) (key : string) : result json :=
  match v with
  | JObj members =>
      match dict_lookup key members with
      | Some x => Ok x
      | None => Raise (KeyError key)
      end
  | JArr _ => Raise (TypeError "list indices must be integers or slices, not str")
  | JStr _ => Raise (TypeError "string indices must be integers, not 'str'")
  | _ => Raise (TypeError ("'" +:+ type_name v +:+ "' object is not subscriptable"))
  end.

(** [v.get(key, default)] *)
Definition dict_get (v : json) (key : string) (default : json) : result json :=
  match v with
  | JObj members => Ok (from_option id default (dict_lookup key members))
  | _ => Raise (Exn "AttributeError"
                  ("'" +:+ type_name v +:+ "' object has no attribute 'get'"))
  end.

(** What [__init__] reads from the configuration; the values are kept as
    decoded, [__init__] does not check their types. *)
Record Settings := {
  TELEGRAM_TOKEN : json;
  TELEGRAM_CHAT_ID : json;
  PIR_PIN : json;
  BUZZER_PIN : json;
  BUZZER_FREQUENCY : json;
  MODEL_PATH : json;
  video_duration : json;       (* VIDEO_DURATION *)
}.

Definition lift {A} (r : result A) : M A := λ w, (r, w).

(** The statements of [__init__] from [TELEGRAM_TOKEN = ...] to
    [VIDEO_DURATION = ...]. *)
Definition read_settings (config : json) : M Settings :=
  telegram ← lift (subscript config "telegram");
  token ← lift (subscript telegram "token");
  telegram ← lift (subscript config "telegram");
  chat_id ← lift (subscript telegram "chat_id");
  gpio ← lift (subscript config "gpio");
  pir ← lift (subscript gpio "pir_pin");
  gpio ← lift (subscript config "gpio");
  buzzer ← lift (subscript gpio "buzzer_pin");
  gpio ← lift (subscript config "gpio");
  frequency ← lift (dict_get gpio "buzzer_frequency" (JNum 2000));
  camera ← lift (subscript config "camera");
  model ← lift (subscript camera "model_path");
  camera ← lift (subscript config "camera");
  duration ← lift (dict_get camera "video_duration" (JNum 5));
  mret {| TELEGRAM_TOKEN := token; TELEGRAM_CHAT_ID := chat_id;
          PIR_PIN := pir; BUZZER_PIN := buzzer; BUZZER_FREQUENCY := frequency;
          MODEL_PATH := model; video_duration := duration |}.

(** [__init__] up to the construction of the devices: [None] stands for
    [sys.exit(1)]. *)
Definition load_settings (config_path : string) : M (option Settings) :=
  config ← load_config config_path;
  if negb (truth config) then
    print "Failed to load configuration. Exiting." ;;
    mret None
  else
    settings ← read_settings config;
    mret (Some settings).

End WithEnv.

(** * Vocabulary of the statements *)

(** A detection that [categories[0]] can be read from. *)
Definition has_category (d : Detection) : Prop := categories d ≠ [].

(** The detection's first category meets the detector's threshold. *)
Definition meets_threshold (self : ObjectDetector) (d : Detection) : bool :=
  match categories d with
  | [] => false
  | c :: _ => Qle_bool (confidence_threshold self) (score c)
  end.

(** The first category of every detection, in order. *)
Definition first_categories (ds : list Detection) : list Category :=
  flat_map (λ d, take 1 (categories d)) ds.

(** The detection with every category but the first removed. *)
Definition first_only (d : Detection) : Detection :=
  {| bounding_box := bounding_box d; categories := take 1 (categories d) |}.

(** The entries of the summary for categories numbered from [i]. *)
Fixpoint entries (env : Env) (self : ObjectDetector) (i : nat)
    (cs : list Category) : string :=
  match cs with
  | [] => ""
  | c :: cs' => format_entry env self i c +:+ entries env self (S i) cs'
  end.

(** The label and confidence lines of an entry, before its verdict. *)
Definition entry_head (env : Env) (i : nat) (c : Category) : string :=
  (NL +:+ pretty i +:+ ". <b>" +:+ category_name c +:+ "</b>")
  +:+ (NL +:+ "   Confidence: " +:+ fmt_percent env (score c)).

(** The file named by a path variable, if it names one. *)
Definition opt_set (o : option string) : gset string :=
  match o with
  | Some p => {[p]}
  | None => ∅
  end.

(** What a removal step does: the files in [gone] are deleted, nothing else
    changes but the trace, and no exception escapes. *)
Definition removes (m : M unit) (gone : gset string) : Prop :=
  ∀ w, "" ∉ fs w →
    ∃ tr, m w = (Ok tt, {| picam2 := picam2 w; fs := fs w ∖ gone;
                           locals := locals w; log := log w ++ tr |}).

(** The artifacts a cycle has produced: its four path variables. *)
Definition produced (l : Locals) : gset string :=
  opt_set (h264_path l) ∪ opt_set (mp4_path l) ∪ opt_set (image_path l)
  ∪ opt_set (annotated_image_path l).

(** The boxes and the labels drawn on an image, oldest first. *)
Fixpoint rectangles (img : image) : list ((Z * Z) * (Z * Z)) :=
  match img with
  | Captured _ _ => []
  | Resized i _ _ | Flipped i _ | CvtColor i => rectangles i
  | Rectangle i p1 p2 _ _ => rectangles i ++ [(p1, p2)]
  | PutText i _ _ _ _ _ => rectangles i
  end.

Fixpoint texts (img : image) : list (string * (Z * Z)) :=
  match img with
  | Captured _ _ => []
  | Resized i _ _ | Flipped i _ | CvtColor i => texts i
  | Rectangle i _ _ _ _ => texts i
  | PutText i text org _ _ _ => texts i ++ [(text, org)]
  end.

(** The box of a detection: its origin and the opposite corner. *)
Definition box_of (d : Detection) : (Z * Z) * (Z * Z) :=
  let b := bounding_box d in
  ((origin_x b, origin_y b),
   ((origin_x b + width b)%Z, (origin_y b + height b)%Z)).

(** The label of a detection: name and rounded score of its first category,
    placed ten pixels above the box. *)
Definition label_of (env : Env) (d : Detection) : string * (Z * Z) :=
  let b := bounding_box d in
  (match categories d with
   | c :: _ => category_name c +:+ " (" +:+ fmt_round2 env (score c) +:+ ")"
   | [] => ""
   end,
   (origin_x b, (origin_y b - 10)%Z)).

(** The image with a box and a label drawn for each detection in turn. *)
Fixpoint annotate (env : Env) (img : image) (ds : list Detection) : image :=
  match ds with
  | [] => img
  | d :: ds' =>
      annotate env
        (PutText (Rectangle img (box_of d).1 (box_of d).2 magenta 3)
           (label_of env d).1 (label_of env d).2 (7 # 10) magenta 2)
        ds'
  end.

(** What the detector reports for an image: [detect] runs on the colour
    conversion of the frame. *)
Definition seen (env : Env) (self : ObjectDetector) (img : image)
  : list Detection :=
  detections (infer env self (CvtColor img)).

(** Where [detect_objects] writes the annotated image. *)
Definition annotated_path (env : Env) (self : ObjectDetector) (img : image)
    (timestamp : string) : string :=
  path_join (output_dir self)
    (annotated_name timestamp (length (seen env self img))).

(** What a computation added to the trace. *)
Definition new_events (w w' : World) : trace := drop (length (log w)) (log w').

(** The console lines of a trace. *)
Definition printed_lines (tr : trace) : list string :=
  omap (λ e, match e with Printed line => Some line | _ => None end) tr.

(** The calls to the [Picamera2()] constructor in a trace. *)
Definition constructions (tr : trace) : nat :=
  length (omap (λ e, match e with
                     | Called (Picamera2_new h) _ => Some h
                     | _ => None
                     end) tr).

(** Does every [Picamera2()] made while a handle is held come right after a
    [close()] of that handle that returned, followed by a one-second sleep?
    [held] is the handle in [self.picam2], [prev2] and [prev1] are the two
    events before [tr]. *)
Fixpoint reacquires_cleanly (held : option handle) (prev2 prev1 : option event)
    (tr : trace) : bool :=
  match tr with
  | [] => true
  | e :: tr' =>
      match e with
      | Called (Picamera2_new _) _ =>
          match held with
          | None => true
          | Some h0 =>
              match prev2, prev1 with
              | Some (Called (close h1) None), Some (Slept 1) => Nat.eqb h1 h0
              | _, _ => false
              end
          end
      | _ => true
      end
      && reacquires_cleanly
           (match e with
            | Called (Picamera2_new h) None => Some h
            | _ => held
            end)
           prev1 (Some e) tr'
  end.

(** The attempts of [initialize_camera] that failed and were retried.
    [retried env self m k w es w']: from [w], the attempts numbered [k],
    [k + 1], ... (from zero, as [attempt] in the source) raised [es]; each
    failure was reported and followed by the retry delay; the next attempt
    starts from [w']. *)
Inductive retried (env : Env) (self : CameraManager) (m : mode)
  : nat → World → list exn → World → Prop :=
| retried_none (k : nat) (w : World) : retried env self m k w [] w
| retried_more (k : nat) (w w1 w' : World) (e : exn) (es : list exn) :
    initialize_attempt env m w = (Raise e, w1) →
    retried env self m (S k)
      (emit (Slept (_retry_delay self))
         (emit (Printed (attempt_failed_line k e)) w1))
      es w' →
    retried env self m k w (e :: es) w'.

(** The lines reporting failed attempts numbered from [first]. *)
Definition failure_lines (first : nat) (es : list exn) : list string :=
  imap (λ k e, attempt_failed_line (first + k) e) es.

(** The camera device: which handles are open.  A handle is live from the
    return of its constructor until a [close()] on it returns. *)
Definition device_step (live : list handle) (e : event) : list handle :=
  match e with
  | Called (Picamera2_new h) None => h :: live
  | Called (close h) None => List.filter (λ x, negb (Nat.eqb x h)) live
  | _ => live
  end.

Definition live_handles (tr : trace) : list handle :=
  fold_left device_step tr [].

(** At most one handle is live now and after every event of [tr]. *)
Fixpoint never_two_live (live : list handle) (tr : trace) : bool :=
  (length live <=? 1)%nat
  && match tr with
     | [] => true
     | e :: tr' => never_two_live (device_step live e) tr'
     end.

(** The only handle that may be live is the one in [self.picam2]. *)
Definition held_only (live : list handle) (w : World) : Prop :=
  (length live ≤ 1)%nat ∧ ∀ h, h ∈ live → picam2 w = Some h.

(** A computation that keeps the device tidy: at most one live handle
    after each of its events, and at the end none but the one it holds. *)
Definition tidy {A} (m : M A) : Prop :=
  ∀ w live, held_only live w →
    ∃ seg, log (m w).2 = log w ++ seg
           ∧ never_two_live live seg = true
           ∧ held_only (fold_left device_step seg live) (m w).2.

(** No [stop()] and no [close()] ever raises. *)
Definition teardown_never_fails (env : Env) : Prop :=
  ∀ h tr, oracle env (stop h) tr = None ∧ oracle env (close h) tr = None.

(** What [cleanup] may add to the trace while it holds [h]. *)
Definition teardown_of (h : handle) (tr : trace) : Prop :=
  tr = [Called (stop h) None; Called (close h) None]
  ∨ (∃ e, tr = [Called (stop h) None; Called (close h) (Some e);
                Printed ("Error during camera cleanup: " +:+ exn_str e)])
  ∨ (∃ e, tr = [Called (stop h) (Some e);
                Printed ("Error during camera cleanup: " +:+ exn_str e)]).

(** The notifications attempted in a trace, and the buzzer calls. *)
Definition notifications (tr : trace) : list call :=
  omap (λ e, match e with
             | Called (post_sendMessage _ as c) _
             | Called (post_sendVideo _ _ as c) _
             | Called (post_sendPhoto _ _ as c) _ => Some c
             | _ => None
             end) tr.

Definition buzzer_calls (tr : trace) : list call :=
  omap (λ e, match e with
             | Called (buzzer_set_value _ as c) _
             | Called (buzzer_off as c) _
             | Called (buzzer_close as c) _ => Some c
             | _ => None
             end) tr.

(** Was the buzzer driven at half duty for [d] seconds and switched off? *)
Fixpoint buzzed_for (d : nat) (tr : trace) : bool :=
  match tr with
  | [] => false
  | e :: tr' =>
      match e, tr' with
      | Called (buzzer_set_value v) None,
        Slept d' :: Called buzzer_off None :: _ =>
          (Qeq_bool v (1 # 2) && Nat.eqb d' d) || buzzed_for d tr'
      | _, _ => buzzed_for d tr'
      end
  end.

(** The paths of the photo notifications attempted in a trace. *)
Definition photos (tr : trace) : list string :=
  omap (λ e, match e with
             | Called (post_sendPhoto path _) _ => Some path
             | _ => None
             end) tr.

(** A computation that attempts no photo notification and leaves the local
    variables of the cycle alone. *)
Definition steady {A} (m : M A) : Prop :=
  ∀ w, ∃ seg, log (m w).2 = log w ++ seg
              ∧ locals (m w).2 = locals w
              ∧ photos seg = [].

(** A computation that, started with [annotated_image_path] at [a], sends
    photos only of the annotated path it ends with. *)
Definition photo_ok (a : option string) {A} (m : M A) : Prop :=
  ∀ w, annotated_image_path (locals w) = a →
    ∃ seg, log (m w).2 = log w ++ seg
           ∧ ∀ p, p ∈ photos seg →
                  annotated_image_path (locals (m w).2) = Some p.

(** A stretch of trace with no notification and no buzzer call. *)
Definition uneventful (tr : trace) : Prop :=
  notifications tr = [] ∧ buzzer_calls tr = [].

(** A step that returns, keeps the local variables, and is uneventful. *)
Definition calm (m : M unit) : Prop :=
  ∀ w, ∃ seg w',
    m w = (Ok tt, w') ∧ log w' = log w ++ seg ∧ locals w' = locals w
    ∧ uneventful seg.

(** The summary [format_detection_message] builds for detections that all
    carry a category. *)
Definition summary_of (env : Env) (self : ObjectDetector)
    (ds : list Detection) : string :=
  match ds with
  | [] => no_objects_detected
  | _ => results_header +:+ entries env self 1 (first_categories ds)
  end.

(** [SecuritySystem.__init__]: the collaborators it builds. *)
Definition SecuritySystem_new (model : string) (video_duration : nat)
  : SecuritySystem :=
  {| camera_manager := CameraManager_new;
     detector := ObjectDetector_new model;
     VIDEO_DURATION := JNum (inject_Z (Z.of_nat video_duration)) |}.

(** A configuration document that holds the settings [s]; the two optional
    keys are written when asked for. *)
Definition config_of (s : Settings) (with_frequency with_duration : bool)
  : json :=
  JObj [("telegram", JObj [("token", TELEGRAM_TOKEN s);
                           ("chat_id", TELEGRAM_CHAT_ID s)]);
        ("gpio", JObj ([("pir_pin", PIR_PIN s); ("buzzer_pin", BUZZER_PIN s)]
                       ++ if with_frequency
                          then [("buzzer_frequency", BUZZER_FREQUENCY s)]
                          else []));
        ("camera", JObj ([("model_path", MODEL_PATH s)]
                         ++ if with_duration
                            then [("video_duration", video_duration s)]
                            else []))].

(** The value at [config[a][b]] when both levels are dictionaries that have
    the key. *)
Definition at2 (config : json) (a b : string) : option json :=
  match config with
  | JObj members =>
      match dict_lookup a members with
      | Some (JObj inner) => dict_lookup b inner
      | _ => None
      end
  | _ => None
  end.

(** The string has no occurrence of the character. *)
Fixpoint lacks (c : ascii) (s : string) : bool :=
  match s with
  | "" => true
  | String c' s' => negb (Ascii.eqb c' c) && lacks c s'
  end.

(** The [ffmpeg] command line of [convert_h264_to_mp4]. *)
Definition ffmpeg_command (source target : string) : string :=
  "ffmpeg -fflags +genpts -i " +:+ source +:+ " -vf vflip -c:v h264 " +:+ target.

(** A computation that leaves the disk and the caller's variables alone. *)
Definition inert {A} (m : M A) : Prop :=
  ∀ w, fs (m w).2 = fs w ∧ locals (m w).2 = locals w.

(** Every file on disk was there at [base] or is named by a path variable
    of the cycle. *)
Definition accounted (base : gset string) (w : World) : Prop :=
  ("" ∉ fs w) ∧ fs w ⊆ base ∪ produced (locals w).

(** Is [e] caught by [except Exception]?  [KeyboardInterrupt], [SystemExit]
    and [GeneratorExit] derive from [BaseException] only. *)
Definition is_Exception (e : exn) : bool :=
  negb (bool_decide
          (exn_class e ∈ ["KeyboardInterrupt"; "SystemExit"; "GeneratorExit"])).

(** A computation that leaves no file behind: whatever it wrote it has
    removed again by the time it ends, normally or not. *)
Definition leaves_no_file {A} (m : M A) : Prop :=
  ∀ w, "" ∉ fs w → fs (m w).2 ⊆ fs w.

(** ** Sample inputs *)

Definition quiet_env : Env :=
  {| oracle := λ _ _, None;
     now := λ tr, "20240101_1200" +:+ pretty (length tr);
     infer := λ _ _, {| detections := [] |};
     decode := λ _, Ok (JObj []);
     fmt_percent := λ _, "95.00%";
     fmt_round2 := λ _, "0.95" |}.

Definition empty_world : World :=
  {| picam2 := None; fs := ∅; locals := no_paths; log := [] |}.

Definition a_box : BoundingBox :=
  {| origin_x := 10; origin_y := 20; width := 30; height := 40 |}.

Definition person (confidence : Q) : Detection :=
  {| bounding_box := a_box;
     categories := [ {| category_name := "person"; score := confidence |} ] |}.

Definition default_detector : ObjectDetector := ObjectDetector_new "model.tflite".

(** After a cycle that captured a video and a still, and failed before the
    transcoding. *)
Definition interrupted_cycle_world : World :=
  {| picam2 := None;
     fs := {[ "videos/video_1.h264"; "images/captured_1.jpg"; "notes.txt" ]};
     locals := {| h264_path := Some "videos/video_1.h264";
                  image_path := Some "images/captured_1.jpg";
                  mp4_path := None;
                  annotated_image_path := None |};
     log := [] |}.

(** A configuration file that holds the JSON document [null]. *)
Definition null_config_env : Env :=
  {| oracle := λ _ _, None;
     now := λ _, "";
     infer := λ _ _, {| detections := [] |};
     decode := λ _, Ok JNull;
     fmt_percent := λ _, "";
     fmt_round2 := λ _, "" |}.

(** A camera whose [stop()] raises. *)
Definition stop_fails_env : Env :=
  {| oracle := λ c _, match c with
                      | stop _ => Some (Exn "RuntimeError" "Camera is not running")
                      | _ => None
                      end;
     now := λ tr, "20240101_1200" +:+ pretty (length tr);
     infer := λ _ _, {| detections := [] |};
     decode := λ _, Ok (JObj []);
     fmt_percent := λ _, "";
     fmt_round2 := λ _, "" |}.

(** A motion sensor whose driver fails. *)
Definition sensor_fails_env : Env :=
  {| oracle := λ c _, match c with
                      | wait_for_motion => Some (Exn "GPIOError" "sensor lost")
                      | _ => None
                      end;
     now := λ tr, "20240101_1200" +:+ pretty (length tr);
     infer := λ _ _, {| detections := [] |};
     decode := λ _, Ok (JObj []);
     fmt_percent := λ _, "";
     fmt_round2 := λ _, "" |}.

(** No camera is attached: the [Picamera2()] constructor raises. *)
Definition no_camera_env : Env :=
  {| oracle := λ c _, match c with
                      | Picamera2_new _ =>
                          Some (Exn "RuntimeError" "Camera not found")
                      | _ => None
                      end;
     now := λ tr, "20240101_1200" +:+ pretty (length tr);
     infer := λ _ _, {| detections := [] |};
     decode := λ _, Ok (JObj []);
     fmt_percent := λ _, "";
     fmt_round2 := λ _, "" |}.

(** A day on which the chat endpoint cannot be reached. *)
Definition offline_env : Env :=
  {| oracle := λ c _, match c with
                      | post_sendMessage _ | post_sendVideo _ _
                      | post_sendPhoto _ _ =>
                          Some (Exn "ConnectionError" "Network is unreachable")
                      | _ => None
                      end;
     now := λ tr, "20240101_1200" +:+ pretty (length tr);
     infer := λ _ _, {| detections := [] |};
     decode := λ _, Ok (JObj []);
     fmt_percent := λ _, "";
     fmt_round2 := λ _, "" |}.

(** A detector that always reports one person at 95%. *)
Definition one_person_env : Env :=
  {| oracle := λ _ _, None;
     now := λ tr, "20240101_1200" +:+ pretty (length tr);
     infer := λ _ _, {| detections := [person (95 # 100)] |};
     decode := λ _, Ok (JObj []);
     fmt_percent := λ _, "95.00%";
     fmt_round2 := λ _, "0.95" |}.

Definition a_frame : image := Flipped (Resized (Captured 0 1) 640 480) (-1).

Definition a_system : SecuritySystem := SecuritySystem_new "model.tflite" 5.

Definition config_on_disk : World :=
  {| picam2 := None; fs := {[ "config.json" ]}; locals := no_paths; log := [] |}.

(** Settings as a deployment would write them. *)
Definition some_settings : Settings :=
  {| TELEGRAM_TOKEN := JStr "123:abc"; TELEGRAM_CHAT_ID := JStr "42";
     PIR_PIN := JNum 17; BUZZER_PIN := JNum 18; BUZZER_FREQUENCY := JNum 2500;
     MODEL_PATH := JStr "model.tflite"; video_duration := JNum 10 |}.

(** A configuration file that leaves the optional keys out. *)
Definition minimal_config_env : Env :=
  {| oracle := λ _ _, None;
     now := λ _, "";
     infer := λ _ _, {| detections := [] |};
     decode := λ _, Ok (config_of some_settings false false);
     fmt_percent := λ _, "";
     fmt_round2 := λ _, "" |}.


(** * Verification *)

(** ** Running computations *)

Lemma run_bind {A B} (m : M A) (f : A → M B) (w : World) :
  (m ≫= f) w =
  match m w with
  | (Ok a, w') => f a w'
  | (Raise e, w') => (Raise e, w')
  end.
Proof. reflexivity. Qed.

Lemma run_modify {B} (g : World → World) (f : unit → M B) (w : World) :
  (modify g ≫= f) w = f tt (g w).
Proof. reflexivity. Qed.

Lemma run_seq_assoc {A} (m1 m2 : M unit) (m3 : M A) (w : World) :
  (m1 ;; m2 ;; m3) w = ((m1 ;; m2) ;; m3) w.
Proof. rewrite !run_bind. destruct (m1 w) as [[[]|e] w1]; reflexivity. Qed.

Lemma run_bind_ok {A B} (m : M A) (f : A → M B) (w w' : World) (a : A) :
  m w = (Ok a, w') → (m ≫= f) w = f a w'.
Proof. intros H. rewrite run_bind, H. reflexivity. Qed.

Lemma run_bind_raise {A B} (m : M A) (f : A → M B) (w w' : World) (e : exn) :
  m w = (Raise e, w') → (m ≫= f) w = (Raise e, w').
Proof. intros H. rewrite run_bind, H. reflexivity. Qed.

(** Unfold the monad and the primitive effects, leaving the collaborator
    outcomes to case analysis. *)
Ltac unfold_M :=
  unfold try_except, try_finally, print, sleep, modify, get, raise,
    mbind, M_bind, mret, M_ret in *.

Ltac unfold_world :=
  unfold set_picam2, set_fs, set_locals, emit in *;
  cbn [picam2 fs locals log] in *.

(** Close a goal [∃ tr, (r, w') = (r, {| ...; log := log w ++ tr |})]. *)
Ltac trace_done :=
  eexists; unfold_world; rewrite <- ?app_assoc; reflexivity.

Lemma append_cons (c : ascii) (s t : string) :
  String c s +:+ t = String c (s +:+ t).
Proof. reflexivity. Qed.

Lemma append_nil_r (s : string) : s +:+ "" = s.
Proof. induction s as [|c s IH]; [done|]. by rewrite append_cons, IH. Qed.

Lemma append_assoc (s1 s2 s3 : string) : (s1 +:+ s2) +:+ s3 = s1 +:+ s2 +:+ s3.
Proof. induction s1 as [|c s1 IH]; [done|]. by rewrite !append_cons, IH. Qed.

(** ** The detector reads first categories only *)

Section Detector.
Variable env : Env.
Variable self : ObjectDetector.

Lemma first_category_ok d c cs w :
  categories d = c :: cs → first_category d w = (Ok c, w).
Proof. intros H. unfold first_category. rewrite H. reflexivity. Qed.

Lemma check_access_loop_run (ds : list Detection) :
  Forall has_category ds →
  ∀ w, ∃ line,
    check_access_loop env self ds w
    = (Ok (existsb (meets_threshold self) ds), emit (Printed line) w).
Proof.
  induction 1 as [|d ds Hd _ IH]; intros w.
  - eexists. reflexivity.
  - destruct (categories d) as [|c cs] eqn:Hc; [done|].
    cbn [check_access_loop existsb]. unfold meets_threshold at 1. rewrite Hc.
    rewrite (run_bind_ok _ _ w w c) by (by eapply first_category_ok).
    destruct (Qle_bool (confidence_threshold self) (score c)) eqn:Hle.
    + eexists. reflexivity.
    + apply IH.
Qed.

Lemma check_access_run (r : DetectionResult) :
  Forall has_category (detections r) →
  ∀ w, ∃ line,
    check_access env self r w
    = (Ok (existsb (meets_threshold self) (detections r)), emit (Printed line) w).
Proof.
  intros H w. unfold check_access.
  destruct (detections r) as [|d ds] eqn:Hr.
  - eexists. reflexivity.
  - by apply check_access_loop_run.
Qed.

Lemma existsb_meets (ds : list Detection) :
  existsb (meets_threshold self) ds = true ↔
  ∃ d c, d ∈ ds ∧ head (categories d) = Some c
         ∧ (confidence_threshold self <= score c)%Q.
Proof.
  rewrite existsb_exists. split.
  - intros (d & Hin & Hm). unfold meets_threshold in Hm.
    destruct (categories d) as [|c cs] eqn:Hc; [done|].
    exists d, c. rewrite Hc. split_and!; [by apply list_elem_of_In|done|].
    by apply Qle_bool_iff.
  - intros (d & c & Hin & Hh & Hle). exists d.
    split; [by apply list_elem_of_In|].
    unfold meets_threshold. destruct (categories d); simplify_eq/=.
    by apply Qle_bool_iff.
Qed.

(** C1. On a detection result whose detections all carry a category,
    [check_access] returns, and it returns [True] exactly when the first
    category of some detection has a score at or above the threshold; so it
    returns [False] on an empty list and when every first-category score is
    strictly below the threshold. *)
Theorem check_access_iff_some_meets_threshold (r : DetectionResult) (w : World) :
  Forall has_category (detections r) →
  ∃ b : bool,
    (check_access env self r w).1 = Ok b
    ∧ (b = true ↔
       ∃ d c, d ∈ detections r ∧ head (categories d) = Some c
              ∧ (confidence_threshold self <= score c)%Q)
    ∧ (detections r = [] → b = false)
    ∧ ((∀ d c, d ∈ detections r → head (categories d) = Some c →
               (score c < confidence_threshold self)%Q) → b = false).
Proof.
  intros Hcat. destruct (check_access_run r Hcat w) as [line Hrun].
  exists (existsb (meets_threshold self) (detections r)).
  rewrite Hrun. split_and!; [done|apply existsb_meets|..].
  - intros ->. reflexivity.
  - intros Hlow. apply not_true_is_false. rewrite existsb_meets.
    intros (d & c & Hin & Hh & Hle).
    specialize (Hlow d c Hin Hh). by apply Qlt_not_le in Hlow.
Qed.

Lemma format_entry_verdict (i : nat) (c : Category) :
  format_entry env self i c =
  entry_head env i c
  +:+ (if Qle_bool (confidence_threshold self) (score c)
       then granted_line else denied_line).
Proof. unfold format_entry, entry_head. by rewrite !append_assoc. Qed.

Lemma format_loop_entries (ds : list Detection) :
  Forall has_category ds →
  ∀ i message w,
    format_loop env self i message ds w
    = (Ok (message +:+ entries env self i (first_categories ds)), w).
Proof.
  induction 1 as [|d ds Hd _ IH]; intros i message w.
  - cbn. by rewrite append_nil_r.
  - destruct (categories d) as [|c cs] eqn:Hc; [done|].
    cbn [format_loop].
    rewrite (run_bind_ok _ _ w w c) by (by eapply first_category_ok).
    rewrite IH. do 2 f_equal.
    unfold first_categories. cbn [flat_map]. rewrite Hc. cbn [take app entries].
    fold (first_categories ds). unfold format_entry.
    destruct (Qle_bool _ _); by rewrite !append_assoc.
Qed.

Lemma first_categories_length (ds : list Detection) :
  Forall has_category ds → length (first_categories ds) = length ds.
Proof.
  induction 1 as [|d ds Hd _ IH]; [done|].
  unfold first_categories, has_category in *. cbn [flat_map].
  destruct (categories d); [done|]. by rewrite length_app, IH.
Qed.

Lemma header_not_sentinel (s : string) : results_header +:+ s ≠ no_objects_detected.
Proof. discriminate. Qed.

Lemma format_detection_message_run (r : DetectionResult) (w : World) :
  Forall has_category (detections r) →
  format_detection_message env self r w
  = (Ok (match detections r with
         | [] => no_objects_detected
         | _ => results_header +:+ entries env self 1 (first_categories (detections r))
         end), w).
Proof.
  intros Hcat. unfold format_detection_message.
  destruct (detections r) as [|d ds] eqn:Hr; [done|].
  cbn [length Nat.eqb]. by rewrite format_loop_entries.
Qed.

Lemma check_access_loop_first_only (ds : list Detection) (w : World) :
  check_access_loop env self (map first_only ds) w = check_access_loop env self ds w.
Proof.
  revert w. induction ds as [|d ds IH]; intros w; [done|].
  cbn [map check_access_loop]. rewrite !run_bind.
  unfold first_category, first_only at 1. cbn [categories].
  destruct (categories d) as [|c cs]; [done|]. cbn [take].
  cbn. destruct (Qle_bool _ _); [done|]. apply IH.
Qed.

Lemma format_loop_first_only (ds : list Detection) (i : nat) (message : string)
    (w : World) :
  format_loop env self i message (map first_only ds) w
  = format_loop env self i message ds w.
Proof.
  revert i message w. induction ds as [|d ds IH]; intros i message w; [done|].
  cbn [map format_loop]. rewrite !run_bind.
  unfold first_category, first_only at 1. cbn [categories].
  destruct (categories d) as [|c cs]; [done|]. cbn [take].
  cbn. apply IH.
Qed.

(** C7. The summary is the sentinel exactly when there is no detection;
    otherwise it is the header followed by one entry per detection, in
    order, each made of the detection's label, its confidence as a
    percentage and a verdict decided by that detection's own confidence; and
    some result is granted access as a whole while one of its entries reads
    denied. *)
Theorem format_detection_message_summary (r : DetectionResult) (w : World) :
  Forall has_category (detections r) →
  (detections r = [] →
   format_detection_message env self r w = (Ok no_objects_detected, w))
  ∧ (detections r ≠ [] →
     format_detection_message env self r w
     = (Ok (results_header
            +:+ entries env self 1 (first_categories (detections r))), w))
  ∧ (∀ message, (format_detection_message env self r w).1 = Ok message →
       (message = no_objects_detected ↔ detections r = []))
  ∧ length (first_categories (detections r)) = length (detections r)
  ∧ (∀ i c, ((confidence_threshold self <= score c)%Q →
             format_entry env self i c = entry_head env i c +:+ granted_line)
          ∧ ((score c < confidence_threshold self)%Q →
             format_entry env self i c = entry_head env i c +:+ denied_line))
  ∧ (∃ r' c1 c2,
       (check_access env self r' w).1 = Ok true
       ∧ (format_detection_message env self r' w).1
         = Ok (results_header +:+ format_entry env self 1 c1
               +:+ format_entry env self 2 c2)
       ∧ format_entry env self 2 c2 = entry_head env 2 c2 +:+ denied_line).
Proof.
  intros Hcat. pose proof (format_detection_message_run r w Hcat) as Hrun.
  split_and!.
  - intros Hr. by rewrite Hrun, Hr.
  - intros Hr. rewrite Hrun. by destruct (detections r).
  - intros message. rewrite Hrun. cbn. intros [= <-].
    destruct (detections r); [done|].
    split; [intros H; by apply header_not_sentinel in H|done].
  - by apply first_categories_length.
  - intros i c. rewrite format_entry_verdict. split.
    + intros Hle. apply Qle_bool_iff in Hle. by rewrite Hle.
    + intros Hlt. apply Qlt_not_le in Hlt.
      destruct (Qle_bool _ _) eqn:Hb; [|done].
      by apply Qle_bool_iff in Hb.
  - set (t := confidence_threshold self).
    set (c1 := {| category_name := "person"; score := t |}).
    set (c2 := {| category_name := "cat"; score := t - 1 |}).
    set (d1 := {| bounding_box := a_box; categories := [c1] |}).
    set (d2 := {| bounding_box := a_box; categories := [c2] |}).
    assert (Hlo : Qle_bool t (t - 1) = false).
    { apply not_true_is_false. rewrite Qle_bool_iff. apply Qlt_not_le.
      rewrite <- (Qplus_0_r t) at 2. apply Qplus_lt_r. reflexivity. }
    assert (Hhi : Qle_bool t t = true).
    { apply Qle_bool_iff, Qle_refl. }
    exists {| detections := [d1; d2] |}, c1, c2. split_and!.
    + destruct (check_access_run {| detections := [d1; d2] |}
                  ltac:(repeat constructor; discriminate) w) as [line ->].
      cbn. unfold meets_threshold. cbn. fold t. by rewrite Hhi.
    + rewrite format_detection_message_run by (repeat constructor; discriminate).
      cbn. by rewrite append_nil_r.
    + rewrite format_entry_verdict. cbn [score c2]. fold t. by rewrite Hlo.
Qed.

(** C9. When every detection has a category, [check_access] and
    [format_detection_message] both return; their outcome is the one they
    have on the result stripped of every category but the first, so it is
    the same for any two results with the same first categories; and when
    every first-category score is below the threshold, access is refused
    and every entry reads denied, whatever the other categories hold. *)
Theorem only_first_category_is_read (r : DetectionResult) (w : World) :
  Forall has_category (detections r) →
  is_ok (check_access env self r w).1 = true
  ∧ is_ok (format_detection_message env self r w).1 = true
  ∧ check_access env self {| detections := map first_only (detections r) |} w
    = check_access env self r w
  ∧ format_detection_message env self
      {| detections := map first_only (detections r) |} w
    = format_detection_message env self r w
  ∧ (∀ r', Forall has_category (detections r') →
       first_categories (detections r') = first_categories (detections r) →
       (check_access env self r' w).1 = (check_access env self r w).1
       ∧ format_detection_message env self r' w
         = format_detection_message env self r w)
  ∧ ((∀ c, c ∈ first_categories (detections r) →
           (score c < confidence_threshold self)%Q) →
     (check_access env self r w).1 = Ok false
     ∧ ∀ i c, c ∈ first_categories (detections r) →
         format_entry env self i c = entry_head env i c +:+ denied_line).
Proof.
  intros Hcat.
  assert (Hfirst : ∀ ds, Forall has_category ds →
            existsb (meets_threshold self) ds
            = existsb (λ c, Qle_bool (confidence_threshold self) (score c))
                (first_categories ds)).
  { induction 1 as [|d ds Hd _ IH]; [done|].
    unfold has_category in Hd. unfold first_categories in *.
    cbn [existsb flat_map]. unfold meets_threshold at 1.
    destruct (categories d); [done|]. cbn. by rewrite IH. }
  assert (Hlen : ∀ ds ds', Forall has_category ds → Forall has_category ds' →
            first_categories ds' = first_categories ds →
            ds' = [] ↔ ds = []).
  { intros ds ds' H H' Heq.
    apply first_categories_length in H, H'. rewrite Heq in H'.
    rewrite <- !length_zero_iff_nil. lia. }
  split_and!.
  - by destruct (check_access_run r Hcat w) as [line ->].
  - by rewrite format_detection_message_run.
  - unfold check_access. cbn [detections].
    destruct (detections r) as [|d ds]; [done|].
    apply (check_access_loop_first_only (d :: ds)).
  - unfold format_detection_message. cbn [detections].
    rewrite length_map.
    destruct (length (detections r) =? 0)%nat; [done|].
    apply format_loop_first_only.
  - intros r' Hcat' Heq.
    destruct (check_access_run r Hcat w) as [line ->].
    destruct (check_access_run r' Hcat' w) as [line' ->].
    rewrite !format_detection_message_run by done. cbn.
    rewrite !Hfirst, Heq by done. split; [done|].
    pose proof (Hlen _ _ Hcat Hcat' Heq) as Hnil.
    destruct Hnil as [H1 H2].
    destruct (detections r), (detections r'); try done.
    + by specialize (H2 eq_refl).
    + by specialize (H1 eq_refl).
  - intros Hlow. split.
    + destruct (check_access_run r Hcat w) as [line ->]. cbn. f_equal.
      rewrite Hfirst by done. apply not_true_is_false.
      rewrite existsb_exists. intros (c & Hin & Hle).
      apply Qle_bool_iff in Hle. apply list_elem_of_In in Hin.
      by apply Hlow, Qlt_not_le in Hin.
    + intros i c Hin. rewrite format_entry_verdict.
      destruct (Qle_bool _ _) eqn:Hb; [|done].
      apply Qle_bool_iff in Hb. by apply Hlow, Qlt_not_le in Hin.
Qed.

End Detector.

(** C1 at one detection of confidence 0.95 under the default threshold. *)
Lemma check_access_iff_some_meets_threshold_witness :
  Forall has_category [person (95 # 100)]
  ∧ ∃ b : bool,
      (check_access quiet_env default_detector
         {| detections := [person (95 # 100)] |} empty_world).1 = Ok b
      ∧ (b = true ↔
         ∃ d c, d ∈ [person (95 # 100)] ∧ head (categories d) = Some c
                ∧ (confidence_threshold default_detector <= score c)%Q)
      ∧ ([person (95 # 100)] = [] → b = false)
      ∧ ((∀ d c, d ∈ [person (95 # 100)] → head (categories d) = Some c →
                 (score c < confidence_threshold default_detector)%Q)
         → b = false).
Proof.
  split.
  - repeat constructor; discriminate.
  - apply (check_access_iff_some_meets_threshold quiet_env default_detector
             {| detections := [person (95 # 100)] |} empty_world).
    repeat constructor; discriminate.
Defined.

(** ** Cleaning up files *)

Lemma World_eq (w1 w2 : World) :
  picam2 w1 = picam2 w2 → fs w1 = fs w2 → locals w1 = locals w2 →
  log w1 = log w2 → w1 = w2.
Proof. destruct w1, w2; cbn; by intros -> -> -> ->. Qed.

Section Files.
Variable env : Env.

Lemma remove_video_file_run (path : option string) :
  removes (remove_video_file path) (opt_set path).
Proof.
  intros w _. unfold remove_video_file, path_exists, os_remove. unfold_M.
  destruct path as [p|]; cbn.
  - case_bool_decide; cbn.
    + rewrite bool_decide_true by done. cbn. eexists. reflexivity.
    + exists []. rewrite app_nil_r. f_equal. apply World_eq; cbn; set_solver.
  - eexists. f_equal. apply World_eq; cbn; [done|set_solver|done|done].
Qed.

Lemma remove_image_file_run (path : option string) (m : M unit) :
  m = try_except
        (present ← path_exists path;
         if present : bool then
           os_remove path ;; print ("Removed image file: " +:+ str_opt path)
         else mret tt)
        (λ e, print ("Error removing image file " +:+ str_opt path +:+ ": "
                     +:+ exn_str e)) →
  removes (if truthy path then m else mret tt) (opt_set path).
Proof.
  intros -> w Hw. unfold path_exists, os_remove. unfold_M.
  destruct path as [p|]; cbn.
  - destruct (String.eqb_spec p "") as [->|Hp]; cbn.
    + exists []. rewrite app_nil_r. f_equal. apply World_eq; cbn; set_solver.
    + case_bool_decide; cbn.
      * rewrite bool_decide_true by done. cbn. eexists. reflexivity.
      * exists []. rewrite app_nil_r. f_equal. apply World_eq; cbn; set_solver.
  - exists []. rewrite app_nil_r. f_equal. apply World_eq; cbn; set_solver.
Qed.

Lemma removes_nothing : removes (mret tt) ∅.
Proof.
  intros w _. exists []. rewrite app_nil_r. cbn. f_equal.
  apply World_eq; cbn; set_solver.
Qed.

Lemma removes_seq (m1 m2 : M unit) (g1 g2 : gset string) :
  removes m1 g1 → removes m2 g2 → removes (m1 ;; m2) (g1 ∪ g2).
Proof.
  intros H1 H2 w Hw. destruct (H1 w Hw) as [tr1 E1].
  rewrite (run_bind_ok _ _ _ _ _ E1). cbn beta.
  match goal with
  | |- context [m2 ?w1] => destruct (H2 w1) as [tr2 E2]; [cbn; set_solver|]
  end.
  rewrite E2. cbn. exists (tr1 ++ tr2). f_equal.
  apply World_eq; cbn; [done|set_solver|done|by rewrite app_assoc].
Qed.

Lemma removes_equal (m : M unit) (g1 g2 : gset string) :
  g1 = g2 → removes m g1 → removes m g2.
Proof. by intros ->. Qed.

Lemma removes_modulo_empty (m : M unit) (g1 g2 : gset string) :
  removes m g1 → g2 ∖ {[""]} = g1 ∖ {[""]} → removes m g2.
Proof.
  intros H Heq w Hw. destruct (H w Hw) as [tr E]. exists tr. rewrite E.
  f_equal. apply World_eq; cbn; [done| |done|done].
  apply set_eq. intros x. destruct (decide (x = "")) as [->|Hx]; [set_solver|].
  assert (x ∈ g1 ↔ x ∈ g2) by set_solver. set_solver.
Qed.

Lemma removes_try_except (m : M unit) (h : exn → M unit) (g : gset string) :
  removes m g → removes (try_except m h) g.
Proof.
  intros H w Hw. destruct (H w Hw) as [tr E]. exists tr.
  unfold try_except. by rewrite E.
Qed.

Lemma falsy_opt_set (o : option string) :
  truthy o = false → opt_set o ∖ {[""]} = ∅.
Proof.
  destruct o as [p|]; cbn; [|set_solver].
  destruct (String.eqb_spec p ""); [set_solver|done].
Qed.

Lemma remove_video_files_run (h m : option string) :
  removes (remove_video_files [h; m]) (opt_set h ∪ opt_set m).
Proof.
  cbn [remove_video_files].
  eapply removes_equal; [|apply removes_seq; [apply remove_video_file_run|]].
  2: { apply removes_seq; [apply remove_video_file_run|apply removes_nothing]. }
  set_solver.
Qed.

Lemma cleanup_files_run (l : Locals) :
  removes
    (cleanup_files
       (if truthy (h264_path l) || truthy (mp4_path l)
        then Some [h264_path l; mp4_path l] else None)
       (image_path l))
    (opt_set (h264_path l) ∪ opt_set (mp4_path l) ∪ opt_set (image_path l)).
Proof.
  unfold cleanup_files.
  destruct (truthy (h264_path l) || truthy (mp4_path l)) eqn:Hv.
  - apply removes_seq; [apply remove_video_files_run|].
    by eapply remove_image_file_run.
  - apply orb_false_iff in Hv as [Hh Hm].
    apply falsy_opt_set in Hh, Hm.
    eapply removes_modulo_empty.
    + apply removes_seq; [apply removes_nothing|].
      by eapply remove_image_file_run.
    + set_solver.
Qed.

Lemma remove_annotated_image_run (path : option string) :
  removes (remove_annotated_image path) (opt_set path).
Proof.
  intros w Hw. unfold remove_annotated_image, path_exists, os_remove. unfold_M.
  destruct path as [p|]; cbn.
  - destruct (String.eqb_spec p "") as [->|Hp]; cbn.
    + exists []. rewrite app_nil_r. f_equal. apply World_eq; cbn; set_solver.
    + case_bool_decide; cbn.
      * rewrite bool_decide_true by done. cbn. eexists. reflexivity.
      * exists []. rewrite app_nil_r. f_equal. apply World_eq; cbn; set_solver.
  - exists []. rewrite app_nil_r. f_equal. apply World_eq; cbn; set_solver.
Qed.

Lemma cleanup_run (w : World) :
  ∃ tr, cleanup env w
        = (Ok tt, {| picam2 := None; fs := fs w; locals := locals w;
                     log := log w ++ tr |}).
Proof.
  unfold cleanup, ext. unfold_M.
  destruct (picam2 w) as [h|] eqn:Hp.
  - destruct (oracle env (stop h) _); cbn; [trace_done|].
    destruct (oracle env (close h) _); cbn; trace_done.
  - exists []. rewrite app_nil_r. f_equal. by apply World_eq.
Qed.

Lemma cleanup_no_handle (w : World) : picam2 w = None → cleanup env w = (Ok tt, w).
Proof. intros H. unfold cleanup. unfold_M. by rewrite H. Qed.

Lemma cycle_finally_run (w : World) :
  "" ∉ fs w →
  ∃ tr, cycle_finally env w
        = (Ok tt, {| picam2 := None; fs := fs w ∖ produced (locals w);
                     locals := locals w; log := log w ++ tr |}).
Proof.
  intros Hw. unfold cycle_finally. rewrite run_bind. cbn [get].
  assert (Hfiles : removes
            (cleanup_files
               (if truthy (h264_path (locals w)) || truthy (mp4_path (locals w))
                then Some [h264_path (locals w); mp4_path (locals w)] else None)
               (image_path (locals w)) ;;
             (if truthy (annotated_image_path (locals w)) then
                try_except
                  (remove_annotated_image (annotated_image_path (locals w)))
                  (λ cleanup_error,
                     print ("Error removing annotated image: "
                            +:+ exn_str cleanup_error))
              else mret tt))
            (produced (locals w))).
  { apply removes_seq; [apply cleanup_files_run|].
    destruct (truthy (annotated_image_path (locals w))) eqn:Ha.
    - apply removes_try_except, remove_annotated_image_run.
    - eapply removes_modulo_empty; [apply removes_nothing|].
      apply falsy_opt_set in Ha. set_solver. }
  destruct (Hfiles w Hw) as [tr1 E1].
  rewrite run_seq_assoc, (run_bind_ok _ _ _ _ _ E1). cbn beta.
  match goal with |- context [cleanup env ?w1] =>
    destruct (cleanup_run w1) as [tr2 ->] end.
  exists (tr1 ++ tr2). cbn. by rewrite app_assoc.
Qed.

(** C5. Whatever the four path variables of the cycle hold, the cleanup
    phase raises nothing and deletes from disk exactly the files they name,
    whether or not those files exist; run again on the same paths it raises
    nothing and changes no file. *)
Theorem cleanup_phase_removes_produced_artifacts (w : World) :
  "" ∉ fs w →
  (cycle_finally env w).1 = Ok tt
  ∧ fs (cycle_finally env w).2 = fs w ∖ produced (locals w)
  ∧ (∀ p, p ∈ fs (cycle_finally env w).2 ↔ p ∈ fs w ∧ p ∉ produced (locals w))
  ∧ locals (cycle_finally env w).2 = locals w
  ∧ (cycle_finally env (cycle_finally env w).2).1 = Ok tt
  ∧ fs (cycle_finally env (cycle_finally env w).2).2
    = fs (cycle_finally env w).2.
Proof.
  intros Hw. destruct (cycle_finally_run w Hw) as [tr ->]. cbn [fst snd fs locals].
  match goal with |- context [cycle_finally env ?w1] =>
    destruct (cycle_finally_run w1) as [tr' ->]; [cbn; set_solver|] end.
  cbn. split_and!; try done; set_solver.
Qed.

End Files.

(** C5 after a cycle that stopped before transcoding. *)
Lemma cleanup_phase_removes_produced_artifacts_witness :
  ("" ∉ fs interrupted_cycle_world)
  ∧ (cycle_finally quiet_env interrupted_cycle_world).1 = Ok tt
  ∧ fs (cycle_finally quiet_env interrupted_cycle_world).2
    = fs interrupted_cycle_world ∖ produced (locals interrupted_cycle_world).
Proof.
  assert (H : "" ∉ fs interrupted_cycle_world) by (cbn; set_solver).
  split; [exact H|].
  destruct (cleanup_phase_removes_produced_artifacts quiet_env
              interrupted_cycle_world H) as (H1 & H2 & _).
  exact (conj H1 H2).
Defined.

(** ** Loading the configuration *)

Section Config.
Variable env : Env.

(** C10 as amended. [load_config] returns [None] when there is no such
    file, when decoding raises [JSONDecodeError], and when the document
    decodes to [null]; it returns the decoded value, whatever its type, when
    the file opens and decodes; every other exception, raised by [open] or by
    [json.load], propagates. *)
Theorem load_config_outcomes (config_path : string) (w : World) :
  ((load_config env config_path w).1 = Ok JNull ↔
   (load_config_body env config_path w).1 = Ok JNull
   ∨ (∃ e, (load_config_body env config_path w).1 = Raise e
           ∧ (exn_class e = "FileNotFoundError"
              ∨ exn_class e = "JSONDecodeError")))
  ∧ (config_path ∉ fs w → (load_config env config_path w).1 = Ok JNull)
  ∧ (config_path ∈ fs w →
     oracle env (builtin_open config_path) (log w) = None →
     (∀ v, decode env config_path = Ok v →
           (load_config env config_path w).1 = Ok v)
     ∧ (∀ e, decode env config_path = Raise e →
             exn_class e = "JSONDecodeError" →
             (load_config env config_path w).1 = Ok JNull)
     ∧ (∀ e, decode env config_path = Raise e →
             exn_class e ≠ "JSONDecodeError" →
             exn_class e ≠ "FileNotFoundError" →
             (load_config env config_path w).1 = Raise e))
  ∧ (config_path ∈ fs w →
     ∀ e, oracle env (builtin_open config_path) (log w) = Some e →
          exn_class e ≠ "JSONDecodeError" →
          exn_class e ≠ "FileNotFoundError" →
          (load_config env config_path w).1 = Raise e).
Proof.
  split.
  { unfold load_config, try_except.
    destruct (load_config_body env config_path w) as [[v|e] w']; cbn.
    - split; [by left|]. intros [H|(e & H & _)]; [done|discriminate H].
    - destruct (String.eqb_spec (exn_class e) "FileNotFoundError") as [H1|H1].
      { split; [|done]. intros _. right. exists e. by split; [|left]. }
      destruct (String.eqb_spec (exn_class e) "JSONDecodeError") as [H2|H2].
      { split; [|done]. intros _. right. exists e. by split; [|right]. }
      cbn. split; [done|].
      intros [H|(e' & [= <-] & [H|H])]; done. }
  unfold load_config, load_config_body, open_file, json_load, path_exists, ext.
  unfold_M. split_and!.
  - intros H. by rewrite bool_decide_false.
  - intros H Ho. rewrite bool_decide_true, Ho by done. split_and!.
    + by intros v ->.
    + intros e -> He. cbn. rewrite He. reflexivity.
    + intros e -> H1 H2. cbn.
      apply String.eqb_neq in H1, H2. by rewrite H1, H2.
  - intros H e Ho H1 H2. rewrite bool_decide_true, Ho by done. cbn.
    apply String.eqb_neq in H1, H2. by rewrite H1, H2.
Qed.

End Config.

(** C10 as stated fails: a configuration file that exists and holds the
    valid JSON document [null] makes [load_config] return [None]. *)
Lemma load_config_none_for_null_document :
  ¬ ((load_config null_config_env "config.json" config_on_disk).1 = Ok JNull
     ↔ "config.json" ∉ fs config_on_disk
       ∨ (∃ e, decode null_config_env "config.json" = Raise e)).
Proof.
  intros [H _].
  destruct (H eq_refl) as [Habs|[e He]]; [|discriminate He].
  apply Habs. cbn. set_solver.
Qed.

(** ** Annotating the image *)

Section Annotation.
Variable env : Env.
Variable self : ObjectDetector.

Lemma draw_detections_loop_run (ds : list Detection) :
  Forall has_category ds →
  ∀ img w, draw_detections_loop env img ds w = (Ok (annotate env img ds), w).
Proof.
  induction 1 as [|d ds Hd _ IH]; intros img w; [done|].
  unfold has_category in Hd.
  destruct (categories d) as [|c cs] eqn:Hc; [done|].
  cbn [draw_detections_loop annotate].
  rewrite (run_bind_ok _ _ w w c) by (by eapply first_category_ok).
  rewrite IH. unfold box_of, label_of. by rewrite Hc.
Qed.

Lemma annotate_rectangles (ds : list Detection) (img : image) :
  rectangles (annotate env img ds) = rectangles img ++ map box_of ds.
Proof.
  revert img. induction ds as [|d ds IH]; intros img; cbn [annotate map].
  - by rewrite app_nil_r.
  - rewrite IH. cbn [rectangles]. rewrite <- app_assoc.
    by destruct (box_of d).
Qed.

Lemma annotate_texts (ds : list Detection) (img : image) :
  texts (annotate env img ds) = texts img ++ map (label_of env) ds.
Proof.
  revert img. induction ds as [|d ds IH]; intros img; cbn [annotate map].
  - by rewrite app_nil_r.
  - rewrite IH. cbn [texts]. rewrite <- app_assoc.
    by destruct (label_of env d).
Qed.

(** C6. For every frame whose detections all carry a category,
    [draw_detections] returns the frame with one box and one label per
    detection, in order; it does so for any result, having no access to the
    threshold.  Whenever
    [detect_objects] returns, it returns the detector's result; with at
    least one detection the annotated image has been written and its path
    is returned, with none nothing is written and the path is [None].  It
    does return when no collaborator raises. *)
Theorem detect_objects_annotates_and_persists (img : image) (timestamp : string)
    (w : World) :
  Forall has_category (seen env self img) →
  (∀ r, Forall has_category (detections r) →
        draw_detections env img r w = (Ok (annotate env img (detections r)), w))
  ∧ draw_detections env img (infer env self (CvtColor img)) w
    = (Ok (annotate env img (seen env self img)), w)
  ∧ rectangles (annotate env img (seen env self img))
    = rectangles img ++ map box_of (seen env self img)
  ∧ texts (annotate env img (seen env self img))
    = texts img ++ map (label_of env) (seen env self img)
  ∧ (∀ r p w', detect_objects env self img timestamp w = (Ok (r, p), w') →
       r = infer env self (CvtColor img)
       ∧ (p = None ↔ seen env self img = [])
       ∧ (seen env self img ≠ [] →
          p = Some (annotated_path env self img timestamp)
          ∧ fs w' = fs w ∪ {[annotated_path env self img timestamp]}
          ∧ Called (cv2_imwrite (annotated_path env self img timestamp)
                      (annotate env img (seen env self img))) None ∈ log w')
       ∧ (seen env self img = [] →
          fs w' = fs w
          ∧ log w' = log w ++ [Called cv2_cvtColor None; Called mp_Image None;
                               Called create_from_options None;
                               Printed "Performing object detection...";
                               Called detector_detect None;
                               Called detector_close None]))
  ∧ ((∀ c tr, oracle env c tr = None) →
     is_ok (detect_objects env self img timestamp w).1 = true).
Proof.
  intros Hcat. split_and!.
  - intros r Hr. by apply draw_detections_loop_run.
  - by apply draw_detections_loop_run.
  - apply annotate_rectangles.
  - apply annotate_texts.
  - intros r p w'. unfold detect_objects, draw_detections, ext_writing, ext.
    unfold_M. unfold_world.
    repeat match goal with
           | |- context [oracle env ?c ?tr] =>
               destruct (oracle env c tr); cbn; [discriminate|]
           end.
    rewrite draw_detections_loop_run by done. cbn.
    fold (seen env self img). unfold annotated_path.
    destruct (seen env self img) as [|d ds] eqn:Hseen; cbn.
    + unfold ext. unfold_M. unfold_world.
      destruct (oracle env detector_close _); cbn; [discriminate|].
      intros [= <- <- <-]. cbn. rewrite <- !app_assoc. by split_and!.
    + unfold ext. unfold_M. unfold_world.
      destruct (oracle env (cv2_imwrite _ _) _); cbn; [discriminate|].
      destruct (oracle env detector_close _); cbn; [discriminate|].
      intros [= <- <- <-]. cbn. split_and!; try done.
      intros _. split_and!; try done.
      rewrite !elem_of_app, !list_elem_of_singleton. by left; right.
  - intros Hquiet. unfold detect_objects, draw_detections, ext_writing, ext.
    unfold_M. unfold_world. rewrite !Hquiet. cbn.
    rewrite draw_detections_loop_run by done. cbn.
    destruct (detections (infer env self (CvtColor img)));
      cbn; unfold ext; unfold_M; rewrite ?Hquiet; cbn; by rewrite ?Hquiet.
Qed.

End Annotation.

(** ** Acquiring the camera *)

Lemma printed_lines_app (a b : trace) :
  printed_lines (a ++ b) = printed_lines a ++ printed_lines b.
Proof. apply omap_app. Qed.

Lemma constructions_app (a b : trace) :
  constructions (a ++ b) = (constructions a + constructions b)%nat.
Proof. unfold constructions. by rewrite omap_app, length_app. Qed.

Lemma new_events_app (w w' : World) (seg : trace) :
  log w' = log w ++ seg → new_events w w' = seg.
Proof. unfold new_events. intros ->. by rewrite drop_app_length. Qed.

Lemma reacquires_cleanly_cons held p2 p1 e tr :
  reacquires_cleanly held p2 p1 (e :: tr)
  = match e with
    | Called (Picamera2_new _) _ =>
        match held with
        | None => true
        | Some h0 =>
            match p2, p1 with
            | Some (Called (close h1) None), Some (Slept 1) => Nat.eqb h1 h0
            | _, _ => false
            end
        end
    | _ => true
    end
    && reacquires_cleanly
         (match e with
          | Called (Picamera2_new h) None => Some h
          | _ => held
          end)
         p1 (Some e) tr.
Proof. reflexivity. Qed.

Section Camera.
Variable env : Env.

Ltac step_oracle :=
  once (match goal with
        | |- context [oracle env ?c ?tr] => destruct (oracle env c tr) eqn:?; cbn
        end).

(** One attempt: it prints nothing, constructs at most one handle, leaves
    the disk alone, returns [True] if it returns, and reacquires cleanly. *)
Lemma initialize_attempt_run (m : mode) (w : World) :
  ∃ r w' seg,
    initialize_attempt env m w = (r, w')
    ∧ log w' = log w ++ seg
    ∧ fs w' = fs w ∧ locals w' = locals w
    ∧ (∀ b, r = Ok b → b = true)
    ∧ printed_lines seg = []
    ∧ (constructions seg ≤ 1)%nat
    ∧ (∀ p2 p1 rest,
         (∀ q2 q1, reacquires_cleanly (picam2 w') q2 q1 rest = true) →
         reacquires_cleanly (picam2 w) p2 p1 (seg ++ rest) = true).
Proof.
  unfold initialize_attempt, Picamera2, ext. unfold_M. unfold_world.
  destruct (picam2 w) as [h0|] eqn:Hheld; cbn; destruct m;
    repeat step_oracle;
    once (rewrite <- ?app_assoc; cbn [app];
          do 3 eexists; split; [reflexivity|]; cbn [log fs locals picam2];
          split; [reflexivity|];
          split_and!; [done|done|by intros ? [= <-]|done|cbn; lia|];
          intros p2 p1 rest Hrest; rewrite ?Hheld in Hrest;
          cbn [app]; rewrite !reacquires_cleanly_cons; cbv beta iota;
          rewrite ?Nat.eqb_refl; cbn [andb]; apply Hrest).
Qed.

Lemma failure_lines_cons (first : nat) (e : exn) (es : list exn) :
  failure_lines first (e :: es)
  = attempt_failed_line first e :: failure_lines (S first) es.
Proof.
  unfold failure_lines. cbn [imap]. rewrite Nat.add_0_r. f_equal.
  apply imap_ext. intros k e' _. cbn. f_equal. lia.
Qed.

(** The loop with [todo] iterations left. *)
Lemma initialize_camera_loop_run (self : CameraManager) (m : mode) (todo : nat) :
  (todo ≤ _max_retries self)%nat →
  ∀ w, ∃ r w' seg es,
    initialize_camera_loop env self m todo w = (r, w')
    ∧ log w' = log w ++ seg
    ∧ fs w' = fs w ∧ locals w' = locals w
    ∧ printed_lines seg = failure_lines (_max_retries self - todo) es
    ∧ (constructions seg ≤ todo)%nat
    ∧ (∀ p2 p1, reacquires_cleanly (picam2 w) p2 p1 seg = true)
    ∧ ((r = Ok (Some true) ∧ (length es < todo)%nat)
       ∨ (r = Raise (init_failed self) ∧ length es = todo ∧ (0 < todo)%nat)
       ∨ (r = Ok None ∧ todo = O ∧ es = [])).
Proof.
  induction todo as [|todo IH]; intros Hle w.
  - exists (Ok None), w, [], []. rewrite app_nil_r.
    split_and!; try done. by right; right.
  - cbn [initialize_camera_loop]. unfold try_except. rewrite run_bind.
    destruct (initialize_attempt_run m w)
      as (r & w1 & seg1 & E1 & Hlog1 & Hfs1 & Hloc1 & Htrue & Hpr1 & Hc1 & Hrc1).
    rewrite E1. destruct r as [b|e].
    + (* the attempt returned *)
      rewrite (Htrue b eq_refl). exists (Ok (Some true)), w1, seg1, [].
      split_and!; try done.
      * lia.
      * intros p2 p1. specialize (Hrc1 p2 p1 [] (λ _ _, eq_refl)).
        by rewrite app_nil_r in Hrc1.
      * left. split; [done|cbn; lia].
    + (* the attempt raised *)
      unfold_M. unfold_world.
      destruct (_max_retries self - S todo <? _max_retries self - 1)%nat eqn:Hlast.
      * apply Nat.ltb_lt in Hlast.
        match goal with |- context [initialize_camera_loop env self m todo ?w2] =>
          destruct (IH ltac:(lia) w2)
            as (r & w' & seg & es & E & Hlog & Hfs & Hloc & Hpr & Hc & Hrc & Hres)
        end.
        cbn [log fs locals picam2] in *.
        exists r, w',
          (seg1 ++ [Printed (attempt_failed_line (_max_retries self - S todo) e);
                    Slept (_retry_delay self)] ++ seg), (e :: es).
        rewrite E. split_and!; try done.
        -- rewrite Hlog, Hlog1. by rewrite <- !app_assoc.
        -- congruence.
        -- congruence.
        -- rewrite !printed_lines_app, Hpr1, Hpr, failure_lines_cons. cbn.
           do 2 f_equal. lia.
        -- rewrite !constructions_app. cbn. lia.
        -- intros p2 p1. apply Hrc1. intros q2 q1. cbn [app].
           rewrite !reacquires_cleanly_cons. cbn [andb]. apply Hrc.
        -- destruct Hres as [[-> ?]|[(-> & ? & ?)|(-> & -> & ->)]].
           ++ left. split; [done|cbn; lia].
           ++ right; left. split_and!; [done|cbn; lia|lia].
           ++ lia.
      * apply Nat.ltb_ge in Hlast. assert (todo = O) as -> by lia.
        eexists (Raise (init_failed self)), _,
          (seg1 ++ [Printed (attempt_failed_line (_max_retries self - 1) e)]),
          [e].
        split_and!; [reflexivity|..]; cbn [log fs locals picam2]; try done.
        -- rewrite Hlog1. by rewrite <- !app_assoc.
        -- by rewrite printed_lines_app, Hpr1, failure_lines_cons.
        -- rewrite constructions_app. cbn. lia.
        -- intros p2 p1. apply Hrc1. intros q2 q1.
           by rewrite reacquires_cleanly_cons.
        -- right; left. split_and!; [done|done|lia].
Qed.

(** What the retried attempts add to the trace: nothing is printed but
    their reports. *)
Lemma retried_log (self : CameraManager) (m : mode) (k : nat) (w w' : World)
    (es : list exn) :
  retried env self m k w es w' →
  ∃ seg, log w' = log w ++ seg ∧ printed_lines seg = failure_lines k es.
Proof.
  induction 1 as [k w|k w w1 w' e es Ha _ (seg & Hlog & Hpr)].
  - exists []. by rewrite app_nil_r.
  - destruct (initialize_attempt_run m w)
      as (r & w1' & seg1 & E1 & Hlog1 & _ & _ & _ & Hpr1 & _).
    rewrite Ha in E1. injection E1 as <- <-.
    cbn [emit log] in Hlog. rewrite Hlog1 in Hlog.
    exists (seg1 ++ [Printed (attempt_failed_line k e);
                     Slept (_retry_delay self)] ++ seg).
    split; [by rewrite Hlog, <- !app_assoc|].
    rewrite !printed_lines_app, Hpr1, Hpr, failure_lines_cons. done.
Qed.

(** The loop with [todo] iterations left, attempt by attempt. *)
Lemma initialize_camera_loop_attempts (self : CameraManager) (m : mode)
    (todo : nat) :
  (0 < todo ≤ _max_retries self)%nat →
  ∀ w, ∃ es w_last,
    retried env self m (_max_retries self - todo) w es w_last
    ∧ (length es < todo)%nat
    ∧ match initialize_attempt env m w_last with
      | (Ok _, w') =>
          initialize_camera_loop env self m todo w = (Ok (Some true), w')
      | (Raise e, w') =>
          length es = (todo - 1)%nat
          ∧ initialize_camera_loop env self m todo w
            = (Raise (init_failed self),
               emit (Printed (attempt_failed_line (_max_retries self - 1) e))
                 w')
      end.
Proof.
  induction todo as [|todo IH]; intros Hle w; [lia|].
  cbn [initialize_camera_loop]. unfold try_except. rewrite run_bind.
  destruct (initialize_attempt env m w) as [[b|e] w1] eqn:Ha.
  - (* the attempt returned *)
    exists [], w. split; [constructor|]. split; [cbn; lia|]. rewrite Ha.
    destruct (initialize_attempt_run m w) as (? & ? & ? & E1 & _ & _ & _ & Htrue & _).
    rewrite Ha in E1. injection E1 as <- <-.
    by rewrite (Htrue b eq_refl).
  - (* the attempt raised *)
    unfold print. rewrite run_modify.
    destruct (_max_retries self - S todo <? _max_retries self - 1)%nat eqn:Hlast.
    + apply Nat.ltb_lt in Hlast. unfold sleep. rewrite run_modify.
      destruct (IH ltac:(lia) (emit (Slept (_retry_delay self))
                   (emit (Printed (attempt_failed_line
                                     (_max_retries self - S todo) e)) w1)))
        as (es & w_last & Hre & Hlen & Hend).
      exists (e :: es), w_last. split_and!.
      * econstructor; [exact Ha|].
        by replace (S (_max_retries self - S todo))
          with (_max_retries self - todo)%nat by lia.
      * cbn. lia.
      * destruct (initialize_attempt env m w_last) as [[b|e'] w'];
          [done|]. destruct Hend as [Hn ->]. split; [cbn; lia|done].
    + apply Nat.ltb_ge in Hlast. assert (todo = O) as -> by lia.
      exists [], w. split; [constructor|]. split; [cbn; lia|]. rewrite Ha.
      split; [done|]. by unfold raise.
Qed.

(** An attempt made with no handle held, whose constructor raises. *)
Lemma initialize_attempt_no_camera (m : mode) (w : World) (e : exn) :
  picam2 w = None →
  oracle env (Picamera2_new (length (log w))) (log w) = Some e →
  initialize_attempt env m w
  = (Raise e, emit (Called (Picamera2_new (length (log w))) (Some e)) w).
Proof.
  intros Hp Ho. unfold initialize_attempt, Picamera2, ext. unfold_M.
  rewrite Hp. cbn. by rewrite Ho.
Qed.

(** C4. [initialize_camera] on a manager with three retries makes one, two
    or three attempts.  Every attempt but the last raised, was reported
    with its number and followed by the retry delay.  If the last attempt
    returns, the function returns [True] in the state that attempt left,
    whichever attempt it was.  If the last attempt raises, it was the
    third: its failure is reported and the initialization error raised, so
    the error is raised exactly when three attempts in a row fail.  Nothing
    else is printed, the disk is untouched, the constructor is called at
    most three times, and whenever a handle is held only right after that
    handle's [close()] returned and one second passed.  With no handle
    held and a constructor that raises every time, the constructor is
    called exactly three times before the error. *)
Theorem initialize_camera_retries (m : mode) (w : World) :
  let r := initialize_camera env CameraManager_new m w in
  ∃ (es : list exn) (w_last : World),
    retried env CameraManager_new m 0 w es w_last
    ∧ (length es < 3)%nat
    ∧ match initialize_attempt env m w_last with
      | (Ok _, w') =>
          r = (Ok (Some true), w')
          ∧ printed_lines (new_events w r.2) = failure_lines 0 es
      | (Raise e, w') =>
          length es = 2%nat
          ∧ r = (Raise (init_failed CameraManager_new),
                 emit (Printed (attempt_failed_line 2 e)) w')
          ∧ printed_lines (new_events w r.2) = failure_lines 0 (es ++ [e])
      end
    ∧ (r.1 = Raise (init_failed CameraManager_new)
       ↔ ∃ e w', initialize_attempt env m w_last = (Raise e, w'))
    ∧ (r.1 = Ok (Some true)
       ↔ ∃ b w', initialize_attempt env m w_last = (Ok b, w'))
    ∧ (constructions (new_events w r.2) ≤ 3)%nat
    ∧ reacquires_cleanly (picam2 w) None None (new_events w r.2) = true
    ∧ fs r.2 = fs w
    ∧ (picam2 w = None →
       (∀ h tr, oracle env (Picamera2_new h) tr ≠ None) →
       r.1 = Raise (init_failed CameraManager_new)
       ∧ constructions (new_events w r.2) = 3%nat).
Proof.
  cbn zeta. unfold initialize_camera.
  destruct (initialize_camera_loop_run CameraManager_new m 3 (le_n _) w)
    as (r & w' & seg & es0 & E & Hlog & Hfs & Hloc & Hpr & Hc & Hrc & Hres).
  destruct (initialize_camera_loop_attempts CameraManager_new m 3
              ltac:(cbn; lia) w)
    as (es & w_last & Hre & Hlen & Hend).
  cbn [_max_retries CameraManager_new] in *.
  change (3 - 3)%nat with 0%nat in *. change (3 - 1)%nat with 2%nat in *.
  exists es, w_last. split; [exact Hre|]. split; [exact Hlen|].
  destruct (retried_log _ _ _ _ _ _ Hre) as (segr & Hlogr & Hprr).
  destruct (initialize_attempt_run m w_last)
    as (ra & wa & sega & Ea & Hloga & _ & _ & _ & Hpra & _).
  assert (Hlast :
    match initialize_attempt env m w_last with
    | (Ok _, w') =>
        initialize_camera_loop env CameraManager_new m 3 w
        = (Ok (Some true), w')
        ∧ printed_lines
            (new_events w (initialize_camera_loop env CameraManager_new m 3 w).2)
          = failure_lines 0 es
    | (Raise e, w') =>
        length es = 2%nat
        ∧ initialize_camera_loop env CameraManager_new m 3 w
          = (Raise (init_failed CameraManager_new),
             emit (Printed (attempt_failed_line 2 e)) w')
        ∧ printed_lines
            (new_events w (initialize_camera_loop env CameraManager_new m 3 w).2)
          = failure_lines 0 (es ++ [e])
    end).
  { rewrite Ea in *. destruct ra as [b|e].
    - rewrite Hend. split; [done|]. cbn [snd].
      erewrite new_events_app
        by (rewrite Hloga, Hlogr, <- app_assoc; reflexivity).
      by rewrite printed_lines_app, Hprr, Hpra, app_nil_r.
    - destruct Hend as [Hn ->]. split; [done|]. split; [done|]. cbn [snd].
      erewrite new_events_app
        by (cbn [emit log]; rewrite Hloga, Hlogr, <- !app_assoc; reflexivity).
      rewrite !printed_lines_app, Hprr, Hpra. cbn [printed_lines omap app].
      unfold failure_lines. rewrite imap_app. cbn [imap]. by rewrite Hn. }
  split; [exact Hlast|].
  rewrite E in *. cbn [fst snd] in *. rewrite (new_events_app _ _ _ Hlog).
  rewrite Ea in Hlast |- *.
  split_and!; try done.
  - destruct ra as [b|e].
    + destruct Hlast as [[= -> _] _]. split; [done|]. by intros (? & ? & [=]).
    + split; [by eauto|]. intros _. by destruct Hlast as (_ & [= -> _] & _).
  - destruct ra as [b|e].
    + split; [by eauto|]. intros _. by destruct Hlast as [[= -> _] _].
    + destruct Hlast as (_ & [= -> _] & _). split; [done|]. by intros (? & ? & [=]).
  - intros Hp Hfail.
    assert (Hall : ∀ w0, picam2 w0 = None →
              ∃ e, initialize_attempt env m w0
                   = (Raise e, emit (Called (Picamera2_new (length (log w0)))
                                       (Some e)) w0)).
    { intros w0 Hp0.
      destruct (oracle env (Picamera2_new (length (log w0))) (log w0))
        as [e|] eqn:Ho; [|by destruct (Hfail _ _ Ho)].
      exists e. by apply initialize_attempt_no_camera. }
    revert E.
    cbn [initialize_camera_loop _max_retries _retry_delay CameraManager_new
         Nat.sub Nat.ltb Nat.leb].
    unfold try_except, print, sleep.
    destruct (Hall w Hp) as [e1 E1]. rewrite run_bind, E1. cbn beta iota.
    rewrite run_modify. cbn beta iota. rewrite run_modify. cbn beta iota.
    match goal with |- context [(initialize_attempt env m ≫= _) ?w2] =>
      destruct (Hall w2 Hp) as [e2 E2] end.
    rewrite run_bind, E2. cbn beta iota.
    rewrite run_modify. cbn beta iota. rewrite run_modify. cbn beta iota.
    match goal with |- context [(initialize_attempt env m ≫= _) ?w3] =>
      destruct (Hall w3 Hp) as [e3 E3] end.
    rewrite run_bind, E3. cbn beta iota.
    rewrite run_modify. cbn beta iota.
    unfold raise. intros [= <- <-]. split; [done|].
    cbn [emit log] in Hlog. rewrite <- !app_assoc in Hlog.
    apply app_inv_head in Hlog. by subst seg.
Qed.

End Camera.

(** C4 with no camera attached: three constructor calls, then the error. *)
Lemma initialize_camera_retries_witness :
  (initialize_camera no_camera_env CameraManager_new Video empty_world).1
  = Raise (init_failed CameraManager_new)
  ∧ constructions
      (new_events empty_world
         (initialize_camera no_camera_env CameraManager_new Video
            empty_world).2)
    = 3%nat.
Proof.
  destruct (initialize_camera_retries no_camera_env Video empty_world)
    as (es & w_last & _ & _ & _ & _ & _ & _ & _ & _ & H).
  apply H; [reflexivity|]. by intros h tr.
Defined.

(** ** Keeping the device tidy *)

Lemma never_two_live_cons live e tr :
  never_two_live live (e :: tr)
  = (length live <=? 1)%nat && never_two_live (device_step live e) tr.
Proof. reflexivity. Qed.

Lemma never_two_live_nil live :
  never_two_live live [] = (length live <=? 1)%nat.
Proof. cbn. by rewrite andb_true_r. Qed.

Lemma never_two_live_app live a b :
  never_two_live live (a ++ b)
  = never_two_live live a && never_two_live (fold_left device_step a live) b.
Proof.
  revert live. induction a as [|e a IH]; intros live.
  - cbn [app fold_left]. rewrite never_two_live_nil.
    destruct b; cbn; by destruct (length live <=? 1)%nat.
  - cbn [app fold_left]. rewrite !never_two_live_cons, IH.
    by rewrite andb_assoc.
Qed.

Lemma held_only_nil w : held_only [] w.
Proof. split; [cbn; lia|]. intros h Hh. by apply elem_of_nil in Hh. Qed.

Lemma held_only_length live w : held_only live w → (length live <=? 1)%nat = true.
Proof. intros [H _]. by apply Nat.leb_le. Qed.

(** [held_only] looks at [self.picam2] alone. *)
Lemma held_only_same live w w' :
  picam2 w' = picam2 w → held_only live w → held_only live w'.
Proof. intros E [H1 H2]. split; [done|]. intros h Hh. rewrite E. auto. Qed.

Section Tidy.
Variable env : Env.

Lemma tidy_silent {A} (m : M A) :
  (∀ w, log (m w).2 = log w ∧ picam2 (m w).2 = picam2 w) → tidy m.
Proof.
  intros H w live Hheld. destruct (H w) as [Hlog Hp]. exists [].
  rewrite app_nil_r, never_two_live_nil. split_and!; [done| |].
  - by eapply held_only_length.
  - by eapply held_only_same.
Qed.

Lemma tidy_ret {A} (a : A) : tidy (mret a).
Proof. by apply tidy_silent. Qed.

Lemma tidy_raise {A} (e : exn) : tidy (raise e : M A).
Proof. by apply tidy_silent. Qed.

Lemma tidy_get : tidy get.
Proof. by apply tidy_silent. Qed.

Lemma tidy_strftime_now : tidy (strftime_now env).
Proof. by apply tidy_silent. Qed.

Lemma tidy_path_exists path : tidy (path_exists path).
Proof. apply tidy_silent. intros w. by destruct path. Qed.

Lemma tidy_os_remove path : tidy (os_remove path).
Proof.
  apply tidy_silent. intros w. unfold os_remove.
  destruct path; [|done]. by case_bool_decide.
Qed.

Lemma tidy_set_fs (f : World → gset string) : tidy (modify (λ w, set_fs (f w) w)).
Proof. by apply tidy_silent. Qed.

Lemma tidy_assign f : tidy (assign f).
Proof. by apply tidy_silent. Qed.

(** One event that is neither a construction nor a [close()]. *)
Lemma tidy_emit (e : event) :
  (∀ live, device_step live e = live) → tidy (modify (emit e)).
Proof.
  intros He w live Hheld. exists [e]. cbn [modify snd fst emit log].
  rewrite never_two_live_cons, never_two_live_nil, He. cbn [fold_left].
  rewrite He, (held_only_length _ _ Hheld). split_and!; [done|done|].
  by eapply held_only_same.
Qed.

Lemma tidy_print line : tidy (print line).
Proof. by apply tidy_emit. Qed.

Lemma tidy_sleep n : tidy (sleep n).
Proof. by apply tidy_emit. Qed.

Lemma held_only_filter live w f :
  held_only live w → held_only (List.filter f live) w.
Proof.
  intros [H1 H2]. split.
  - destruct live as [|x [|y l]]; cbn in *; [lia| |lia].
    destruct (f x); cbn; lia.
  - intros h Hh. apply H2. apply list_elem_of_In in Hh.
    apply filter_In in Hh as [Hh _]. by apply list_elem_of_In.
Qed.

(** A collaborator call other than the constructor. *)
Lemma tidy_ext (c : call) :
  (∀ h, c ≠ Picamera2_new h) → tidy (ext env c).
Proof.
  intros Hc w live Hheld. unfold ext.
  destruct (oracle env c (log w)) as [e|]; cbn [fst snd emit log].
  - exists [Called c (Some e)].
    rewrite never_two_live_cons, never_two_live_nil. cbn [fold_left].
    assert (device_step live (Called c (Some e)) = live) as ->
      by (by destruct c).
    rewrite (held_only_length _ _ Hheld). split_and!; [done|done|].
    by eapply held_only_same.
  - exists [Called c None].
    rewrite never_two_live_cons, never_two_live_nil. cbn [fold_left].
    assert (held_only (device_step live (Called c None)) w) as Hstep.
    { destruct c; try done; [by destruct (Hc h)|].
      cbn [device_step]. by apply held_only_filter. }
    rewrite (held_only_length _ _ Hheld), (held_only_length _ _ Hstep).
    split_and!; [done|done|]. by eapply held_only_same.
Qed.

Lemma tidy_bind {A B} (m : M A) (f : A → M B) :
  tidy m → (∀ a, tidy (f a)) → tidy (m ≫= f).
Proof.
  intros Hm Hf w live Hheld. destruct (Hm w live Hheld) as (seg1 & E1 & N1 & H1).
  rewrite run_bind. destruct (m w) as [[a|e] w1]; cbn [fst snd] in *.
  - destruct (Hf a w1 _ H1) as (seg2 & E2 & N2 & H2).
    exists (seg1 ++ seg2). rewrite E2, E1, never_two_live_app, N1, N2, fold_left_app.
    by rewrite app_assoc.
  - by exists seg1.
Qed.

Lemma tidy_try_except {A} (m : M A) (h : exn → M A) :
  tidy m → (∀ e, tidy (h e)) → tidy (try_except m h).
Proof.
  intros Hm Hh w live Hheld. destruct (Hm w live Hheld) as (seg1 & E1 & N1 & H1).
  unfold try_except. destruct (m w) as [[a|e] w1]; cbn [fst snd] in *.
  - by exists seg1.
  - destruct (Hh e w1 _ H1) as (seg2 & E2 & N2 & H2).
    exists (seg1 ++ seg2). rewrite E2, E1, never_two_live_app, N1, N2, fold_left_app.
    by rewrite app_assoc.
Qed.

Lemma tidy_try_finally {A} (m : M A) (fin : M unit) :
  tidy m → tidy fin → tidy (try_finally m fin).
Proof.
  intros Hm Hf w live Hheld. destruct (Hm w live Hheld) as (seg1 & E1 & N1 & H1).
  unfold try_finally. destruct (m w) as [r w1]; cbn [fst snd] in *.
  destruct (Hf w1 _ H1) as (seg2 & E2 & N2 & H2).
  exists (seg1 ++ seg2). rewrite never_two_live_app, N1, N2, fold_left_app.
  destruct (fin w1) as [[[]|e] w2]; cbn [fst snd] in *;
    by rewrite E2, E1, app_assoc.
Qed.

Hypothesis Hteardown : teardown_never_fails env.

Ltac step_oracle :=
  once (match goal with
        | |- context [oracle env ?c ?tr] => destruct (oracle env c tr) eqn:?; cbn
        end).

Ltac device_compute :=
  repeat (rewrite ?never_two_live_cons, ?never_two_live_nil;
          cbn [device_step fold_left List.filter negb length Nat.leb andb];
          rewrite ?Nat.eqb_refl).

(** The live handles under [held_only]: none, or the held one. *)
Lemma held_only_cases live w :
  held_only live w →
  live = [] ∨ ∃ h, live = [h] ∧ picam2 w = Some h.
Proof.
  intros [Hlen Hh]. destruct live as [|h [|h' l]]; [by left| |cbn in Hlen; lia].
  right. exists h. split; [done|]. apply Hh. apply list_elem_of_here.
Qed.

Lemma tidy_initialize_attempt (m : mode) : tidy (initialize_attempt env m).
Proof.
  intros w live Hheld.
  unfold initialize_attempt, Picamera2, ext. unfold_M. unfold_world.
  destruct (held_only_cases _ _ Hheld) as [->|(h0 & -> & Hp)].
  - destruct (picam2 w) as [h0|] eqn:Hp; cbn;
      rewrite ?(proj2 (Hteardown _ _)); cbn; destruct m;
      repeat step_oracle;
      once (rewrite <- ?app_assoc; cbn [app fst snd log picam2];
            eexists; split; [reflexivity|]; device_compute;
            split; [done|]; split; [cbn; lia|];
            intros h Hh; cbn [picam2];
            first [by apply elem_of_nil in Hh
                  | by apply list_elem_of_singleton in Hh as ->]).
  - rewrite Hp; cbn; rewrite ?(proj2 (Hteardown _ _)); cbn; destruct m;
      repeat step_oracle;
      once (rewrite <- ?app_assoc; cbn [app fst snd log picam2];
            eexists; split; [reflexivity|]; device_compute;
            split; [done|]; split; [cbn; lia|];
            intros h Hh; cbn [picam2];
            first [by apply elem_of_nil in Hh
                  | by apply list_elem_of_singleton in Hh as ->]).
Qed.

Lemma tidy_initialize_camera_loop self m todo :
  tidy (initialize_camera_loop env self m todo).
Proof.
  induction todo as [|todo IH]; [apply tidy_ret|].
  cbn [initialize_camera_loop]. apply tidy_try_except.
  - apply tidy_bind; [apply tidy_initialize_attempt|intros; apply tidy_ret].
  - intros e. apply tidy_bind; [apply tidy_print|intros _].
    destruct (_ <? _)%nat; [|apply tidy_raise].
    apply tidy_bind; [apply tidy_sleep|by intros _].
Qed.

Lemma tidy_cleanup : tidy (cleanup env).
Proof.
  intros w live Hheld. unfold cleanup, ext. unfold_M. unfold_world.
  destruct (held_only_cases _ _ Hheld) as [->|(h0 & -> & Hp)].
  - destruct (picam2 w) as [h0|] eqn:Hp; cbn;
      rewrite ?(proj1 (Hteardown _ _)), ?(proj2 (Hteardown _ _)); cbn;
      rewrite <- ?app_assoc; cbn [app];
      eexists; (split; [try reflexivity; symmetry; apply app_nil_r|]);
      device_compute; split; try done; apply held_only_nil.
  - rewrite Hp; cbn.
    rewrite ?(proj1 (Hteardown _ _)), ?(proj2 (Hteardown _ _)); cbn.
    rewrite <- ?app_assoc; cbn [app].
    eexists; split; [reflexivity|]. device_compute.
    split; [done|apply held_only_nil].
Qed.

Lemma tidy_the_camera : tidy the_camera.
Proof.
  apply tidy_silent. intros w. unfold the_camera. unfold_M.
  by destruct (picam2 w) eqn:E.
Qed.

Lemma tidy_ext_writing c path :
  (∀ h, c ≠ Picamera2_new h) → tidy (ext_writing env c path).
Proof.
  intros Hc. apply tidy_bind; [by apply tidy_ext|intros _].
  apply (tidy_set_fs (λ w, fs w ∪ {[path]})).
Qed.

Ltac tidy_step :=
  first [ apply tidy_initialize_camera_loop | apply tidy_print
        | apply tidy_sleep | by apply tidy_ext | apply tidy_ret
        | apply tidy_raise | apply tidy_get | apply tidy_strftime_now
        | apply tidy_assign | apply tidy_path_exists | apply tidy_os_remove
        | refine (tidy_set_fs _)
        | match goal with
          | |- tidy (match ?x with _ => _ end) => destruct x; tidy_step
          end ].

Lemma tidy_capture_h264_video self duration :
  tidy (capture_h264_video env self duration).
Proof.
  unfold capture_h264_video, initialize_camera.
  apply tidy_bind; [apply tidy_strftime_now|intros timestamp].
  apply tidy_try_finally; [|apply tidy_cleanup].
  apply tidy_try_except.
  - repeat (apply tidy_bind; [|intros ?]);
      tidy_step.
  - intros e. apply tidy_bind; [apply tidy_print|intros _; apply tidy_raise].
Qed.

Lemma tidy_capture_image self : tidy (capture_image env self).
Proof.
  unfold capture_image, initialize_camera.
  apply tidy_try_finally; [|apply tidy_cleanup].
  apply tidy_try_except.
  - repeat (apply tidy_bind; [|intros ?]);
      tidy_step.
  - intros e. apply tidy_bind; [apply tidy_print|intros _; apply tidy_raise].
Qed.

Lemma picam2_after_cleanup {A} (body : M A) (w : World) :
  picam2 (try_finally body (cleanup env) w).2 = None.
Proof.
  unfold try_finally. destruct (body w) as [r w1].
  by destruct (cleanup_run env w1) as [tr ->].
Qed.

Lemma never_two_live_extend (w w' : World) (seg : trace) :
  log w' = log w ++ seg →
  never_two_live [] (log w) = true →
  never_two_live (live_handles (log w)) seg = true →
  held_only (fold_left device_step seg (live_handles (log w))) w' →
  picam2 w' = None →
  never_two_live [] (log w') = true ∧ live_handles (log w') = [].
Proof.
  intros -> H1 H2 Hheld Hnone. split.
  - by rewrite never_two_live_app, H1.
  - unfold live_handles in *. rewrite fold_left_app.
    destruct (held_only_cases _ _ Hheld) as [->|(h & _ & Hp)]; [done|].
    congruence.
Qed.

End Tidy.

Section Release.
Variable env : Env.

(** The part of C3 that holds.  Whether they return or raise,
    [capture_h264_video] and [capture_image] leave [self.picam2] at [None].
    [cleanup] never raises and leaves [self.picam2] at [None]; on a held
    handle it calls [stop()], then [close()] if [stop()] returned, and prints
    the error if one of them raised; with no handle it does nothing, so a
    second call is a no-op.  When no [stop()] and no [close()] raises, at
    most one handle is live after every event of the three operations and
    none is live when they end. *)
Theorem capture_releases_the_handle (self : CameraManager) (duration : json)
    (w : World) :
  picam2 (capture_h264_video env self duration w).2 = None
  ∧ picam2 (capture_image env self w).2 = None
  ∧ (cleanup env w).1 = Ok tt
  ∧ picam2 (cleanup env w).2 = None
  ∧ (∀ h, picam2 w = Some h →
          teardown_of h (new_events w (cleanup env w).2))
  ∧ (picam2 w = None → cleanup env w = (Ok tt, w))
  ∧ cleanup env (cleanup env w).2 = (Ok tt, (cleanup env w).2)
  ∧ (teardown_never_fails env →
     held_only (live_handles (log w)) w →
     never_two_live [] (log w) = true →
     ∀ w', w' = (capture_h264_video env self duration w).2
           ∨ w' = (capture_image env self w).2
           ∨ w' = (cleanup env w).2 →
       never_two_live [] (log w') = true ∧ live_handles (log w') = []).
Proof.
  split_and!.
  - unfold capture_h264_video. rewrite run_bind. cbn [strftime_now].
    apply picam2_after_cleanup.
  - apply picam2_after_cleanup.
  - by destruct (cleanup_run env w) as [tr ->].
  - by destruct (cleanup_run env w) as [tr ->].
  - intros h Hp. unfold cleanup, ext, teardown_of. unfold_M. rewrite Hp.
    destruct (oracle env (stop h) (log w)) as [e|]; cbn.
    { unfold_world. rewrite <- !app_assoc.
      erewrite new_events_app by reflexivity. right; right. by exists e. }
    unfold_world.
    destruct (oracle env (close h) _) as [e|]; cbn;
      rewrite <- !app_assoc; (erewrite new_events_app by reflexivity).
    + right; left. by exists e.
    + by left.
  - apply cleanup_no_handle.
  - apply cleanup_no_handle. by destruct (cleanup_run env w) as [tr ->].
  - intros Hteardown Hheld Hsafe w' Hw'.
    assert (∃ seg, log w' = log w ++ seg
                   ∧ never_two_live (live_handles (log w)) seg = true
                   ∧ held_only (fold_left device_step seg (live_handles (log w))) w'
                   ∧ picam2 w' = None) as (seg & Hlog & Hseg & Hheld' & Hnone).
    { destruct Hw' as [-> | [-> | ->]].
      - destruct (tidy_capture_h264_video env Hteardown self duration w _ Hheld)
          as (seg & ? & ? & ?).
        exists seg. split_and!; try done.
        unfold capture_h264_video. rewrite run_bind. cbn [strftime_now].
        apply picam2_after_cleanup.
      - destruct (tidy_capture_image env Hteardown self w _ Hheld)
          as (seg & ? & ? & ?).
        exists seg. split_and!; try done. apply picam2_after_cleanup.
      - destruct (tidy_cleanup env Hteardown w _ Hheld) as (seg & ? & ? & ?).
        exists seg. split_and!; try done.
        by destruct (cleanup_run env w) as [tr ->]. }
    by eapply never_two_live_extend.
Qed.

End Release.

(** The same on a quiet camera, from the start of the program. *)
Lemma capture_releases_the_handle_witness :
  teardown_never_fails quiet_env
  ∧ held_only (live_handles (log empty_world)) empty_world
  ∧ never_two_live [] (log empty_world) = true
  ∧ never_two_live []
      (log (capture_h264_video quiet_env CameraManager_new (JNum 5) empty_world).2)
    = true
  ∧ live_handles
      (log (capture_h264_video quiet_env CameraManager_new (JNum 5) empty_world).2)
    = [].
Proof.
  assert (H1 : teardown_never_fails quiet_env) by (by intros h tr).
  assert (H2 : held_only (live_handles (log empty_world)) empty_world)
    by apply held_only_nil.
  assert (H3 : never_two_live [] (log empty_world) = true) by reflexivity.
  split_and!; [exact H1|exact H2|exact H3|..];
    destruct (capture_releases_the_handle quiet_env CameraManager_new (JNum 5)
                empty_world) as (_ & _ & _ & _ & _ & _ & _ & H);
    apply (H H1 H2 H3); by left.
Defined.

(** C3, what fails.  [cleanup] has [stop()] and [close()] in one [try]
    block: when [stop()] raises, [close()] is skipped and the field is set
    to [None] all the same.  The handle is dropped, not released: it is
    still open when [capture_h264_video] is left, and the next capture
    opens a second one beside it. *)
Lemma stop_failure_leaves_the_handle_open :
  picam2 (capture_h264_video stop_fails_env CameraManager_new (JNum 5) empty_world).2
  = None
  ∧ live_handles
      (log (capture_h264_video stop_fails_env CameraManager_new (JNum 5)
              empty_world).2)
    = [0%nat]
  ∧ never_two_live []
      (log (capture_image stop_fails_env CameraManager_new
              (capture_h264_video stop_fails_env CameraManager_new (JNum 5)
                 empty_world).2).2)
    = false.
Proof. by vm_compute. Qed.

(** ** A cycle in which no collaborator raises *)

Lemma uneventful_app a b : uneventful a → uneventful b → uneventful (a ++ b).
Proof.
  unfold uneventful, notifications, buzzer_calls.
  intros [H1 H2] [H3 H4]. by rewrite !omap_app, H1, H2, H3, H4.
Qed.

Lemma buzzed_for_app_r d a b : buzzed_for d b = true → buzzed_for d (a ++ b) = true.
Proof.
  intros H. induction a as [|e a IH]; [done|].
  cbn [app buzzed_for]. rewrite IH.
  destruct e as [[] []| |]; try done.
  destruct (a ++ b) as [|[] [|[[] []| |] ?]]; try done.
  by rewrite orb_true_r.
Qed.

Lemma notifications_app a b :
  notifications (a ++ b) = notifications a ++ notifications b.
Proof. apply omap_app. Qed.

Lemma buzzer_calls_app a b :
  buzzer_calls (a ++ b) = buzzer_calls a ++ buzzer_calls b.
Proof. apply omap_app. Qed.

Lemma buzzed_for_app_l d a b : buzzed_for d a = true → buzzed_for d (a ++ b) = true.
Proof.
  intros H. induction a as [|e a IH]; [done|].
  cbn [app buzzed_for] in *.
  destruct e as [[] []| |]; try (by auto).
  destruct a as [|[] [|[[] []| |] ?]]; try (by auto).
  cbn [app] in *. apply orb_true_iff in H as [->|H]; [done|].
  rewrite IH by done. apply orb_true_r.
Qed.

Lemma buzzed_for_cons_r d e tr : buzzed_for d tr = true → buzzed_for d (e :: tr) = true.
Proof. apply (buzzed_for_app_r d [e]). Qed.

Section Calm.
Variable env : Env.

Lemma calm_ret : calm (mret tt).
Proof. intros w. exists [], w. by rewrite app_nil_r. Qed.

Lemma calm_seq (m1 m2 : M unit) : calm m1 → calm m2 → calm (m1 ;; m2).
Proof.
  intros H1 H2 w. destruct (H1 w) as (seg1 & w1 & E1 & L1 & K1 & U1).
  destruct (H2 w1) as (seg2 & w2 & E2 & L2 & K2 & U2).
  exists (seg1 ++ seg2), w2. rewrite run_bind, E1. split_and!; [done|..].
  - by rewrite L2, L1, app_assoc.
  - congruence.
  - by apply uneventful_app.
Qed.

Lemma calm_try_except (m : M unit) (h : exn → M unit) :
  calm m → calm (try_except m h).
Proof.
  intros H w. destruct (H w) as (seg & w' & E & ?). exists seg, w'.
  unfold try_except. by rewrite E.
Qed.

(** [if os.path.exists(path): os.remove(path); print(...)] under its
    [except Exception] clause. *)
Lemma calm_remove (path : option string) (removed : string) (failed : exn → string) :
  calm (try_except
          (present ← path_exists path;
           if present : bool then os_remove path ;; print removed else mret tt)
          (λ e, print (failed e))).
Proof.
  intros w. unfold path_exists, os_remove. unfold_M.
  destruct path as [p|]; cbn.
  - case_bool_decide; cbn.
    + rewrite bool_decide_true by done. cbn. by do 2 eexists.
    + exists [], w. by rewrite app_nil_r.
  - by do 2 eexists.
Qed.

Lemma calm_remove_video_files (paths : list (option string)) :
  calm (remove_video_files paths).
Proof.
  induction paths as [|p paths IH]; [apply calm_ret|].
  cbn [remove_video_files]. apply calm_seq; [apply calm_remove|done].
Qed.

Lemma calm_cleanup_files video_paths image_path :
  calm (cleanup_files video_paths image_path).
Proof.
  unfold cleanup_files. apply calm_seq.
  - destruct video_paths as [[|p paths]|]; try apply calm_ret.
    apply calm_remove_video_files.
  - destruct (truthy image_path); [apply calm_remove|apply calm_ret].
Qed.

Lemma calm_remove_annotated_image (path : option string) :
  calm (remove_annotated_image path).
Proof.
  unfold remove_annotated_image.
  destruct (truthy path); [apply calm_remove|].
  intros w. exists [], w. by rewrite app_nil_r.
Qed.

Lemma calm_cleanup : calm (cleanup env).
Proof.
  intros w. destruct (cleanup_run env w) as [tr E].
  unfold cleanup, ext in *. unfold_M.
  destruct (picam2 w) as [h|]; [|exists [], w; by rewrite app_nil_r].
  destruct (oracle env (stop h) (log w)); cbn in *;
    [unfold_world; rewrite <- ?app_assoc; by do 2 eexists|].
  destruct (oracle env (close h) _); cbn in *;
    unfold_world; rewrite <- ?app_assoc; by do 2 eexists.
Qed.

Lemma calm_cycle_finally : calm (cycle_finally env).
Proof.
  intros w. unfold cycle_finally. rewrite run_bind. cbn [get]. cbn beta iota zeta.
  refine (calm_seq _ _ _ _ w); [apply calm_cleanup_files|].
  apply calm_seq; [|apply calm_cleanup].
  destruct (truthy _); [|apply calm_ret].
  apply calm_try_except, calm_remove_annotated_image.
Qed.

End Calm.

Section Quiet.
Variable env : Env.
Hypothesis Hquiet : ∀ c tr, oracle env c tr = None.

Lemma ext_quiet (c : call) (w : World) :
  ext env c w = (Ok tt, emit (Called c None) w).
Proof. unfold ext. by rewrite Hquiet. Qed.

Lemma run_get {B} (f : World → M B) (w : World) : (get ≫= f) w = f w w.
Proof. reflexivity. Qed.

Lemma run_ext {B} (c : call) (f : unit → M B) (w : World) :
  (ext env c ≫= f) w = f tt (emit (Called c None) w).
Proof. by rewrite run_bind, ext_quiet. Qed.

Lemma run_ret {A B} (a : A) (f : A → M B) (w : World) :
  (mret a ≫= f) w = f a w.
Proof. reflexivity. Qed.

Lemma run_assoc {A B C} (m : M A) (f : A → M B) (g : B → M C) (w : World) :
  ((m ≫= f) ≫= g) w = (m ≫= (λ a, f a ≫= g)) w.
Proof.
  rewrite !run_bind. destruct (m w) as [[a|e] w1]; [|done]. by rewrite run_bind.
Qed.

(** Run the next steps of a computation on a world given field by field. *)
Ltac exec :=
  repeat (first [rewrite run_assoc | rewrite run_ext | rewrite run_modify
                | rewrite run_get | rewrite run_ret | rewrite ext_quiet ];
          unfold emit, set_picam2, set_fs, set_locals;
          cbn [picam2 fs locals log]).

Ltac open_world w :=
  destruct w as [p f l lg]; cbn [picam2 fs locals log].

Lemma initialize_attempt_quiet (m : mode) (w : World) :
  ∃ h seg,
    initialize_attempt env m w
    = (Ok true, {| picam2 := Some h; fs := fs w; locals := locals w;
                   log := log w ++ seg |})
    ∧ uneventful seg.
Proof.
  open_world w.
  unfold initialize_attempt, Picamera2, sleep. rewrite run_get.
  cbn [picam2 fs locals log].
  destruct p as [h0|], m; exec;
    cbn [mret M_ret]; rewrite <- ?app_assoc; cbn [app];
    do 2 eexists; (split; [reflexivity|done]).
Qed.

Lemma initialize_camera_quiet (m : mode) (w : World) :
  ∃ h seg,
    initialize_camera env CameraManager_new m w
    = (Ok (Some true), {| picam2 := Some h; fs := fs w; locals := locals w;
                          log := log w ++ seg |})
    ∧ uneventful seg.
Proof.
  destruct (initialize_attempt_quiet m w) as (h & seg & E & Hseg).
  exists h, seg. split; [|done].
  unfold initialize_camera. cbn [_max_retries CameraManager_new initialize_camera_loop].
  unfold try_except. by rewrite run_bind, E.
Qed.

Lemma cleanup_quiet (h : handle) (w : World) :
  picam2 w = Some h →
  cleanup env w
  = (Ok tt, {| picam2 := None; fs := fs w; locals := locals w;
               log := log w ++ [Called (stop h) None; Called (close h) None] |}).
Proof.
  open_world w. intros ->. unfold cleanup. rewrite run_get.
  cbn [picam2]. unfold try_finally, try_except. exec.
  cbn [modify]. unfold set_picam2. cbn [picam2 fs locals log].
  by rewrite <- app_assoc.
Qed.

Lemma capture_h264_video_quiet (duration : json) (w : World) :
  ∃ h264 seg,
    capture_h264_video env CameraManager_new duration w
    = (Ok h264, {| picam2 := None; fs := fs w ∪ {[h264]}; locals := locals w;
                   log := log w ++ seg |})
    ∧ uneventful seg.
Proof.
  unfold capture_h264_video, strftime_now. rewrite run_bind. cbn beta iota.
  unfold try_finally, try_except.
  destruct (initialize_camera_quiet Video w) as (h & seg & E & Hseg).
  rewrite run_bind, E. cbn beta iota. open_world w.
  unfold the_camera, ext_writing, print, sleep. exec. cbn [mret M_ret].
  erewrite cleanup_quiet by reflexivity. cbn [picam2 fs locals log].
  rewrite <- !app_assoc. cbn [app].
  do 2 eexists. split; [reflexivity|].
  apply uneventful_app; [done|]. done.
Qed.

Lemma capture_image_quiet (w : World) :
  ∃ img timestamp path seg,
    capture_image env CameraManager_new w
    = (Ok (img, timestamp, path),
       {| picam2 := None; fs := fs w ∪ {[path]}; locals := locals w;
          log := log w ++ seg |})
    ∧ uneventful seg.
Proof.
  unfold capture_image, strftime_now.
  unfold try_finally, try_except.
  destruct (initialize_camera_quiet Preview w) as (h & seg & E & Hseg).
  rewrite run_bind, E. cbn beta iota. open_world w.
  unfold the_camera, ext_writing, print, sleep. exec.
  rewrite run_bind. cbn beta iota. exec. cbn [mret M_ret].
  erewrite cleanup_quiet by reflexivity. cbn [picam2 fs locals log].
  rewrite <- !app_assoc. cbn [app].
  do 4 eexists. split; [reflexivity|].
  apply uneventful_app; [done|]. done.
Qed.

Lemma detect_objects_quiet (self : ObjectDetector) (img : image)
    (timestamp : string) (w : World) :
  Forall has_category (seen env self img) →
  ∃ seg,
    detect_objects env self img timestamp w
    = (Ok (infer env self (CvtColor img),
           match seen env self img with
           | [] => None
           | _ => Some (annotated_path env self img timestamp)
           end),
       {| picam2 := picam2 w;
          fs := match seen env self img with
                | [] => fs w
                | _ => fs w ∪ {[annotated_path env self img timestamp]}
                end;
          locals := locals w; log := log w ++ seg |})
    ∧ uneventful seg.
Proof.
  intros Hcat. open_world w.
  unfold detect_objects, draw_detections, ext_writing, print. exec.
  rewrite run_bind, draw_detections_loop_run by done. cbn beta iota.
  unfold annotated_path. fold (seen env self img).
  destruct (seen env self img) as [|d ds] eqn:Hseen;
    cbn [length Nat.ltb Nat.leb]; exec; cbn [mret M_ret];
    rewrite <- !app_assoc; cbn [app]; eexists; (split; [reflexivity|done]).
Qed.

Lemma buzz_buzzer_quiet (duration : nat) (w : World) :
  buzz_buzzer env duration w
  = (Ok tt, {| picam2 := picam2 w; fs := fs w; locals := locals w;
               log := log w ++ [Printed "Access Denied - Activating Buzzer";
                                Called (buzzer_set_value (1 # 2)) None;
                                Slept duration; Called buzzer_off None] |}).
Proof.
  open_world w. unfold buzz_buzzer, print, sleep. exec.
  by rewrite <- !app_assoc.
Qed.

Lemma store_converted_video_quiet (h264 : string) (w : World) :
  ∃ mp4 seg,
    store_converted_video env CameraManager_new h264 w
    = (Ok mp4, {| picam2 := picam2 w; fs := fs w ∪ {[mp4]};
                  locals := locals w; log := log w ++ seg |})
    ∧ uneventful seg.
Proof.
  open_world w.
  unfold store_converted_video, convert_h264_to_mp4, ext_writing, try_except, print.
  exec. cbn [mret M_ret]. rewrite <- !app_assoc. cbn [app].
  do 2 eexists. split; [reflexivity|done].
Qed.

Lemma send_message_quiet (text : string) (w : World) :
  send_message env text w = (Ok tt, emit (Called (post_sendMessage text) None) w).
Proof. apply ext_quiet. Qed.

Lemma open_file_quiet (path : string) (w : World) :
  path ∈ fs w →
  open_file env path w = (Ok tt, emit (Called (builtin_open path) None) w).
Proof.
  intros H. unfold open_file, path_exists. unfold_M.
  rewrite bool_decide_true by done. apply ext_quiet.
Qed.

Lemma send_video_quiet (path : string) (caption : option string) (w : World) :
  path ∈ fs w →
  send_video env path caption w
  = (Ok tt, emit (Called (post_sendVideo path caption) None)
              (emit (Called (builtin_open path) None) w)).
Proof.
  intros H. unfold send_video. rewrite run_bind, open_file_quiet by done.
  apply ext_quiet.
Qed.

Lemma send_photo_quiet (path : string) (caption : option string) (w : World) :
  path ∈ fs w →
  send_photo env path caption w
  = (Ok tt, emit (Called (post_sendPhoto path caption) None)
              (emit (Called (builtin_open path) None) w)).
Proof.
  intros H. unfold send_photo. rewrite run_bind, open_file_quiet by done.
  apply ext_quiet.
Qed.

Lemma cycle_try_quiet (model : string) (duration : nat) (w : World) :
  (∀ img, Forall has_category (seen env (ObjectDetector_new model) img)) →
  ∃ img timestamp mp4 seg w',
    cycle_try env (SecuritySystem_new model duration) w = (Ok tt, w')
    ∧ log w' = log w ++ seg
    ∧ annotated_image_path (locals w')
      = match seen env (ObjectDetector_new model) img with
        | [] => None
        | _ => Some (annotated_path env (ObjectDetector_new model) img timestamp)
        end
    ∧ notifications seg
      = post_sendMessage
          (summary_of env (ObjectDetector_new model)
             (seen env (ObjectDetector_new model) img))
        :: post_sendVideo mp4 (Some video_caption)
        :: match annotated_image_path (locals w') with
           | Some photo => [post_sendPhoto photo (Some photo_caption)]
           | None => []
           end
    ∧ buzzer_calls seg
      = (if existsb (meets_threshold (ObjectDetector_new model))
              (seen env (ObjectDetector_new model) img)
         then [] else [buzzer_set_value (1 # 2); buzzer_off])
    ∧ (existsb (meets_threshold (ObjectDetector_new model))
         (seen env (ObjectDetector_new model) img) = false →
       buzzed_for buzz_default_duration seg = true).
Proof.
  intros Hcat. set (det := ObjectDetector_new model) in *.
  unfold cycle_try, assign, print.
  cbn [camera_manager detector VIDEO_DURATION SecuritySystem_new]. fold det.
  destruct (capture_h264_video_quiet (JNum (inject_Z (Z.of_nat duration))) w)
    as (h264 & seg1 & E1 & [N1 B1]).
  rewrite run_bind, E1. cbn beta iota. exec.
  rewrite run_bind.
  match goal with |- context [capture_image env CameraManager_new ?w1] =>
    destruct (capture_image_quiet w1) as (img & ts & ipath & seg2 & E2 & [N2 B2])
  end.
  rewrite E2. cbn beta iota. cbn [picam2 fs locals log]. exec.
  rewrite run_bind.
  match goal with |- context [detect_objects env det img ts ?w1] =>
    destruct (detect_objects_quiet det img ts w1 (Hcat img))
      as (seg3 & E3 & [N3 B3])
  end.
  rewrite E3. cbn beta iota. cbn [picam2 fs locals log]. exec.
  rewrite run_bind.
  match goal with |- context [check_access env det ?r ?w1] =>
    destruct (check_access_run env det r (Hcat img) w1) as (line & E4)
  end.
  rewrite E4. cbn beta iota. unfold emit. cbn [picam2 fs locals log].
  fold (seen env det img).
  assert (Hsum : ∀ w1, format_detection_message env det
                         (infer env det (CvtColor img)) w1
                       = (Ok (summary_of env det (seen env det img)), w1)).
  { intros w1. by rewrite format_detection_message_run by apply Hcat. }
  exists img, ts.
  destruct (existsb (meets_threshold det) (seen env det img)) eqn:Hgranted.
  - (* access granted: some detection, no buzzer *)
    unfold handle_access_granted, print. exec.
    rewrite run_bind.
    match goal with |- context [store_converted_video env _ h264 ?w1] =>
      destruct (store_converted_video_quiet h264 w1) as (mp4 & seg5 & E5 & [N5 B5])
    end.
    rewrite E5. cbn beta iota. cbn [picam2 fs locals log]. exec.
    rewrite run_bind, Hsum. cbn beta iota.
    rewrite run_bind, send_message_quiet. cbn beta iota.
    unfold emit. cbn [picam2 fs locals log].
    rewrite run_bind, send_video_quiet by (cbn [fs]; set_solver). cbn beta iota.
    unfold emit. cbn [picam2 fs locals log].
    destruct (seen env det img) as [|d ds] eqn:Hseen; [done|].
    assert (truthy (Some (annotated_path env det img ts)) = true) as ->
      by reflexivity.
    rewrite send_photo_quiet by (cbn [fs]; set_solver).
    unfold emit. cbn [picam2 fs locals log]. rewrite <- !app_assoc. cbn [app].
    exists mp4. do 2 eexists. split; [reflexivity|]. cbn [log locals annotated_image_path].
    split; [reflexivity|]. split; [reflexivity|].
    unfold notifications, buzzer_calls in *;
    repeat (rewrite ?omap_app, ?N1, ?N2, ?N3, ?N5, ?B1, ?B2, ?B3, ?B5;
            cbn [omap list_omap app]).
    done.
  - (* access denied: the buzzer sounds *)
    rewrite run_bind, buzz_buzzer_quiet. cbn beta iota. cbn [picam2 fs locals log].
    rewrite run_bind.
    match goal with |- context [store_converted_video env _ h264 ?w1] =>
      destruct (store_converted_video_quiet h264 w1) as (mp4 & seg5 & E5 & [N5 B5])
    end.
    rewrite E5. cbn beta iota. cbn [picam2 fs locals log]. exec.
    rewrite run_bind, Hsum. cbn beta iota.
    rewrite run_bind, send_message_quiet. cbn beta iota.
    unfold emit. cbn [picam2 fs locals log].
    rewrite run_bind, send_video_quiet by (cbn [fs]; set_solver). cbn beta iota.
    unfold emit. cbn [picam2 fs locals log].
    destruct (seen env det img) as [|d ds] eqn:Hseen.
    + cbn [mret M_ret]. rewrite <- !app_assoc. cbn [app].
      exists mp4. do 2 eexists. split; [reflexivity|].
      cbn [log locals annotated_image_path].
      split; [reflexivity|]. split; [reflexivity|].
      unfold notifications, buzzer_calls in *;
    repeat (rewrite ?omap_app, ?N1, ?N2, ?N3, ?N5, ?B1, ?B2, ?B3, ?B5;
            cbn [omap list_omap app]).
      split_and!; [done|done|]. intros _.
      repeat first [reflexivity | apply buzzed_for_app_r | apply buzzed_for_cons_r].
    + assert (truthy (Some (annotated_path env det img ts)) = true) as ->
        by reflexivity.
      rewrite send_photo_quiet by (cbn [fs]; set_solver).
      unfold emit. cbn [picam2 fs locals log]. rewrite <- !app_assoc. cbn [app].
      exists mp4. do 2 eexists. split; [reflexivity|].
      cbn [log locals annotated_image_path].
      split; [reflexivity|]. split; [reflexivity|].
      unfold notifications, buzzer_calls in *;
    repeat (rewrite ?omap_app, ?N1, ?N2, ?N3, ?N5, ?B1, ?B2, ?B3, ?B5;
            cbn [omap list_omap app]).
      split_and!; [done|done|]. intros _.
      repeat first [reflexivity | apply buzzed_for_app_r | apply buzzed_for_cons_r].
Qed.

Lemma cycle_quiet (model : string) (duration : nat) (w : World) :
  (∀ img, Forall has_category (seen env (ObjectDetector_new model) img)) →
  ∃ img timestamp mp4,
    (cycle env (SecuritySystem_new model duration) w).1 = Ok tt
    ∧ annotated_image_path
        (locals (cycle env (SecuritySystem_new model duration) w).2)
      = match seen env (ObjectDetector_new model) img with
        | [] => None
        | _ => Some (annotated_path env (ObjectDetector_new model) img timestamp)
        end
    ∧ notifications
        (new_events w (cycle env (SecuritySystem_new model duration) w).2)
      = post_sendMessage
          (summary_of env (ObjectDetector_new model)
             (seen env (ObjectDetector_new model) img))
        :: post_sendVideo mp4 (Some video_caption)
        :: match annotated_image_path
                   (locals (cycle env (SecuritySystem_new model duration) w).2)
           with
           | Some photo => [post_sendPhoto photo (Some photo_caption)]
           | None => []
           end
    ∧ buzzer_calls
        (new_events w (cycle env (SecuritySystem_new model duration) w).2)
      = (if existsb (meets_threshold (ObjectDetector_new model))
              (seen env (ObjectDetector_new model) img)
         then [] else [buzzer_set_value (1 # 2); buzzer_off])
    ∧ (existsb (meets_threshold (ObjectDetector_new model))
         (seen env (ObjectDetector_new model) img) = false →
       buzzed_for buzz_default_duration
         (new_events w (cycle env (SecuritySystem_new model duration) w).2)
       = true).
Proof.
  intros Hcat. unfold cycle, print, sleep. exec.
  rewrite run_bind. unfold try_finally, try_except.
  match goal with |- context [cycle_try env ?sys ?w1] =>
    destruct (cycle_try_quiet model duration w1 Hcat)
      as (img & ts & mp4 & seg & w' & E & Hlog & Hann & Hnote & Hbuzz & Hfor)
  end.
  rewrite E.
  destruct (calm_cycle_finally env w') as (segf & w'' & Ef & Hlogf & Hloc & [Nf Bf]).
  rewrite Ef. cbn beta iota. cbn [modify fst snd]. unfold emit.
  cbn [picam2 fs locals log] in *.
  exists img, ts, mp4.
  erewrite new_events_app; cycle 1.
  { rewrite Hlogf, Hlog, <- !app_assoc. reflexivity. }
  rewrite Hloc. split_and!; [done|done|..].
  - cbn [app]. unfold notifications in *.
    repeat (rewrite ?omap_app, ?Nf; cbn [omap list_omap app]).
    by rewrite Hnote, app_nil_r.
  - cbn [app]. unfold buzzer_calls in *.
    repeat (rewrite ?omap_app, ?Bf; cbn [omap list_omap app]).
    by rewrite Hbuzz, app_nil_r.
  - intros Hd. specialize (Hfor Hd). cbn [app].
    do 3 apply buzzed_for_cons_r. by apply buzzed_for_app_l.
Qed.

End Quiet.


(** ** Photos are sent of the annotated image only *)

Lemma photos_app a b : photos (a ++ b) = photos a ++ photos b.
Proof. apply omap_app. Qed.

Section Steady.
Variable env : Env.

Lemma steady_silent {A} (m : M A) :
  (∀ w, log (m w).2 = log w ∧ locals (m w).2 = locals w) → steady m.
Proof.
  intros H w. destruct (H w) as [Hlog Hloc]. exists [].
  by rewrite app_nil_r.
Qed.

Lemma steady_ret {A} (a : A) : steady (mret a).
Proof. by apply steady_silent. Qed.

Lemma steady_raise {A} (e : exn) : steady (raise e : M A).
Proof. by apply steady_silent. Qed.

Lemma steady_get : steady get.
Proof. by apply steady_silent. Qed.

Lemma steady_strftime_now : steady (strftime_now env).
Proof. by apply steady_silent. Qed.

Lemma steady_path_exists path : steady (path_exists path).
Proof. apply steady_silent. intros w. by destruct path. Qed.

Lemma steady_os_remove path : steady (os_remove path).
Proof.
  apply steady_silent. intros w. unfold os_remove.
  destruct path; [|done]. by case_bool_decide.
Qed.

Lemma steady_set_fs (f : World → gset string) :
  steady (modify (λ w, set_fs (f w) w)).
Proof. by apply steady_silent. Qed.

Lemma steady_set_picam2 o : steady (modify (set_picam2 o)).
Proof. by apply steady_silent. Qed.

Lemma steady_first_category d : steady (first_category d).
Proof. apply steady_silent. intros w. unfold first_category. by destruct (categories d). Qed.

Lemma steady_print line : steady (print line).
Proof. intros w. by exists [Printed line]. Qed.

Lemma steady_sleep n : steady (sleep n).
Proof. intros w. by exists [Slept n]. Qed.

(** A collaborator call other than the photo notification. *)
Lemma steady_ext (c : call) :
  (∀ path caption, c ≠ post_sendPhoto path caption) → steady (ext env c).
Proof.
  intros Hc w. unfold ext.
  destruct (oracle env c (log w)) as [e|]; cbn [fst snd emit log locals];
    eexists; (split_and!; [reflexivity|reflexivity|]);
    destruct c; try done; by destruct (Hc path caption).
Qed.

Lemma steady_bind {A B} (m : M A) (f : A → M B) :
  steady m → (∀ a, steady (f a)) → steady (m ≫= f).
Proof.
  intros Hm Hf w. destruct (Hm w) as (seg1 & E1 & L1 & P1).
  rewrite run_bind. destruct (m w) as [[a|e] w1]; cbn [fst snd] in *.
  - destruct (Hf a w1) as (seg2 & E2 & L2 & P2).
    exists (seg1 ++ seg2). rewrite E2, E1, L2, L1, photos_app, P1, P2.
    by rewrite app_assoc.
  - by exists seg1.
Qed.

Lemma steady_try_except {A} (m : M A) (h : exn → M A) :
  steady m → (∀ e, steady (h e)) → steady (try_except m h).
Proof.
  intros Hm Hh w. destruct (Hm w) as (seg1 & E1 & L1 & P1).
  unfold try_except. destruct (m w) as [[a|e] w1]; cbn [fst snd] in *.
  - by exists seg1.
  - destruct (Hh e w1) as (seg2 & E2 & L2 & P2).
    exists (seg1 ++ seg2). rewrite E2, E1, L2, L1, photos_app, P1, P2.
    by rewrite app_assoc.
Qed.

Lemma steady_try_finally {A} (m : M A) (fin : M unit) :
  steady m → steady fin → steady (try_finally m fin).
Proof.
  intros Hm Hf w. destruct (Hm w) as (seg1 & E1 & L1 & P1).
  unfold try_finally. destruct (m w) as [r w1]; cbn [fst snd] in *.
  destruct (Hf w1) as (seg2 & E2 & L2 & P2).
  exists (seg1 ++ seg2). rewrite photos_app, P1, P2.
  destruct (fin w1) as [[[]|e] w2]; cbn [fst snd] in *;
    by rewrite E2, E1, L2, L1, app_assoc.
Qed.

Ltac steady_step :=
  first [ apply steady_print | apply steady_sleep | by apply steady_ext
        | apply steady_ret | apply steady_raise | apply steady_get
        | apply steady_strftime_now | apply steady_path_exists
        | apply steady_os_remove | refine (steady_set_fs _)
        | apply steady_set_picam2 | apply steady_first_category ].

Ltac steady_auto_with tac :=
  repeat (lazymatch goal with
          | |- steady (try_finally _ _) => apply steady_try_finally
          | |- steady (try_except _ _) => apply steady_try_except; [|intros ?]
          | |- steady (_ ≫= _) => apply steady_bind; [|intros ?]
          | |- steady (match ?x with _ => _ end) => destruct x
          | |- steady (if ?x then _ else _) => destruct x
          | |- _ => first [steady_step | tac]
          end).

Ltac steady_auto := steady_auto_with fail.

Lemma steady_initialize_camera_loop self m todo :
  steady (initialize_camera_loop env self m todo).
Proof.
  induction todo as [|todo IH]; [apply steady_ret|].
  cbn [initialize_camera_loop]. unfold initialize_attempt, Picamera2.
  apply steady_try_except; [steady_auto|intros e].
  apply steady_bind; [apply steady_print|intros _].
  destruct (_ <? _)%nat; [|apply steady_raise].
  apply steady_bind; [apply steady_sleep|by intros _].
Qed.

Lemma steady_cleanup : steady (cleanup env).
Proof. unfold cleanup. steady_auto. Qed.

Lemma steady_capture_h264_video self duration :
  steady (capture_h264_video env self duration).
Proof.
  unfold capture_h264_video, initialize_camera, the_camera, ext_writing.
  steady_auto_with ltac:(first [apply steady_initialize_camera_loop | apply steady_cleanup]).
Qed.

Lemma steady_capture_image self : steady (capture_image env self).
Proof.
  unfold capture_image, initialize_camera, the_camera, ext_writing.
  steady_auto_with ltac:(first [apply steady_initialize_camera_loop | apply steady_cleanup]).
Qed.

Lemma steady_draw_detections_loop img ds : steady (draw_detections_loop env img ds).
Proof.
  revert img. induction ds as [|d ds IH]; intros img; [apply steady_ret|].
  cbn [draw_detections_loop].
  apply steady_bind; [apply steady_first_category|intros c]. apply IH.
Qed.

Lemma steady_detect_objects self img timestamp :
  steady (detect_objects env self img timestamp).
Proof.
  unfold detect_objects, draw_detections, ext_writing.
  steady_auto_with ltac:(apply steady_draw_detections_loop).
Qed.

Lemma steady_check_access_loop self ds : steady (check_access_loop env self ds).
Proof.
  induction ds as [|d ds IH]; cbn [check_access_loop]; [steady_auto|].
  apply steady_bind; [apply steady_first_category|intros c].
  destruct (Qle_bool _ _); [steady_auto|done].
Qed.

Lemma steady_check_access self r : steady (check_access env self r).
Proof.
  unfold check_access. destruct (detections r); [steady_auto|].
  apply steady_check_access_loop.
Qed.

Lemma steady_format_loop self i message ds : steady (format_loop env self i message ds).
Proof.
  revert i message. induction ds as [|d ds IH]; intros i message;
    cbn [format_loop]; [apply steady_ret|].
  apply steady_bind; [apply steady_first_category|intros c].
  destruct (Qle_bool _ _); apply IH.
Qed.

Lemma steady_format_detection_message self r :
  steady (format_detection_message env self r).
Proof.
  unfold format_detection_message.
  destruct (_ =? _)%nat; [apply steady_ret|apply steady_format_loop].
Qed.

Lemma steady_buzz_buzzer duration : steady (buzz_buzzer env duration).
Proof. unfold buzz_buzzer. steady_auto. Qed.

Lemma steady_store_converted_video self h264 :
  steady (store_converted_video env self h264).
Proof.
  unfold store_converted_video, convert_h264_to_mp4, ext_writing. steady_auto.
Qed.

Lemma steady_send_message text : steady (send_message env text).
Proof. unfold send_message. steady_auto. Qed.

Lemma steady_open_file path : steady (open_file env path).
Proof. unfold open_file. steady_auto. Qed.

Lemma steady_send_video path caption : steady (send_video env path caption).
Proof.
  unfold send_video. apply steady_bind; [apply steady_open_file|intros _].
  by apply steady_ext.
Qed.

Lemma steady_cycle_except e : steady (cycle_except env e).
Proof. unfold cycle_except, send_message. steady_auto. Qed.

Lemma steady_remove_video_files paths : steady (remove_video_files paths).
Proof.
  induction paths as [|p paths IH]; cbn [remove_video_files]; [apply steady_ret|].
  apply steady_bind; [|by intros _]. unfold remove_video_file. steady_auto.
Qed.

Lemma steady_cycle_finally : steady (cycle_finally env).
Proof.
  unfold cycle_finally, cleanup_files, remove_annotated_image.
  steady_auto_with ltac:(first [apply steady_remove_video_files | apply steady_cleanup]).
Qed.

Lemma photo_ok_steady {A} (a : option string) (m : M A) : steady m → photo_ok a m.
Proof.
  intros H w _. destruct (H w) as (seg & E & _ & P). exists seg.
  split; [done|]. rewrite P. intros p Hp. by apply elem_of_nil in Hp.
Qed.

Lemma photo_ok_bind {A B} (a : option string) (m : M A) (f : A → M B) :
  steady m → (∀ x, photo_ok a (f x)) → photo_ok a (m ≫= f).
Proof.
  intros Hm Hf w Ha. destruct (Hm w) as (seg1 & E1 & L1 & P1).
  rewrite run_bind. destruct (m w) as [[x|e] w1]; cbn [fst snd] in *.
  - destruct (Hf x w1) as (seg2 & E2 & H2); [by rewrite L1|].
    exists (seg1 ++ seg2). rewrite E2, E1, photos_app, P1.
    by rewrite app_assoc.
  - exists seg1. split; [done|]. rewrite P1. intros p Hp.
    by apply elem_of_nil in Hp.
Qed.

Lemma photo_ok_then {A B} (a : option string) (m : M A) (f : A → M B) :
  photo_ok a m → (∀ x, steady (f x)) → photo_ok a (m ≫= f).
Proof.
  intros Hm Hf w Ha. destruct (Hm w Ha) as (seg1 & E1 & H1).
  rewrite run_bind. destruct (m w) as [[x|e] w1]; cbn [fst snd] in *.
  - destruct (Hf x w1) as (seg2 & E2 & L2 & P2).
    exists (seg1 ++ seg2). rewrite E2, E1, L2, photos_app, P2, app_nil_r.
    by rewrite app_assoc.
  - by exists seg1.
Qed.

Lemma photo_ok_try_except {A} (a : option string) (m : M A) (h : exn → M A) :
  photo_ok a m → (∀ e, steady (h e)) → photo_ok a (try_except m h).
Proof.
  intros Hm Hh w Ha. destruct (Hm w Ha) as (seg1 & E1 & H1).
  unfold try_except. destruct (m w) as [[x|e] w1]; cbn [fst snd] in *.
  - by exists seg1.
  - destruct (Hh e w1) as (seg2 & E2 & L2 & P2).
    exists (seg1 ++ seg2). rewrite E2, E1, L2, photos_app, P2, app_nil_r.
    by rewrite app_assoc.
Qed.

Lemma photo_ok_try_finally {A} (a : option string) (m : M A) (fin : M unit) :
  photo_ok a m → steady fin → photo_ok a (try_finally m fin).
Proof.
  intros Hm Hf w Ha. destruct (Hm w Ha) as (seg1 & E1 & H1).
  unfold try_finally. destruct (m w) as [r w1]; cbn [fst snd] in *.
  destruct (Hf w1) as (seg2 & E2 & L2 & P2).
  exists (seg1 ++ seg2). rewrite photos_app, P2, app_nil_r.
  destruct (fin w1) as [[[]|e] w2]; cbn [fst snd] in *;
    by rewrite E2, E1, L2, app_assoc.
Qed.

(** Assigning the local variables: [annotated_image_path] becomes [a']. *)
Lemma photo_ok_assign {B} (a a' : option string) (g : Locals → Locals)
    (f : unit → M B) :
  (∀ l, annotated_image_path l = a → annotated_image_path (g l) = a') →
  photo_ok a' (f tt) → photo_ok a (assign g ≫= f).
Proof.
  intros Hg Hf w Ha. rewrite run_bind. unfold assign. cbn [modify].
  destruct (Hf (set_locals (g (locals w)) w)) as (seg & E & H).
  { cbn. by apply Hg. }
  by exists seg.
Qed.

Lemma photo_ok_set_locals {B} (a : option string) (l : Locals) (f : unit → M B) :
  photo_ok (annotated_image_path l) (f tt) →
  photo_ok a (modify (set_locals l) ≫= f).
Proof.
  intros Hf w Ha. rewrite run_bind. cbn [modify].
  destruct (Hf (set_locals l w)) as (seg & E & H); [done|]. by exists seg.
Qed.

Lemma photo_ok_send_photo (photo : string) (caption : option string) :
  photo_ok (Some photo) (send_photo env photo caption).
Proof.
  intros w Ha. unfold send_photo. rewrite run_bind.
  destruct (steady_open_file photo w) as (seg1 & E1 & L1 & P1).
  destruct (open_file env photo w) as [[[]|e] w1]; cbn [fst snd] in *.
  - unfold ext. destruct (oracle env _ (log w1)) as [e|];
      cbn [fst snd emit log locals]; eexists;
      (split; [rewrite E1, <- app_assoc; reflexivity|]);
      intros p Hp; rewrite photos_app, P1 in Hp;
      apply list_elem_of_singleton in Hp as ->; by rewrite L1.
  - exists seg1. split; [done|]. rewrite P1. intros p Hp.
    by apply elem_of_nil in Hp.
Qed.

Lemma photo_ok_cycle_try (self : SecuritySystem) (a : option string) :
  photo_ok a (cycle_try env self).
Proof.
  unfold cycle_try.
  apply photo_ok_bind; [apply steady_capture_h264_video|intros h264].
  apply (photo_ok_assign a a); [done|].
  apply photo_ok_bind; [apply steady_print|intros _].
  apply photo_ok_bind; [apply steady_capture_image|intros [[img ts] ipath]].
  apply (photo_ok_assign a a); [done|].
  apply photo_ok_bind; [apply steady_print|intros _].
  apply photo_ok_bind; [apply steady_detect_objects|intros [r annotated]].
  apply (photo_ok_assign a annotated); [done|].
  apply photo_ok_bind; [apply steady_print|intros _].
  apply photo_ok_bind; [apply steady_check_access|intros granted].
  apply photo_ok_bind.
  { destruct granted; [apply steady_print|apply steady_buzz_buzzer]. }
  intros _.
  apply photo_ok_bind; [apply steady_store_converted_video|intros mp4].
  apply (photo_ok_assign annotated annotated); [done|].
  apply photo_ok_bind; [apply steady_print|intros _].
  apply photo_ok_bind; [apply steady_format_detection_message|intros message].
  apply photo_ok_bind; [apply steady_send_message|intros _].
  apply photo_ok_bind; [apply steady_send_video|intros _].
  destruct annotated as [photo|]; [|apply photo_ok_steady, steady_ret].
  destruct (truthy _); [apply photo_ok_send_photo|].
  apply photo_ok_steady, steady_ret.
Qed.

Lemma photo_ok_cycle (self : SecuritySystem) (a : option string) :
  photo_ok a (cycle env self).
Proof.
  unfold cycle.
  apply photo_ok_bind; [apply steady_print|intros _].
  apply photo_ok_bind; [by apply steady_ext|intros _].
  apply photo_ok_bind; [apply steady_print|intros _].
  apply photo_ok_set_locals.
  apply photo_ok_then; [|intros _; apply steady_sleep].
  apply photo_ok_try_finally; [|apply steady_cycle_finally].
  apply photo_ok_try_except; [apply photo_ok_cycle_try|].
  apply steady_cycle_except.
Qed.

Lemma cycle_photos (self : SecuritySystem) (w : World) (p : string) :
  p ∈ photos (new_events w (cycle env self w).2) →
  annotated_image_path (locals (cycle env self w).2) = Some p.
Proof.
  destruct (photo_ok_cycle self _ w eq_refl) as (seg & E & H).
  rewrite (new_events_app _ _ _ E). apply H.
Qed.

End Steady.

(** C8. In a cycle in which no collaborator raises and the detector reports
    nothing, the cycle completes; the notifications attempted are the text
    [no_objects_detected] and the video, and no photo; the buzzer is driven
    at half duty for [buzz_buzzer]'s default duration and switched off; no
    annotated path is recorded.  In such a cycle whose detections carry a
    category, the text and the video are followed by a photo exactly when an
    annotated path was recorded.  And in every cycle, whatever raises, a
    photo notification is attempted only for the annotated path the cycle
    recorded. *)
Theorem silent_scene_buzzes_and_sends_text_and_video (env : Env)
    (model : string) (duration : nat) (w : World) :
  ((∀ c tr, oracle env c tr = None) →
   (∀ img, seen env (ObjectDetector_new model) img = []) →
   (cycle env (SecuritySystem_new model duration) w).1 = Ok tt
   ∧ (∃ mp4,
        notifications
          (new_events w (cycle env (SecuritySystem_new model duration) w).2)
        = [post_sendMessage no_objects_detected;
           post_sendVideo mp4 (Some video_caption)])
   ∧ buzzer_calls
       (new_events w (cycle env (SecuritySystem_new model duration) w).2)
     = [buzzer_set_value (1 # 2); buzzer_off]
   ∧ buzzed_for buzz_default_duration
       (new_events w (cycle env (SecuritySystem_new model duration) w).2)
     = true
   ∧ annotated_image_path
       (locals (cycle env (SecuritySystem_new model duration) w).2)
     = None)
  ∧ ((∀ c tr, oracle env c tr = None) →
     (∀ img, Forall has_category (seen env (ObjectDetector_new model) img)) →
     (cycle env (SecuritySystem_new model duration) w).1 = Ok tt
     ∧ ∃ message mp4,
         notifications
           (new_events w (cycle env (SecuritySystem_new model duration) w).2)
         = post_sendMessage message
           :: post_sendVideo mp4 (Some video_caption)
           :: match annotated_image_path
                      (locals (cycle env (SecuritySystem_new model duration) w).2)
              with
              | Some photo => [post_sendPhoto photo (Some photo_caption)]
              | None => []
              end)
  ∧ (∀ (self : SecuritySystem) (photo : string),
       photo ∈ photos (new_events w (cycle env self w).2) →
       annotated_image_path (locals (cycle env self w).2) = Some photo).
Proof.
  split_and!.
  - intros Hquiet Hnone.
    destruct (cycle_quiet env Hquiet model duration w) as
      (img & ts & mp4 & Hok & Hann & Hnote & Hbuzz & Hfor).
    { intros img. by rewrite Hnone. }
    rewrite Hnone in *. cbn [existsb summary_of] in *.
    rewrite Hann in Hnote.
    split_and!; [done|by exists mp4|done|by apply Hfor|done].
  - intros Hquiet Hcat.
    destruct (cycle_quiet env Hquiet model duration w Hcat) as
      (img & ts & mp4 & Hok & Hann & Hnote & Hbuzz & Hfor).
    split; [done|]. by do 2 eexists.
  - intros self photo. apply cycle_photos.
Qed.

(** C8 on a quiet day, from the start of the program. *)
Lemma silent_scene_buzzes_and_sends_text_and_video_witness :
  (∀ c tr, oracle quiet_env c tr = None)
  ∧ (∀ img, seen quiet_env (ObjectDetector_new "model.tflite") img = [])
  ∧ buzzer_calls
      (new_events empty_world
         (cycle quiet_env (SecuritySystem_new "model.tflite" 5) empty_world).2)
    = [buzzer_set_value (1 # 2); buzzer_off].
Proof.
  assert (H1 : ∀ c tr, oracle quiet_env c tr = None) by done.
  assert (H2 : ∀ img, seen quiet_env (ObjectDetector_new "model.tflite") img = [])
    by done.
  split; [exact H1|]. split; [exact H2|].
  destruct (silent_scene_buzzes_and_sends_text_and_video quiet_env
              "model.tflite" 5 empty_world) as [Hsilent _].
  destruct (Hsilent H1 H2) as (_ & _ & Hbuzz & _). exact Hbuzz.
Defined.

(** ** Errors inside a cycle *)

Section Errors.
Variable env : Env.

Lemma cycle_finally_releases (w : World) :
  picam2 (cycle_finally env w).2 = None.
Proof.
  unfold cycle_finally. rewrite run_bind. cbn [get]. cbn beta iota zeta.
  rewrite run_seq_assoc.
  match goal with |- context [((?a ;; ?b) ;; cleanup env) w] =>
    assert (calm (a ;; b)) as Hcalm
  end.
  { apply calm_seq; [apply calm_cleanup_files|].
    destruct (truthy _); [|apply calm_ret].
    apply calm_try_except, calm_remove_annotated_image. }
  destruct (Hcalm w) as (seg & w1 & E & _). rewrite run_bind, E.
  by destruct (cleanup_run env w1) as [tr ->].
Qed.

(** C2, what holds and what fails.  When the body of a cycle raises, the
    cycle prints the error, attempts one text notification carrying it, and
    runs the cleanup phase, which releases the camera; the cycle then ends
    normally exactly when that notification was delivered, and raises the
    notification's own exception otherwise.  On a day without network the
    first cycle therefore ends the process with exit status 1 after two
    failed notifications, whereas three cycles complete when the network is
    up. *)
Theorem error_report_failure_ends_the_process :
  (∀ (self : SecuritySystem) (w w1 : World) (e : exn),
     cycle_try env self w = (Raise e, w1) →
     notifications
       (new_events w1
          (try_finally (try_except (cycle_try env self) (cycle_except env))
             (cycle_finally env) w).2)
     = [post_sendMessage ("❌ " +:+ "Error in detection cycle: " +:+ exn_str e)]
     ∧ picam2 (try_finally (try_except (cycle_try env self) (cycle_except env))
                 (cycle_finally env) w).2 = None
     ∧ (try_finally (try_except (cycle_try env self) (cycle_except env))
          (cycle_finally env) w).1
       = match oracle env
                 (post_sendMessage
                    ("❌ " +:+ "Error in detection cycle: " +:+ exn_str e))
                 (log w1 ++ [Printed ("Error in detection cycle: " +:+ exn_str e)])
         with
         | None => Ok tt
         | Some e' => Raise e'
         end)
  ∧ (main offline_env a_system 3 empty_world).1 = Ok (Exits 1)
  ∧ notifications (log (main offline_env a_system 3 empty_world).2)
    = [post_sendMessage no_objects_detected;
       post_sendMessage "❌ Error in detection cycle: Network is unreachable"]
  ∧ last (printed_lines (log (main offline_env a_system 3 empty_world).2))
    = Some "Critical error in security system: Network is unreachable"
  ∧ (main quiet_env a_system 3 empty_world).1 = Ok Returns.
Proof.
  split; [|by vm_compute].
  intros self w w1 e Hbody. unfold try_finally, try_except. rewrite Hbody.
  unfold cycle_except, send_message, print, ext.
  rewrite run_bind. cbn [modify]. cbn beta iota. unfold emit.
  cbn [picam2 fs locals log].
  set (text := "❌ " +:+ "Error in detection cycle: " +:+ exn_str e).
  set (line := Printed ("Error in detection cycle: " +:+ exn_str e)).
  destruct (oracle env (post_sendMessage text) (log w1 ++ [line])) as [e'|];
    match goal with |- context [cycle_finally env ?w2] =>
      pose proof (cycle_finally_releases w2) as Hrel;
      destruct (calm_cycle_finally env w2)
        as (segf & w3 & Ef & Hlog & _ & [Nf _])
    end;
    rewrite Ef in *; cbn [fst snd] in *;
    cbn [log] in Hlog; rewrite <- !app_assoc in Hlog;
    rewrite (new_events_app _ _ _ Hlog);
    (split_and!; [|done|done]);
    unfold notifications in *; rewrite !omap_app, Nf; reflexivity.
Qed.

End Errors.

(** ** The theorems on sample inputs *)

(** C6 on a frame in which one person is detected. *)
Lemma detect_objects_annotates_and_persists_witness :
  Forall has_category (seen one_person_env default_detector a_frame)
  ∧ rectangles (annotate one_person_env a_frame
                  (seen one_person_env default_detector a_frame))
    = rectangles a_frame
      ++ map box_of (seen one_person_env default_detector a_frame)
  ∧ is_ok (detect_objects one_person_env default_detector a_frame
             "20240101_120000" empty_world).1 = true.
Proof.
  assert (H : Forall has_category (seen one_person_env default_detector a_frame))
    by (repeat constructor; discriminate).
  split; [exact H|].
  destruct (detect_objects_annotates_and_persists one_person_env
              default_detector a_frame "20240101_120000" empty_world H)
    as (_ & _ & Hrect & _ & _ & Hret).
  split; [exact Hrect|]. apply Hret. reflexivity.
Defined.

(** C7 on one detection of confidence 0.95. *)
Lemma format_detection_message_summary_witness :
  Forall has_category [person (95 # 100)]
  ∧ format_detection_message quiet_env default_detector
      {| detections := [person (95 # 100)] |} empty_world
    = (Ok (results_header
           +:+ entries quiet_env default_detector 1
                 (first_categories [person (95 # 100)])), empty_world).
Proof.
  assert (H : Forall has_category [person (95 # 100)])
    by (repeat constructor; discriminate).
  split; [exact H|].
  destruct (format_detection_message_summary quiet_env default_detector
              {| detections := [person (95 # 100)] |} empty_world H)
    as (_ & Hsome & _).
  apply Hsome. discriminate.
Defined.

(** C9 on one detection of confidence 0.95. *)
Lemma only_first_category_is_read_witness :
  Forall has_category [person (95 # 100)]
  ∧ is_ok (check_access quiet_env default_detector
             {| detections := [person (95 # 100)] |} empty_world).1 = true
  ∧ is_ok (format_detection_message quiet_env default_detector
             {| detections := [person (95 # 100)] |} empty_world).1 = true.
Proof.
  assert (H : Forall has_category [person (95 # 100)])
    by (repeat constructor; discriminate).
  split; [exact H|].
  destruct (only_first_category_is_read quiet_env default_detector
              {| detections := [person (95 # 100)] |} empty_world H)
    as (H1 & H2 & _).
  exact (conj H1 H2).
Defined.

(** * Further properties of the code *)

(** ** Reading the settings *)

Section Settings.
Variable env : Env.

Lemma lift_bind {A B} (r : result A) (k : A → M B) (w : World) :
  (lift r ≫= k) w = match r with Ok a => k a w | Raise e => (Raise e, w) end.
Proof. by destruct r. Qed.

Ltac settings_step :=
  rewrite ?lift_bind; cbn beta iota; cbn [subscript dict_get].

(** X1. [__init__] gets its settings exactly when the five required keys
    are there, each inside a dictionary: the required values are the ones
    in the file, an optional key that is absent gets its default (2000 for
    the buzzer frequency, 5 for the video duration), and reading changes
    nothing else. *)
Theorem read_settings_iff (config : json) (s : Settings) (w w' : World) :
  read_settings config w = (Ok s, w') ↔
  w' = w
  ∧ at2 config "telegram" "token" = Some (TELEGRAM_TOKEN s)
  ∧ at2 config "telegram" "chat_id" = Some (TELEGRAM_CHAT_ID s)
  ∧ at2 config "gpio" "pir_pin" = Some (PIR_PIN s)
  ∧ at2 config "gpio" "buzzer_pin" = Some (BUZZER_PIN s)
  ∧ at2 config "camera" "model_path" = Some (MODEL_PATH s)
  ∧ BUZZER_FREQUENCY s
    = default (JNum 2000) (at2 config "gpio" "buzzer_frequency")
  ∧ video_duration s
    = default (JNum 5) (at2 config "camera" "video_duration").
Proof.
  unfold read_settings, at2.
  destruct config as [| | | | |members];
    try (cbn; split; [by intros ?|by intros (_ & ? & _)]).
  settings_step.
  destruct (dict_lookup "telegram" members) as [[| | | | |tg]|];
    try (cbn; split; [by intros ?|by intros (_ & ? & _)]).
  settings_step.
  destruct (dict_lookup "token" tg) as [token|];
    [|cbn; split; [by intros ?|by intros (_ & ? & _)]].
  settings_step.
  destruct (dict_lookup "chat_id" tg) as [chat|];
    [|cbn; split; [by intros ?|by intros (_ & _ & ? & _)]].
  settings_step.
  destruct (dict_lookup "gpio" members) as [[| | | | |gp]|];
    try (cbn; split; [by intros ?|by intros (_ & _ & _ & ? & _)]).
  settings_step.
  destruct (dict_lookup "pir_pin" gp) as [pir|];
    [|cbn; split; [by intros ?|by intros (_ & _ & _ & ? & _)]].
  settings_step.
  destruct (dict_lookup "buzzer_pin" gp) as [buzzer|];
    [|cbn; split; [by intros ?|by intros (_ & _ & _ & _ & ? & _)]].
  settings_step.
  destruct (dict_lookup "camera" members) as [[| | | | |cam]|];
    try (cbn; split; [by intros ?|by intros (_ & _ & _ & _ & _ & ? & _)]).
  settings_step.
  destruct (dict_lookup "model_path" cam) as [model|];
    [|cbn; split; [by intros ?|by intros (_ & _ & _ & _ & _ & ? & _)]].
  settings_step. cbn [mret M_ret].
  destruct s as [T C P B F Mo V]. cbn [TELEGRAM_TOKEN TELEGRAM_CHAT_ID PIR_PIN
    BUZZER_PIN BUZZER_FREQUENCY MODEL_PATH video_duration].
  split.
  - by intros [= <- <- <- <- <- <- <- <-].
  - by intros (-> & [= <-] & [= <-] & [= <-] & [= <-] & [= <-] & -> & ->).
Qed.

(** X2. A configuration file written from settings reads back as those
    settings; an optional key left out of the file reads as its default,
    and one written into the file is kept as written (a [null] there is not
    replaced by the default). *)
Theorem settings_round_trip (s : Settings) (with_frequency with_duration : bool)
    (config_path : string) (w : World) :
  config_path ∈ fs w →
  oracle env (builtin_open config_path) (log w) = None →
  decode env config_path = Ok (config_of s with_frequency with_duration) →
  (load_settings env config_path w).1
  = Ok (Some {| TELEGRAM_TOKEN := TELEGRAM_TOKEN s;
                TELEGRAM_CHAT_ID := TELEGRAM_CHAT_ID s;
                PIR_PIN := PIR_PIN s;
                BUZZER_PIN := BUZZER_PIN s;
                BUZZER_FREQUENCY :=
                  if with_frequency then BUZZER_FREQUENCY s else JNum 2000;
                MODEL_PATH := MODEL_PATH s;
                video_duration :=
                  if with_duration then video_duration s else JNum 5 |}).
Proof.
  intros Hfs Hopen Hdec.
  unfold load_settings, load_config, load_config_body, open_file, json_load,
    path_exists, ext.
  unfold_M. rewrite bool_decide_true, Hopen, Hdec by done. cbn.
  by destruct with_frequency, with_duration.
Qed.

(** X3. Without a usable configuration [__init__] stops before it reads a
    key: when the file is absent, when it is not valid JSON, and when it
    decodes to a value that is false in Python ([null], [{}], [[]], [0],
    [false], the empty string), the outcome is [sys.exit(1)], the last
    line printed is the failure notice, and the disk and the camera are
    untouched. *)
Theorem unusable_configuration_exits (config_path : string) (w : World) :
  config_path ∉ fs w
  ∨ (config_path ∈ fs w
     ∧ oracle env (builtin_open config_path) (log w) = None
     ∧ ((∃ e, decode env config_path = Raise e
              ∧ exn_class e = "JSONDecodeError")
        ∨ (∃ v, decode env config_path = Ok v ∧ truth v = false))) →
  ∃ w', load_settings env config_path w = (Ok None, w')
        ∧ last (printed_lines (new_events w w'))
          = Some "Failed to load configuration. Exiting."
        ∧ fs w' = fs w ∧ picam2 w' = picam2 w.
Proof.
  intros H.
  unfold load_settings, load_config, load_config_body, open_file, json_load,
    path_exists, ext.
  unfold_M.
  destruct H as [Hno|(Hin & Hopen & [(e & Hdec & He)|(v & Hdec & Hv)])].
  - rewrite bool_decide_false by done. cbn. eexists. split; [reflexivity|].
    unfold new_events, emit. cbn [log fs picam2].
    rewrite <- ?app_assoc, drop_app_length. by cbn.
  - rewrite bool_decide_true, Hopen, Hdec by done. cbn. rewrite He. cbn.
    eexists. split; [reflexivity|].
    unfold new_events, emit. cbn [log fs picam2].
    rewrite <- ?app_assoc, drop_app_length. by cbn.
  - rewrite bool_decide_true, Hopen, Hdec by done. cbn. rewrite Hv. cbn.
    eexists. split; [reflexivity|].
    unfold new_events, emit. cbn [log fs picam2].
    rewrite <- ?app_assoc, drop_app_length. by cbn.
Qed.

End Settings.

(** X2 on a file that leaves both optional keys out. *)
Lemma settings_round_trip_witness :
  (load_settings minimal_config_env "config.json" config_on_disk).1
  = Ok (Some {| TELEGRAM_TOKEN := JStr "123:abc";
                TELEGRAM_CHAT_ID := JStr "42";
                PIR_PIN := JNum 17; BUZZER_PIN := JNum 18;
                BUZZER_FREQUENCY := JNum 2000;
                MODEL_PATH := JStr "model.tflite";
                video_duration := JNum 5 |}).
Proof.
  apply (settings_round_trip minimal_config_env some_settings false false
           "config.json" config_on_disk).
  - cbn. set_solver.
  - reflexivity.
  - reflexivity.
Defined.

(** X3 on a file that holds [null]. *)
Lemma unusable_configuration_exits_witness :
  ∃ w', load_settings null_config_env "config.json" config_on_disk
        = (Ok None, w')
        ∧ last (printed_lines (new_events config_on_disk w'))
          = Some "Failed to load configuration. Exiting."
        ∧ fs w' = fs config_on_disk ∧ picam2 w' = picam2 config_on_disk.
Proof.
  apply (unusable_configuration_exits null_config_env "config.json"
           config_on_disk).
  right. split; [cbn; set_solver|]. split; [reflexivity|].
  right. exists JNull. split; reflexivity.
Defined.

(** ** File names of the transcoded video *)

Lemma lacks_app (c : ascii) (s t : string) :
  lacks c (s +:+ t) = lacks c s && lacks c t.
Proof.
  induction s as [|c' s IH]; [done|].
  rewrite append_cons. cbn [lacks]. by rewrite IH, andb_assoc.
Qed.

Lemma basename_from_lacks (cur name : string) :
  lacks "/" name = true → basename_from cur name = cur +:+ name.
Proof.
  revert cur. induction name as [|c name IH]; intros cur H.
  - by rewrite append_nil_r.
  - cbn [lacks] in H. apply andb_true_iff in H as [Hc H].
    apply negb_true_iff in Hc. cbn [basename_from]. rewrite Hc, IH by done.
    by rewrite append_assoc.
Qed.

Lemma basename_path_join (dir name : string) :
  lacks "/" name = true → basename (path_join dir name) = name.
Proof.
  intros H. unfold basename, path_join.
  enough (∀ cur, basename_from cur (dir +:+ "/" +:+ name) = name) by done.
  induction dir as [|c dir IH]; intros cur.
  - change (basename_from cur (String "/" name) = name). cbn.
    by rewrite basename_from_lacks.
  - rewrite append_cons. cbn [basename_from].
    destruct (Ascii.eqb c "/"); apply IH.
Qed.

Lemma replace_from_lacks (new s : string) :
  lacks "." s = true → replace_from ".h264" new 0 s = s.
Proof.
  induction s as [|c s IH]; intros H; [done|].
  cbn [lacks] in H. apply andb_true_iff in H as [Hc H].
  apply negb_true_iff, Ascii.eqb_neq in Hc.
  cbn [replace_from String.prefix].
  destruct (ascii_dec "." c) as [<-|_]; [done|]. by rewrite IH.
Qed.

Lemma replace_suffix (new stem : string) :
  lacks "." stem = true →
  replace_from ".h264" new 0 (stem +:+ ".h264") = stem +:+ new.
Proof.
  induction stem as [|c s IH]; intros H.
  - change (new +:+ "" = new). apply append_nil_r.
  - cbn [lacks] in H. apply andb_true_iff in H as [Hc H].
    apply negb_true_iff, Ascii.eqb_neq in Hc.
    rewrite !append_cons. cbn [replace_from String.prefix].
    destruct (ascii_dec "." c) as [<-|_]; [done|]. by rewrite IH.
Qed.

Lemma mp4_name (dir ts : string) :
  lacks "." ts = true → lacks "/" ts = true →
  str_replace ".h264" ".mp4"
    (basename (path_join dir ("video_" +:+ ts +:+ ".h264")))
  = "video_" +:+ ts +:+ ".mp4".
Proof.
  intros Hdot Hslash. rewrite basename_path_join.
  - unfold str_replace. rewrite <- append_assoc, replace_suffix.
    + by rewrite append_assoc.
    + rewrite lacks_app. by rewrite Hdot.
  - rewrite !lacks_app, Hslash. reflexivity.
Qed.

Lemma path_join_inj (dir a b : string) :
  path_join dir a = path_join dir b → a = b.
Proof.
  unfold path_join. induction dir as [|c dir IH].
  - intros H. by injection H.
  - rewrite !append_cons. intros [= H]. by apply IH.
Qed.

Lemma append_inj_l (s a b : string) : s +:+ a = s +:+ b → a = b.
Proof.
  induction s as [|c s IH]; [done|].
  rewrite !append_cons. intros [= H]. by apply IH.
Qed.

Section Transcoding.
Variable env : Env.

(** X4. [store_converted_video] runs [ffmpeg] once, from the given file to
    a file in the videos directory named after the source's base name.
    When the command succeeds the target is returned and is on disk beside
    everything that was there; when it fails the same exception reaches
    the caller, the disk is as before, and the console names the error:
    twice for a [CalledProcessError], once for any other exception. *)
Theorem store_converted_video_outcomes (self : CameraManager)
    (h264_path : string) (w : World) :
  let target := path_join (video_dir self)
                  (str_replace ".h264" ".mp4" (basename h264_path)) in
  let command := subprocess_run (ffmpeg_command h264_path target) in
  ∃ w', (store_converted_video env self h264_path w).2 = w'
    ∧ picam2 w' = picam2 w ∧ locals w' = locals w
    ∧ match oracle env command (log w) with
      | None =>
          (store_converted_video env self h264_path w).1 = Ok target
          ∧ fs w' = fs w ∪ {[target]}
          ∧ new_events w w'
            = [Called command None;
               Printed ("Converted and flipped video to " +:+ target)]
      | Some e =>
          (store_converted_video env self h264_path w).1 = Raise e
          ∧ fs w' = fs w
          ∧ new_events w w'
            = Called command (Some e)
              :: (if String.eqb (exn_class e) "CalledProcessError"
                  then [Printed ("Error during video conversion: "
                                 +:+ exn_str e)]
                  else [])
              ++ [Printed ("Error storing converted video: " +:+ exn_str e)]
      end.
Proof.
  intros target command. eexists. split; [reflexivity|].
  unfold store_converted_video, convert_h264_to_mp4, ext_writing, ext.
  unfold_M. fold target. unfold ffmpeg_command in command. fold command.
  unfold new_events.
  destruct (oracle env command (log w)) as [e|]; cbn.
  - destruct (String.eqb (exn_class e) "CalledProcessError"); cbn;
      rewrite <- ?app_assoc, drop_app_length; by cbn.
  - rewrite <- ?app_assoc, drop_app_length. by cbn.
Qed.

(** X5. The video recorded as [video_<timestamp>.h264], in whatever
    directory, is stored as [video_<timestamp>.mp4] in the videos
    directory: a file other than the recording, which is still on disk
    after the conversion. *)
Theorem stored_video_is_named_after_the_recording (self : CameraManager)
    (dir timestamp : string) (w : World) :
  lacks "." timestamp = true → lacks "/" timestamp = true →
  let h264 := path_join dir ("video_" +:+ timestamp +:+ ".h264") in
  let mp4 := path_join (video_dir self) ("video_" +:+ timestamp +:+ ".mp4") in
  mp4 ≠ h264
  ∧ ∀ stored w',
      store_converted_video env self h264 w = (Ok stored, w') →
      stored = mp4 ∧ mp4 ∈ fs w' ∧ (h264 ∈ fs w → h264 ∈ fs w').
Proof.
  intros Hdot Hslash h264 mp4. split.
  - intros H. apply (f_equal basename) in H. unfold mp4, h264 in H.
    rewrite !basename_path_join in H
      by (rewrite !lacks_app, Hslash; reflexivity).
    apply append_inj_l, append_inj_l in H. discriminate H.
  - intros stored w'.
    pose proof (mp4_name dir timestamp Hdot Hslash) as Hname.
    fold h264 in Hname.
    unfold store_converted_video, convert_h264_to_mp4, ext_writing, ext.
    unfold_M. rewrite Hname. fold mp4.
    destruct (oracle env _ (log w)) as [e|]; cbn.
    + destruct (String.eqb (exn_class e) "CalledProcessError"); by cbn.
    + intros [= <- <-]. cbn. split_and!; [done|set_solver|set_solver].
Qed.

(** X6. Without an explicit target [convert_h264_to_mp4] derives it by
    replacing [.h264]: a source [<stem>.h264] with no other dot is
    transcoded to [<stem>.mp4], but for a source without any dot the
    derived target is the source itself, and [ffmpeg] is told to write the
    file it reads. *)
Theorem default_target_of_the_conversion (source : string) (w : World) :
  lacks "." source = true →
  (∃ outcome,
     log (convert_h264_to_mp4 env (source +:+ ".h264") None w).2
     = log w
       ++ Called (subprocess_run
                    (ffmpeg_command (source +:+ ".h264") (source +:+ ".mp4")))
                 outcome
       :: match outcome with
          | None => [Printed ("Converted and flipped video to "
                              +:+ source +:+ ".mp4")]
          | Some e => if String.eqb (exn_class e) "CalledProcessError"
                      then [Printed ("Error during video conversion: "
                                     +:+ exn_str e)]
                      else []
          end)
  ∧ (∃ outcome,
       hd_error (new_events w (convert_h264_to_mp4 env source None w).2)
       = Some (Called (subprocess_run (ffmpeg_command source source)) outcome)).
Proof.
  intros Hdot. unfold convert_h264_to_mp4, ext_writing, ext, str_replace.
  rewrite replace_suffix, replace_from_lacks by done.
  unfold_M. unfold ffmpeg_command, new_events. split.
  - destruct (oracle env _ (log w)) as [e|]; cbn.
    + exists (Some e).
      destruct (String.eqb (exn_class e) "CalledProcessError"); cbn;
        by rewrite <- ?app_assoc.
    + exists None. by rewrite <- ?app_assoc.
  - destruct (oracle env _ (log w)) as [e|]; cbn.
    + exists (Some e).
      destruct (String.eqb (exn_class e) "CalledProcessError"); cbn;
        rewrite <- ?app_assoc, drop_app_length; by cbn.
    + exists None. rewrite <- ?app_assoc, drop_app_length. by cbn.
Qed.

End Transcoding.

(** X5 on the recording of a quiet day. *)
Lemma stored_video_is_named_after_the_recording_witness :
  lacks "." "20240101_120000" = true
  ∧ lacks "/" "20240101_120000" = true
  ∧ ∀ stored w',
      store_converted_video quiet_env CameraManager_new
        (path_join "videos" ("video_" +:+ "20240101_120000" +:+ ".h264"))
        empty_world
      = (Ok stored, w') →
      stored = path_join "videos" ("video_" +:+ "20240101_120000" +:+ ".mp4").
Proof.
  split; [reflexivity|]. split; [reflexivity|]. intros stored w' H.
  destruct (stored_video_is_named_after_the_recording quiet_env
              CameraManager_new "videos" "20240101_120000" empty_world
              eq_refl eq_refl) as [_ Hstored].
  destruct (Hstored stored w' H) as [Hname _]. exact Hname.
Defined.

(** X6 on a source without extension. *)
Lemma default_target_of_the_conversion_witness :
  ∃ outcome,
    hd_error (new_events empty_world
                (convert_h264_to_mp4 quiet_env "clip" None empty_world).2)
    = Some (Called (subprocess_run (ffmpeg_command "clip" "clip")) outcome).
Proof.
  apply (default_target_of_the_conversion quiet_env "clip" empty_world).
  reflexivity.
Defined.

(** ** Sending media *)

Section Media.
Variable env : Env.

(** X7. [send_video] and [send_photo] open the file before they talk to
    the network.  A path that is not on disk raises [FileNotFoundError] and
    nothing else happens; a file that cannot be opened raises what [open]
    raised and no request is made; otherwise exactly one request is made,
    for that path and caption, and its outcome is the outcome of the call.
    Neither function changes the disk. *)
Theorem media_is_opened_before_it_is_posted (path : string)
    (caption : option string) (w : World) :
  let opened := log w ++ [Called (builtin_open path) None] in
  (path ∉ fs w →
   send_video env path caption w = (Raise (FileNotFoundError path), w)
   ∧ send_photo env path caption w = (Raise (FileNotFoundError path), w))
  ∧ (path ∈ fs w →
     ∀ e, oracle env (builtin_open path) (log w) = Some e →
       (send_video env path caption w).1 = Raise e
       ∧ (send_photo env path caption w).1 = Raise e
       ∧ notifications (new_events w (send_video env path caption w).2) = []
       ∧ notifications (new_events w (send_photo env path caption w).2) = [])
  ∧ (path ∈ fs w →
     oracle env (builtin_open path) (log w) = None →
     new_events w (send_video env path caption w).2
     = [Called (builtin_open path) None;
        Called (post_sendVideo path caption)
          (oracle env (post_sendVideo path caption) opened)]
     ∧ new_events w (send_photo env path caption w).2
       = [Called (builtin_open path) None;
          Called (post_sendPhoto path caption)
            (oracle env (post_sendPhoto path caption) opened)]
     ∧ (send_video env path caption w).1
       = from_option Raise (Ok tt)
           (oracle env (post_sendVideo path caption) opened)
     ∧ (send_photo env path caption w).1
       = from_option Raise (Ok tt)
           (oracle env (post_sendPhoto path caption) opened))
  ∧ fs (send_video env path caption w).2 = fs w
  ∧ fs (send_photo env path caption w).2 = fs w.
Proof.
  intros opened. unfold send_video, send_photo, open_file, path_exists, ext.
  unfold_M. unfold new_events. subst opened.
  destruct w as [p f l lg]. unfold emit. cbn [picam2 fs locals log].
  split_and!.
  - intros H. by rewrite bool_decide_false.
  - intros H e He. rewrite bool_decide_true by done. cbn. rewrite He.
    cbn. rewrite drop_app_length. done.
  - intros H Ho. rewrite bool_decide_true by done. cbn. rewrite Ho. cbn.
    destruct (oracle env (post_sendVideo path caption) _),
      (oracle env (post_sendPhoto path caption) _); cbn;
      rewrite <- ?app_assoc, !drop_app_length; done.
  - case_bool_decide; [|done]. cbn.
    destruct (oracle env (builtin_open path) lg); [done|]. cbn.
    by destruct (oracle env (post_sendVideo path caption) _).
  - case_bool_decide; [|done]. cbn.
    destruct (oracle env (builtin_open path) lg); [done|]. cbn.
    by destruct (oracle env (post_sendPhoto path caption) _).
Qed.

(** X8. [remove_annotated_image] never raises.  Given a non-empty path of
    a file on disk it deletes that file and says so; given [None], the
    empty string, or the path of no file it does nothing and prints
    nothing.  No other file, no variable and no device is touched. *)
Theorem remove_annotated_image_outcome (path : option string) (w : World) :
  ∃ w', remove_annotated_image path w = (Ok tt, w')
    ∧ picam2 w' = picam2 w ∧ locals w' = locals w
    ∧ match path with
      | Some p =>
          if negb (String.eqb p "") && bool_decide (p ∈ fs w)
          then fs w' = fs w ∖ {[p]}
               ∧ new_events w w' = [Printed ("Removed annotated image: " +:+ p)]
          else fs w' = fs w ∧ new_events w w' = []
      | None => fs w' = fs w ∧ new_events w w' = []
      end.
Proof.
  unfold remove_annotated_image, path_exists, os_remove. unfold_M.
  unfold new_events.
  destruct path as [p|]; cbn; [|eexists; by rewrite drop_all].
  destruct (String.eqb p ""); cbn; [eexists; by rewrite drop_all|].
  case_bool_decide; cbn.
  - rewrite bool_decide_true by done. cbn. eexists. split; [reflexivity|].
    cbn. by rewrite drop_app_length.
  - eexists. by rewrite drop_all.
Qed.

End Media.

(** ** A recognised visitor *)

(** X9. In a cycle in which no collaborator raises and some detection
    reaches the confidence threshold, the buzzer is not touched, and three
    notifications go out in this order: the text summary of the
    detections, the video with its caption, and the photo of the annotated
    image the cycle recorded. *)
Theorem recognised_visitor_is_not_buzzed (env : Env) (model : string)
    (duration : nat) (w : World) :
  (∀ c tr, oracle env c tr = None) →
  (∀ img, Forall has_category (seen env (ObjectDetector_new model) img)) →
  (∀ img, existsb (meets_threshold (ObjectDetector_new model))
            (seen env (ObjectDetector_new model) img) = true) →
  let w' := (cycle env (SecuritySystem_new model duration) w).2 in
  (cycle env (SecuritySystem_new model duration) w).1 = Ok tt
  ∧ buzzer_calls (new_events w w') = []
  ∧ ∃ img mp4 photo,
      annotated_image_path (locals w') = Some photo
      ∧ notifications (new_events w w')
        = [post_sendMessage
             (summary_of env (ObjectDetector_new model)
                (seen env (ObjectDetector_new model) img));
           post_sendVideo mp4 (Some video_caption);
           post_sendPhoto photo (Some photo_caption)].
Proof.
  intros Hquiet Hcat Hgranted w'.
  destruct (cycle_quiet env Hquiet model duration w Hcat) as
    (img & ts & mp4 & Hok & Hann & Hnote & Hbuzz & _).
  fold w' in Hann, Hnote, Hbuzz. rewrite Hgranted in Hbuzz.
  split; [done|]. split; [done|].
  specialize (Hgranted img).
  destruct (seen env (ObjectDetector_new model) img) as [|d ds] eqn:Hseen;
    [discriminate Hgranted|].
  exists img, mp4. eexists. split; [exact Hann|].
  rewrite Hnote, Hann, Hseen. reflexivity.
Qed.

(** X9 on a day on which one person is seen at 95%. *)
Lemma recognised_visitor_is_not_buzzed_witness :
  (∀ c tr, oracle one_person_env c tr = None)
  ∧ (∀ img, existsb (meets_threshold (ObjectDetector_new "model.tflite"))
              (seen one_person_env (ObjectDetector_new "model.tflite") img)
            = true)
  ∧ buzzer_calls
      (new_events empty_world
         (cycle one_person_env (SecuritySystem_new "model.tflite" 5)
            empty_world).2)
    = [].
Proof.
  assert (H1 : ∀ c tr, oracle one_person_env c tr = None) by done.
  assert (H2 : ∀ img, Forall has_category
                        (seen one_person_env (ObjectDetector_new "model.tflite")
                           img))
    by (intros img; repeat constructor; discriminate).
  assert (H3 : ∀ img, existsb (meets_threshold (ObjectDetector_new "model.tflite"))
                        (seen one_person_env (ObjectDetector_new "model.tflite")
                           img) = true) by done.
  split; [exact H1|]. split; [exact H3|].
  destruct (recognised_visitor_is_not_buzzed one_person_env "model.tflite" 5
              empty_world H1 H2 H3) as (_ & Hbuzz & _).
  exact Hbuzz.
Defined.

(** ** What the captures return *)

Section Captures.
Variable env : Env.

Lemma initialize_camera_run (self : CameraManager) (m : mode) (w : World) :
  ∃ r p seg,
    initialize_camera env self m w
    = (r, {| picam2 := p; fs := fs w; locals := locals w;
             log := log w ++ seg |}).
Proof.
  unfold initialize_camera.
  destruct (initialize_camera_loop_run env self m _ (le_n _) w)
    as (r & w' & seg & es & E & Hlog & Hfs & Hloc & _).
  exists r, (picam2 w'), seg. rewrite E. f_equal.
  destruct w'; cbn in *. by subst.
Qed.

Ltac step_oracle :=
  once (match goal with
        | |- context [oracle env ?c ?tr] => destruct (oracle env c tr) eqn:?
        end).

Ltac finish_cleanup :=
  once (match goal with
        | |- context [cleanup env ?w1] =>
            destruct (cleanup_run env w1) as [tr ->]
        end);
  cbn [fst snd picam2 fs locals log];
  rewrite <- ?app_assoc; cbn [app];
  (erewrite new_events_app by (cbn [log]; reflexivity)).

(** X10. [capture_image] always ends with the camera field at [None] and
    the caller's variables untouched.  When it returns, the image is the
    captured frame resized to 640x480 and flipped about both axes, the
    path is [<images_dir>/captured_<timestamp>.jpg], that image was
    written to that path, and the file is the only change on disk.  When
    it raises, the disk is unchanged and the console carries the error. *)
Theorem capture_image_outcome (self : CameraManager) (w : World) :
  let r := capture_image env self w in
  picam2 r.2 = None ∧ locals r.2 = locals w
  ∧ match r.1 with
    | Ok (img, timestamp, path) =>
        path = path_join (images_dir self) ("captured_" +:+ timestamp +:+ ".jpg")
        ∧ fs r.2 = fs w ∪ {[path]}
        ∧ Called (cv2_imwrite path img) None ∈ new_events w r.2
        ∧ ∃ h t, img = Flipped (Resized (Captured h t) 640 480) (-1)
                 ∧ Called (capture_array h) None ∈ new_events w r.2
    | Raise e =>
        fs r.2 = fs w
        ∧ Printed ("Error during image capture: " +:+ exn_str e)
          ∈ new_events w r.2
    end.
Proof.
  cbn zeta. unfold capture_image, try_finally, try_except. rewrite run_bind.
  destruct (initialize_camera_run self Preview w) as (r0 & p & seg & ->).
  destruct w as [p0 f l lg]. cbn [picam2 fs locals log].
  destruct r0 as [b|e0]; cbn beta iota.
  - unfold the_camera, ext_writing, strftime_now, ext. unfold_M.
    unfold emit, set_fs. cbn [picam2 fs locals log].
    destruct p as [h|]; cbn beta iota.
    + repeat (step_oracle; cbn beta iota; cbn [picam2 fs locals log]);
        finish_cleanup;
        (split; [done|]); (split; [done|]);
        repeat (split; [first [done | set_solver]|]);
        first [set_solver | do 2 eexists; split; [reflexivity|set_solver]].
    + finish_cleanup. split_and!; [done|done|done|set_solver].
  - unfold_M. unfold emit. cbn [picam2 fs locals log].
    finish_cleanup. split_and!; [done|done|done|set_solver].
Qed.


End Captures.

(** ** The loop and the process *)

Section Loop.
Variable env : Env.

Lemma cycle_after_motion (self : SecuritySystem) (w : World) :
  oracle env wait_for_motion (log w ++ [Printed "Waiting for motion..."]) = None →
  cycle env self w
  = (try_finally (try_except (cycle_try env self) (cycle_except env))
       (cycle_finally env) ;; sleep 5)
      {| picam2 := picam2 w; fs := fs w; locals := no_paths;
         log := log w ++ [Printed "Waiting for motion...";
                          Called wait_for_motion None;
                          Printed "Motion detected!"] |}.
Proof.
  intros H. unfold cycle, print, ext, sleep. unfold_M.
  unfold emit, set_locals. cbn [picam2 fs locals log]. rewrite H.
  cbn [picam2 fs locals log]. by rewrite <- !app_assoc.
Qed.

Lemma cycle_without_motion (self : SecuritySystem) (w : World) (e : exn) :
  oracle env wait_for_motion (log w ++ [Printed "Waiting for motion..."])
  = Some e →
  cycle env self w
  = (Raise e,
     {| picam2 := picam2 w; fs := fs w; locals := locals w;
        log := log w ++ [Printed "Waiting for motion...";
                         Called wait_for_motion (Some e)] |}).
Proof.
  intros H. unfold cycle, print, ext, sleep. unfold_M.
  unfold emit, set_locals. cbn [picam2 fs locals log]. rewrite H.
  cbn [picam2 fs locals log]. by rewrite <- !app_assoc.
Qed.

(** The guarded part of a cycle returns when the error report can be
    sent. *)
Lemma guarded_cycle_returns (self : SecuritySystem) (w : World) :
  (∀ text tr, oracle env (post_sendMessage text) tr = None) →
  (try_finally (try_except (cycle_try env self) (cycle_except env))
     (cycle_finally env) w).1 = Ok tt.
Proof.
  intros Hmessage. unfold try_finally, try_except.
  destruct (cycle_try env self w) as [[[]|e] w1].
  - by destruct (calm_cycle_finally env w1) as (seg & w2 & -> & _).
  - unfold cycle_except, send_message, print, ext. rewrite run_bind.
    cbn [modify]. cbn beta iota. rewrite Hmessage.
    match goal with |- context [cycle_finally env ?w2] =>
      by destruct (calm_cycle_finally env w2) as (seg & w3 & -> & _)
    end.
Qed.

(** X12. As long as the motion sensor answers and text messages can be
    sent, no failure stops the loop: whatever the camera, the detector,
    [ffmpeg], the disk or the media uploads do, every cycle completes, so
    the loop runs until the operator interrupts it, and the program then
    ends normally if the buzzer can be closed. *)
Theorem the_loop_survives_what_it_can_report (self : SecuritySystem)
    (cycles : nat) (w : World) :
  (∀ text tr, oracle env (post_sendMessage text) tr = None) →
  (∀ tr, oracle env wait_for_motion tr = None) →
  (cycle env self w).1 = Ok tt
  ∧ (run_loop env self cycles w).1 = Ok tt
  ∧ last (printed_lines (log (run_loop env self cycles w).2))
    = Some (NL +:+ "Program interrupted by user")
  ∧ ((∀ tr, oracle env buzzer_close tr = None) →
     (main env self cycles w).1 = Ok Returns).
Proof.
  intros Hmessage Hmotion.
  assert (Hcycle : ∀ w1, (cycle env self w1).1 = Ok tt).
  { intros w1. rewrite cycle_after_motion by apply Hmotion. rewrite run_bind.
    pose proof (guarded_cycle_returns self
                  {| picam2 := picam2 w1; fs := fs w1; locals := no_paths;
                     log := log w1 ++ [Printed "Waiting for motion...";
                                       Called wait_for_motion None;
                                       Printed "Motion detected!"] |}
                  Hmessage) as H.
    destruct (try_finally _ _ _) as [[[]|e] w2]; [done|discriminate H]. }
  assert (Hloop : ∀ n w1,
            (run_loop env self n w1).1 = Ok tt
            ∧ last (printed_lines (log (run_loop env self n w1).2))
              = Some (NL +:+ "Program interrupted by user")).
  { induction n as [|n IH]; intros w1.
    - cbn [run_loop print modify fst snd emit log].
      rewrite printed_lines_app.
      split; [done|]. exact (last_snoc (NL +:+ "Program interrupted by user") (printed_lines (log w1))).
    - cbn [run_loop]. rewrite run_bind. specialize (Hcycle w1).
      destruct (cycle env self w1) as [[[]|e] w2]; [apply IH|discriminate Hcycle]. }
  split; [apply Hcycle|]. split; [apply Hloop|]. split; [apply Hloop|].
  intros Hclose. unfold main, run, try_except, try_finally. rewrite run_bind.
  destruct (Hloop cycles w) as [Hok _].
  destruct (run_loop env self cycles w) as [[[]|e] w1]; [|discriminate Hok].
  rewrite run_bind. unfold ext at 1. rewrite Hclose.
  match goal with |- context [cleanup env ?w2] =>
    by destruct (cleanup_run env w2) as [tr ->]
  end.
Qed.

(** X13. A motion sensor that raises ends the program.  The exception is
    raised outside the guarded part of the cycle: nothing is captured, no
    notification is attempted and nothing is cleaned up in that cycle.  It
    leaves [run] through the final block, which closes the buzzer, and
    [main] reports it as a critical error and exits with status 1. *)
Theorem a_failing_motion_sensor_ends_the_program (self : SecuritySystem)
    (cycles : nat) (w : World) (e : exn) :
  oracle env wait_for_motion (log w ++ [Printed "Waiting for motion..."])
  = Some e →
  new_events w (cycle env self w).2
  = [Printed "Waiting for motion..."; Called wait_for_motion (Some e)]
  ∧ (cycle env self w).1 = Raise e
  ∧ (main env self (S cycles) w).1 = Ok (Exits 1)
  ∧ notifications (new_events w (main env self (S cycles) w).2) = []
  ∧ (∃ closed, buzzer_calls (new_events w (main env self (S cycles) w).2)
               = [buzzer_close]
               ∧ Called buzzer_close closed
                 ∈ new_events w (main env self (S cycles) w).2)
  ∧ ∃ reported,
      last (printed_lines (new_events w (main env self (S cycles) w).2))
      = Some ("Critical error in security system: " +:+ exn_str reported).
Proof.
  intros H. pose proof (cycle_without_motion self w e H) as Hcycle.
  split; [|split; [by rewrite Hcycle|]].
  { rewrite Hcycle. by apply new_events_app. }
  assert (∃ closed seg reported w',
            main env self (S cycles) w = (Ok (Exits 1), w')
            ∧ log w'
              = log w ++ [Printed "Waiting for motion...";
                          Called wait_for_motion (Some e);
                          Called buzzer_close closed]
                ++ seg
                ++ [Printed ("Critical error in security system: "
                             +:+ exn_str reported)]
            ∧ uneventful seg)
    as (closed & seg & reported & w' & -> & Hlog & [Hn Hb]).
  { unfold main, run, try_except, try_finally. rewrite run_bind.
    cbn [run_loop]. rewrite run_bind, Hcycle. cbn beta iota.
    rewrite run_bind. unfold ext. cbn [log].
    destruct (oracle env buzzer_close _) as [e'|]; cbn beta iota.
    - exists (Some e'), [], e'. eexists. split; [reflexivity|].
      unfold print. cbn [modify snd]. unfold emit. cbn [log].
      by rewrite <- !app_assoc.
    - unfold emit. cbn [picam2 fs locals log].
      match goal with |- context [cleanup env ?w2] =>
        destruct (calm_cleanup env w2) as (seg & w3 & E & Hlog & _ & Hseg)
      end.
      rewrite E. cbn beta iota. exists None, seg, e. eexists.
      split; [reflexivity|]. unfold print. cbn [modify snd]. unfold emit.
      cbn [log] in *. rewrite Hlog. by rewrite <- !app_assoc. }
  cbn [fst snd]. rewrite (new_events_app _ _ _ Hlog).
  split_and!; [done| | |].
  - unfold notifications in *. cbn [app omap list_omap].
    rewrite omap_app, Hn. done.
  - exists closed. split; [|set_solver].
    unfold buzzer_calls in *. cbn [app omap list_omap].
    rewrite omap_app, Hb. done.
  - exists reported.
    rewrite !printed_lines_app, app_assoc.
    exact (last_snoc ("Critical error in security system: "
                      +:+ exn_str reported) (_ ++ printed_lines seg)).
Qed.

End Loop.

(** X12 on a quiet day. *)
Lemma the_loop_survives_what_it_can_report_witness :
  (∀ text tr, oracle quiet_env (post_sendMessage text) tr = None)
  ∧ (∀ tr, oracle quiet_env wait_for_motion tr = None)
  ∧ (run_loop quiet_env a_system 2 empty_world).1 = Ok tt.
Proof.
  assert (H1 : ∀ text tr, oracle quiet_env (post_sendMessage text) tr = None)
    by done.
  assert (H2 : ∀ tr, oracle quiet_env wait_for_motion tr = None) by done.
  split; [exact H1|]. split; [exact H2|].
  destruct (the_loop_survives_what_it_can_report quiet_env a_system 2
              empty_world H1 H2) as (_ & Hloop & _).
  exact Hloop.
Defined.

(** X13 with a sensor whose driver fails. *)
Lemma a_failing_motion_sensor_ends_the_program_witness :
  (main sensor_fails_env a_system 3 empty_world).1 = Ok (Exits 1)
  ∧ notifications
      (new_events empty_world (main sensor_fails_env a_system 3 empty_world).2)
    = [].
Proof.
  destruct (a_failing_motion_sensor_ends_the_program sensor_fails_env a_system
              2 empty_world (Exn "GPIOError" "sensor lost") eq_refl)
    as (_ & _ & Hexit & Hnone & _).
  by split.
Defined.

(** ** One camera handle at a time, for the whole run *)

Section WholeRun.
Variable env : Env.
Hypothesis Hteardown : teardown_never_fails env.

Lemma tidy_first_category d : tidy (first_category d).
Proof. apply tidy_silent. intros w. unfold first_category. by destruct (categories d). Qed.

Lemma tidy_set_locals l : tidy (modify (set_locals l)).
Proof. by apply tidy_silent. Qed.

Ltac tidy_leaf :=
  first [ apply tidy_print | apply tidy_sleep | by apply tidy_ext
        | apply tidy_ret | apply tidy_raise | apply tidy_get
        | apply tidy_strftime_now | apply tidy_path_exists
        | apply tidy_os_remove | refine (tidy_set_fs _) | apply tidy_assign
        | apply tidy_set_locals | apply tidy_first_category
        | by apply tidy_cleanup | by apply tidy_capture_h264_video
        | by apply tidy_capture_image ].

Ltac tidy_auto_with tac :=
  repeat (lazymatch goal with
          | |- tidy (try_finally _ _) => apply tidy_try_finally
          | |- tidy (try_except _ _) => apply tidy_try_except; [|intros ?]
          | |- tidy (_ ≫= _) => apply tidy_bind; [|intros ?]
          | |- tidy (match ?x with _ => _ end) => destruct x
          | |- tidy (if ?x then _ else _) => destruct x
          | |- _ => first [tidy_leaf | tac]
          end).

Ltac tidy_auto := tidy_auto_with fail.

Lemma tidy_draw_detections_loop img ds : tidy (draw_detections_loop env img ds).
Proof.
  revert img. induction ds as [|d ds IH]; intros img; [apply tidy_ret|].
  cbn [draw_detections_loop].
  apply tidy_bind; [apply tidy_first_category|intros c]. apply IH.
Qed.

Lemma tidy_detect_objects self img timestamp :
  tidy (detect_objects env self img timestamp).
Proof.
  unfold detect_objects, draw_detections, ext_writing.
  tidy_auto_with ltac:(apply tidy_draw_detections_loop).
Qed.

Lemma tidy_check_access_loop self ds : tidy (check_access_loop env self ds).
Proof.
  induction ds as [|d ds IH]; cbn [check_access_loop]; [tidy_auto|].
  apply tidy_bind; [apply tidy_first_category|intros c].
  destruct (Qle_bool _ _); [tidy_auto|done].
Qed.

Lemma tidy_check_access self r : tidy (check_access env self r).
Proof.
  unfold check_access. destruct (detections r); [tidy_auto|].
  apply tidy_check_access_loop.
Qed.

Lemma tidy_format_loop self i message ds :
  tidy (format_loop env self i message ds).
Proof.
  revert i message. induction ds as [|d ds IH]; intros i message;
    cbn [format_loop]; [apply tidy_ret|].
  apply tidy_bind; [apply tidy_first_category|intros c].
  destruct (Qle_bool _ _); apply IH.
Qed.

Lemma tidy_format_detection_message self r :
  tidy (format_detection_message env self r).
Proof.
  unfold format_detection_message.
  destruct (_ =? _)%nat; [apply tidy_ret|apply tidy_format_loop].
Qed.

Lemma tidy_cycle_try self : tidy (cycle_try env self).
Proof.
  unfold cycle_try, handle_access_granted, buzz_buzzer, store_converted_video,
    convert_h264_to_mp4, ext_writing, send_message, send_video, send_photo,
    open_file.
  tidy_auto_with ltac:(first [ apply tidy_detect_objects
                             | apply tidy_check_access
                             | apply tidy_format_detection_message ]).
Qed.

Lemma tidy_remove_video_files paths : tidy (remove_video_files paths).
Proof.
  induction paths as [|p paths IH]; cbn [remove_video_files]; [apply tidy_ret|].
  apply tidy_bind; [|by intros _]. unfold remove_video_file. tidy_auto.
Qed.

Lemma tidy_cycle_finally : tidy (cycle_finally env).
Proof.
  unfold cycle_finally, cleanup_files, remove_annotated_image.
  tidy_auto_with ltac:(apply tidy_remove_video_files).
Qed.

Lemma tidy_cycle self : tidy (cycle env self).
Proof.
  unfold cycle, cycle_except, send_message.
  tidy_auto_with ltac:(first [apply tidy_cycle_try | apply tidy_cycle_finally]).
Qed.

Lemma tidy_run_loop self cycles : tidy (run_loop env self cycles).
Proof.
  induction cycles as [|n IH]; cbn [run_loop]; [apply tidy_print|].
  apply tidy_bind; [apply tidy_cycle|by intros _].
Qed.

Lemma tidy_main self cycles : tidy (main env self cycles).
Proof.
  unfold main, run. tidy_auto_with ltac:(apply tidy_run_loop).
Qed.

Lemma cycle_keeps_released self w :
  picam2 w = None → picam2 (cycle env self w).2 = None.
Proof.
  intros Hp.
  destruct (oracle env wait_for_motion
              (log w ++ [Printed "Waiting for motion..."])) as [e|] eqn:Hm.
  - by rewrite (cycle_without_motion env self w e Hm).
  - rewrite (cycle_after_motion env self w Hm). rewrite run_bind.
    unfold try_finally.
    destruct (try_except _ _ _) as [r w1].
    pose proof (cycle_finally_releases env w1) as Hrel.
    destruct (cycle_finally env w1) as [[[]|e] w2]; cbn [snd] in Hrel;
      by destruct r.
Qed.

Lemma run_loop_keeps_released self cycles w :
  picam2 w = None → picam2 (run_loop env self cycles w).2 = None.
Proof.
  revert w. induction cycles as [|n IH]; intros w Hp; [done|].
  cbn [run_loop]. rewrite run_bind.
  pose proof (cycle_keeps_released self w Hp) as Hc.
  destruct (cycle env self w) as [[[]|e] w1]; [by apply IH|done].
Qed.

Lemma main_keeps_released self cycles w :
  picam2 w = None → picam2 (main env self cycles w).2 = None.
Proof.
  intros Hp. unfold main, run, try_except, try_finally. rewrite run_bind.
  pose proof (run_loop_keeps_released self cycles w Hp) as Hl.
  destruct (run_loop env self cycles w) as [r w1]. cbn [snd] in Hl.
  rewrite run_bind. unfold ext.
  destruct (oracle env buzzer_close (log w1)) as [e|]; cbn beta iota.
  - by destruct r.
  - match goal with |- context [cleanup env ?w2] =>
      destruct (cleanup_run env w2) as [tr ->]
    end.
    by destruct r.
Qed.

(** X14. When no [stop()] and no [close()] raises, the program never holds
    two open camera handles: started with the camera field at [None] and
    no handle open, after every event of every cycle, and of the whole
    run up to the exit of [main], at most one handle is open, and none is
    open when the cycle, or the run, ends; whatever else fails. *)
Theorem the_run_holds_one_camera_handle_at_a_time (self : SecuritySystem)
    (cycles : nat) (w : World) :
  picam2 w = None →
  live_handles (log w) = [] →
  never_two_live [] (log w) = true →
  ∀ w', w' = (cycle env self w).2 ∨ w' = (main env self cycles w).2 →
    never_two_live [] (log w') = true
    ∧ live_handles (log w') = []
    ∧ picam2 w' = None.
Proof.
  intros Hp Hlive Hsafe w' Hw'.
  assert (held_only (live_handles (log w)) w) as Hheld
    by (rewrite Hlive; apply held_only_nil).
  assert (∃ seg, log w' = log w ++ seg
                 ∧ never_two_live (live_handles (log w)) seg = true
                 ∧ held_only (fold_left device_step seg (live_handles (log w))) w'
                 ∧ picam2 w' = None) as (seg & Hlog & Hseg & Hheld' & Hnone).
  { destruct Hw' as [-> | ->].
    - destruct (tidy_cycle self w _ Hheld) as (seg & ? & ? & ?).
      exists seg. split_and!; try done. by apply cycle_keeps_released.
    - destruct (tidy_main self cycles w _ Hheld) as (seg & ? & ? & ?).
      exists seg. split_and!; try done. by apply main_keeps_released. }
  destruct (never_two_live_extend w w' seg Hlog Hsafe Hseg Hheld' Hnone)
    as [Hnever Hnone_live].
  done.
Qed.

End WholeRun.

(** X14 on a quiet day, from the start of the program. *)
Lemma the_run_holds_one_camera_handle_at_a_time_witness :
  teardown_never_fails quiet_env
  ∧ picam2 empty_world = None
  ∧ live_handles (log empty_world) = []
  ∧ never_two_live [] (log empty_world) = true
  ∧ live_handles (log (main quiet_env a_system 2 empty_world).2) = [].
Proof.
  assert (H1 : teardown_never_fails quiet_env) by (by intros h tr).
  split; [exact H1|]. split; [reflexivity|]. split; [reflexivity|].
  split; [reflexivity|].
  destruct (the_run_holds_one_camera_handle_at_a_time quiet_env H1 a_system 2
              empty_world eq_refl eq_refl eq_refl
              (main quiet_env a_system 2 empty_world).2 (or_intror eq_refl))
    as (_ & H & _).
  exact H.
Defined.

(** ** No file is left behind *)

Lemma path_join_nonempty (a b : string) : path_join a b ≠ "".
Proof. unfold path_join. by destruct a. Qed.

Section Inert.
Variable env : Env.

Lemma inert_ret {A} (a : A) : inert (mret a).
Proof. done. Qed.

Lemma inert_raise {A} (e : exn) : inert (raise e : M A).
Proof. done. Qed.

Lemma inert_get : inert get.
Proof. done. Qed.

Lemma inert_print line : inert (print line).
Proof. done. Qed.

Lemma inert_sleep n : inert (sleep n).
Proof. done. Qed.

Lemma inert_strftime_now : inert (strftime_now env).
Proof. done. Qed.

Lemma inert_set_picam2 o : inert (modify (set_picam2 o)).
Proof. done. Qed.

Lemma inert_path_exists path : inert (path_exists path).
Proof. intros w. by destruct path. Qed.

Lemma inert_first_category d : inert (first_category d).
Proof. intros w. unfold first_category. by destruct (categories d). Qed.

Lemma inert_ext (c : call) : inert (ext env c).
Proof. intros w. unfold ext. by destruct (oracle env c (log w)). Qed.

Lemma inert_bind {A B} (m : M A) (f : A → M B) :
  inert m → (∀ a, inert (f a)) → inert (m ≫= f).
Proof.
  intros Hm Hf w. destruct (Hm w) as [H1 H2]. rewrite run_bind.
  destruct (m w) as [[a|e] w1]; cbn [snd] in *; [|done].
  destruct (Hf a w1) as [H3 H4]. split; congruence.
Qed.

Lemma inert_try_except {A} (m : M A) (h : exn → M A) :
  inert m → (∀ e, inert (h e)) → inert (try_except m h).
Proof.
  intros Hm Hh w. destruct (Hm w) as [H1 H2]. unfold try_except.
  destruct (m w) as [[a|e] w1]; cbn [snd] in *; [done|].
  destruct (Hh e w1) as [H3 H4]. split; congruence.
Qed.

Lemma inert_try_finally {A} (m : M A) (fin : M unit) :
  inert m → inert fin → inert (try_finally m fin).
Proof.
  intros Hm Hf w. destruct (Hm w) as [H1 H2]. unfold try_finally.
  destruct (m w) as [r w1]. cbn [snd] in *. destruct (Hf w1) as [H3 H4].
  destruct (fin w1) as [[[]|e] w2]; cbn [snd] in *; split; congruence.
Qed.

Ltac inert_leaf :=
  first [ apply inert_print | apply inert_sleep | apply inert_ext
        | apply inert_ret | apply inert_raise | apply inert_get
        | apply inert_strftime_now | apply inert_path_exists
        | apply inert_set_picam2 | apply inert_first_category ].

Ltac inert_auto_with tac :=
  repeat (lazymatch goal with
          | |- inert (try_finally _ _) => apply inert_try_finally
          | |- inert (try_except _ _) => apply inert_try_except; [|intros ?]
          | |- inert (_ ≫= _) => apply inert_bind; [|intros ?]
          | |- inert (match ?x with _ => _ end) => destruct x
          | |- inert (if ?x then _ else _) => destruct x
          | |- _ => first [inert_leaf | tac]
          end).

Ltac inert_auto := inert_auto_with fail.

Lemma inert_initialize_camera self m : inert (initialize_camera env self m).
Proof.
  intros w. destruct (initialize_camera_loop_run env self m _ (le_n _) w)
    as (r & w' & seg & es & E & _ & Hfs & Hloc & _).
  unfold initialize_camera. by rewrite E.
Qed.

Lemma inert_cleanup : inert (cleanup env).
Proof. intros w. by destruct (cleanup_run env w) as [tr ->]. Qed.

Lemma inert_check_access_loop self ds : inert (check_access_loop env self ds).
Proof.
  induction ds as [|d ds IH]; cbn [check_access_loop]; [inert_auto|].
  apply inert_bind; [apply inert_first_category|intros c].
  destruct (Qle_bool _ _); [inert_auto|done].
Qed.

Lemma inert_check_access self r : inert (check_access env self r).
Proof.
  unfold check_access. destruct (detections r); [inert_auto|].
  apply inert_check_access_loop.
Qed.

Lemma inert_format_loop self i message ds :
  inert (format_loop env self i message ds).
Proof.
  revert i message. induction ds as [|d ds IH]; intros i message;
    cbn [format_loop]; [apply inert_ret|].
  apply inert_bind; [apply inert_first_category|intros c].
  destruct (Qle_bool _ _); apply IH.
Qed.

Lemma inert_format_detection_message self r :
  inert (format_detection_message env self r).
Proof.
  unfold format_detection_message.
  destruct (_ =? _)%nat; [apply inert_ret|apply inert_format_loop].
Qed.

Lemma inert_draw_detections_loop img ds : inert (draw_detections_loop env img ds).
Proof.
  revert img. induction ds as [|d ds IH]; intros img; [apply inert_ret|].
  cbn [draw_detections_loop].
  apply inert_bind; [apply inert_first_category|intros c]. apply IH.
Qed.

Lemma inert_buzz_buzzer duration : inert (buzz_buzzer env duration).
Proof. unfold buzz_buzzer. inert_auto. Qed.

Lemma inert_send_message text : inert (send_message env text).
Proof. unfold send_message. inert_auto. Qed.

Lemma inert_send_video path caption : inert (send_video env path caption).
Proof. unfold send_video, open_file. inert_auto. Qed.

Lemma inert_send_photo path caption : inert (send_photo env path caption).
Proof. unfold send_photo, open_file. inert_auto. Qed.

Lemma inert_cycle_except e : inert (cycle_except env e).
Proof. unfold cycle_except, send_message. inert_auto. Qed.

End Inert.

Section WrittenFiles.
Variable env : Env.

Ltac step_oracle :=
  once (match goal with
        | |- context [oracle env ?c ?tr] => destruct (oracle env c tr) eqn:?
        end).

Ltac after_cleanup :=
  once (match goal with
        | |- context [cleanup env ?w1] =>
            destruct (cleanup_run env w1) as [tr ->]
        end);
  cbn [fst snd picam2 fs locals log].

Lemma capture_h264_video_files (self : CameraManager) (duration : json)
    (w : World) :
  (∀ tr, oracle env (time_sleep duration) tr = None) →
  (∀ h tr, oracle env (stop_recording h) tr = None) →
  locals (capture_h264_video env self duration w).2 = locals w
  ∧ match (capture_h264_video env self duration w).1 with
    | Ok path => fs (capture_h264_video env self duration w).2
                 = fs w ∪ {[path]} ∧ path ≠ ""
    | Raise _ => fs (capture_h264_video env self duration w).2 = fs w
    end.
Proof.
  intros Hsleep Hstop. unfold capture_h264_video, strftime_now. rewrite run_bind.
  cbn beta iota. unfold try_finally, try_except. rewrite run_bind.
  destruct (initialize_camera_run env self Video w) as (r0 & p & seg & ->).
  destruct w as [p0 f l lg]. cbn [picam2 fs locals log].
  destruct r0 as [b|e0]; cbn beta iota.
  - unfold the_camera, ext_writing, ext. unfold_M.
    unfold emit, set_fs. cbn [picam2 fs locals log].
    destruct p as [h|]; cbn beta iota.
    + step_oracle; cbn beta iota; cbn [picam2 fs locals log].
      { by after_cleanup. }
      rewrite Hsleep. cbn beta iota. cbn [picam2 fs locals log].
      rewrite Hstop. cbn beta iota. cbn [picam2 fs locals log].
      after_cleanup. split_and!; [done|done|apply path_join_nonempty].
    + by after_cleanup.
  - unfold_M. unfold emit. cbn [picam2 fs locals log]. by after_cleanup.
Qed.

Lemma capture_image_files (self : CameraManager) (w : World) :
  locals (capture_image env self w).2 = locals w
  ∧ match (capture_image env self w).1 with
    | Ok (_, _, path) => fs (capture_image env self w).2 = fs w ∪ {[path]}
                         ∧ path ≠ ""
    | Raise _ => fs (capture_image env self w).2 = fs w
    end.
Proof.
  unfold capture_image, try_finally, try_except. rewrite run_bind.
  destruct (initialize_camera_run env self Preview w) as (r0 & p & seg & ->).
  destruct w as [p0 f l lg]. cbn [picam2 fs locals log].
  destruct r0 as [b|e0]; cbn beta iota.
  - unfold the_camera, ext_writing, strftime_now, ext. unfold_M.
    unfold emit, set_fs. cbn [picam2 fs locals log].
    destruct p as [h|]; cbn beta iota.
    + repeat (step_oracle; cbn beta iota; cbn [picam2 fs locals log]);
        after_cleanup; try done.
      split_and!; [done|done|apply path_join_nonempty].
    + by after_cleanup.
  - unfold_M. unfold emit. cbn [picam2 fs locals log]. by after_cleanup.
Qed.

Lemma detect_objects_files (self : ObjectDetector) (img : image)
    (timestamp : string) (w : World) :
  (∀ tr, oracle env detector_close tr = None) →
  locals (detect_objects env self img timestamp w).2 = locals w
  ∧ match (detect_objects env self img timestamp w).1 with
    | Ok (_, annotated) =>
        fs (detect_objects env self img timestamp w).2
        = fs w ∪ opt_set annotated
        ∧ annotated ≠ Some ""
    | Raise _ => fs (detect_objects env self img timestamp w).2 = fs w
    end.
Proof.
  intros Hclose. unfold detect_objects, draw_detections, ext_writing, ext.
  unfold_M. destruct w as [p0 f l lg].
  unfold emit, set_fs. cbn [picam2 fs locals log].
  do 4 (step_oracle; cbn beta iota; cbn [picam2 fs locals log]; [done|]).
  match goal with |- context [draw_detections_loop env ?i ?d ?w1] =>
    pose proof (inert_draw_detections_loop env i d w1) as Hd;
    destruct (draw_detections_loop env i d w1) as [[ai|e] [p1 f1 l1 lg1]]
  end; cbn [fst snd fs locals] in Hd; destruct Hd as [-> ->];
    cbn beta iota; [|done].
  destruct (0 <? _)%nat; cbn beta iota; cbn [picam2 fs locals log].
  - step_oracle; cbn beta iota; cbn [picam2 fs locals log]; [done|].
    rewrite Hclose. cbn [fst snd fs locals opt_set].
    split_and!; [done|done|]. intros [= H]. by apply path_join_nonempty in H.
  - rewrite Hclose. cbn [fst snd fs locals opt_set].
    split_and!; [done|set_solver|done].
Qed.

Lemma store_converted_video_files (self : CameraManager) (h264 : string)
    (w : World) :
  locals (store_converted_video env self h264 w).2 = locals w
  ∧ match (store_converted_video env self h264 w).1 with
    | Ok path => fs (store_converted_video env self h264 w).2
                 = fs w ∪ {[path]} ∧ path ≠ ""
    | Raise _ => fs (store_converted_video env self h264 w).2 = fs w
    end.
Proof.
  unfold store_converted_video, convert_h264_to_mp4, ext_writing, ext.
  unfold_M. destruct (oracle env _ (log w)) as [e|]; cbn.
  - by destruct (String.eqb (exn_class e) "CalledProcessError").
  - split_and!; [done|done|apply path_join_nonempty].
Qed.

End WrittenFiles.

Section Accounting.
Variable env : Env.
Variable self : SecuritySystem.
Hypothesis Hsleep :
  ∀ tr, oracle env (time_sleep (VIDEO_DURATION self)) tr = None.
Hypothesis Hstop : ∀ h tr, oracle env (stop_recording h) tr = None.
Hypothesis Hclose : ∀ tr, oracle env detector_close tr = None.

Ltac acc_done :=
  cbn [fst snd fs locals]; unfold accounted, produced, opt_set;
  cbn [fs locals h264_path image_path mp4_path annotated_image_path];
  split; set_solver.

Ltac settle H :=
  cbn [fst snd fs locals] in H.

Ltac plain_steps :=
  unfold assign, print;
  repeat (rewrite run_bind; cbn [modify]; cbn beta iota);
  unfold emit, set_locals;
  cbn [picam2 fs locals log h264_path image_path mp4_path annotated_image_path].

Lemma cycle_try_accounts (w : World) :
  locals w = no_paths → "" ∉ fs w →
  accounted (fs w) (cycle_try env self w).2.
Proof.
  intros Hloc Hne. destruct w as [p0 f0 l0 lg0]. cbn [fs locals] in *.
  subst l0. unfold cycle_try, no_paths, assign, print.
  (* 1. the recording *)
  rewrite run_bind.
  match goal with |- context [capture_h264_video env ?s ?d ?wc] =>
    pose proof (capture_h264_video_files env s d wc Hsleep Hstop) as H;
    destruct (capture_h264_video env s d wc) as [[h264|e] [p1 f1 l1 lg1]]
  end; settle H; [destruct H as (-> & -> & Hh264)|destruct H as [-> ->]; acc_done].
  cbn beta iota. rewrite !run_modify. unfold emit, set_locals.
  cbn [picam2 fs locals log h264_path image_path mp4_path annotated_image_path].
  (* 2. the still *)
  rewrite run_bind.
  match goal with |- context [capture_image env ?s ?wc] =>
    pose proof (capture_image_files env s wc) as H;
    destruct (capture_image env s wc) as [[[[img ts] ipath]|e] [p2 f2 l2 lg2]]
  end; settle H; [destruct H as (-> & -> & Hipath)|destruct H as [-> ->]; acc_done].
  cbn beta iota. rewrite !run_modify. unfold emit, set_locals.
  cbn [picam2 fs locals log h264_path image_path mp4_path annotated_image_path].
  (* 3. the detection *)
  rewrite run_bind.
  match goal with |- context [detect_objects env ?s ?i ?t ?wc] =>
    pose proof (detect_objects_files env s i t wc Hclose) as H;
    destruct (detect_objects env s i t wc) as [[[res ann]|e] [p3 f3 l3 lg3]]
  end; settle H; [destruct H as (-> & -> & Hann)|destruct H as [-> ->]; acc_done].
  cbn beta iota. rewrite !run_modify. unfold emit, set_locals.
  cbn [picam2 fs locals log h264_path image_path mp4_path annotated_image_path].
  assert (Hann' : "" ∉ opt_set ann).
  { destruct ann as [a|]; cbn; [|set_solver].
    intros Hin%elem_of_singleton. congruence. }
  (* 4. the verdict *)
  rewrite run_bind.
  match goal with |- context [check_access env ?s ?r ?wc] =>
    pose proof (inert_check_access env s r wc) as H;
    destruct (check_access env s r wc) as [[granted|e] [p4 f4 l4 lg4]]
  end; settle H; destruct H as [-> ->]; [|acc_done].
  cbn beta iota. rewrite run_bind.
  match goal with |- context [(if granted then ?a else ?b) ?wc] =>
    assert (H : inert (if granted then a else b))
      by (destruct granted; [apply inert_print|apply inert_buzz_buzzer]);
    specialize (H wc);
    destruct ((if granted then a else b) wc) as [[[]|e] [p5 f5 l5 lg5]]
  end; settle H; destruct H as [-> ->]; [|acc_done].
  cbn beta iota.
  (* 5. the transcoding *)
  rewrite run_bind.
  match goal with |- context [store_converted_video env ?s ?h ?wc] =>
    pose proof (store_converted_video_files env s h wc) as H;
    destruct (store_converted_video env s h wc) as [[mp4|e] [p6 f6 l6 lg6]]
  end; settle H; [destruct H as (-> & -> & Hmp4)|destruct H as [-> ->]; acc_done].
  cbn beta iota. rewrite !run_modify. unfold emit, set_locals.
  cbn [picam2 fs locals log h264_path image_path mp4_path annotated_image_path].
  (* 6. the notifications *)
  rewrite run_bind.
  match goal with |- context [format_detection_message env ?s ?r ?wc] =>
    pose proof (inert_format_detection_message env s r wc) as H;
    destruct (format_detection_message env s r wc) as [[message|e] [p7 f7 l7 lg7]]
  end; settle H; destruct H as [-> ->]; [|acc_done].
  cbn beta iota. rewrite run_bind.
  match goal with |- context [send_message env ?t ?wc] =>
    pose proof (inert_send_message env t wc) as H;
    destruct (send_message env t wc) as [[[]|e] [p8 f8 l8 lg8]]
  end; settle H; destruct H as [-> ->]; [|acc_done].
  cbn beta iota. rewrite run_bind.
  match goal with |- context [send_video env ?v ?c ?wc] =>
    pose proof (inert_send_video env v c wc) as H;
    destruct (send_video env v c wc) as [[[]|e] [p9 f9 l9 lg9]]
  end; settle H; destruct H as [-> ->]; [|acc_done].
  cbn beta iota.
  match goal with |- accounted _ (?last ?wc).2 =>
    assert (H : inert last)
      by (destruct ann as [photo|]; [|apply inert_ret];
          destruct (truthy _); [apply inert_send_photo|apply inert_ret]);
    specialize (H wc); destruct (last wc) as [r [p10 f10 l10 lg10]]
  end; settle H; destruct H as [-> ->].
  acc_done.
Qed.

Lemma leaves_no_file_inert {A} (m : M A) : inert m → leaves_no_file m.
Proof. intros Hm w _. by destruct (Hm w) as [-> _]. Qed.

Lemma leaves_no_file_bind {A B} (m : M A) (f : A → M B) :
  leaves_no_file m → (∀ a, leaves_no_file (f a)) → leaves_no_file (m ≫= f).
Proof.
  intros Hm Hf w Hne. rewrite run_bind. specialize (Hm w Hne).
  destruct (m w) as [[a|e] w1]; cbn [snd] in *; [|done].
  etrans; [apply Hf; set_solver|done].
Qed.

Lemma guarded_cycle_leaves_no_file (w : World) :
  locals w = no_paths → "" ∉ fs w →
  fs (try_finally (try_except (cycle_try env self) (cycle_except env))
        (cycle_finally env) w).2 ⊆ fs w.
Proof.
  intros Hloc Hne. unfold try_finally, try_except.
  pose proof (cycle_try_accounts w Hloc Hne) as Hacc.
  destruct (cycle_try env self w) as [[[]|e] w1]; cbn [snd] in Hacc.
  - destruct Hacc as [Hne1 Hsub].
    destruct (cycle_finally_run env w1 Hne1) as [tr ->]. cbn [snd fs].
    set_solver.
  - pose proof (inert_cycle_except env e w1) as Hin.
    destruct (cycle_except env e w1) as [r w2]. cbn [snd] in Hin.
    destruct Hin as [Hfs Hl]. destruct Hacc as [Hne1 Hsub].
    assert (Hne2 : "" ∉ fs w2) by (by rewrite Hfs).
    destruct (cycle_finally_run env w2 Hne2) as [tr ->].
    destruct r as [[]|e']; cbn [snd fs]; rewrite Hfs, Hl; set_solver.
Qed.

Lemma cycle_leaves_no_file : leaves_no_file (cycle env self).
Proof.
  unfold cycle.
  apply leaves_no_file_bind; [apply leaves_no_file_inert, inert_print|intros _].
  apply leaves_no_file_bind; [apply leaves_no_file_inert, inert_ext|intros _].
  apply leaves_no_file_bind; [apply leaves_no_file_inert, inert_print|intros _].
  intros w Hne. rewrite run_modify.
  revert w Hne.
  enough (leaves_no_file
            (λ w, (try_finally (try_except (cycle_try env self) (cycle_except env))
                     (cycle_finally env) ;; sleep 5) (set_locals no_paths w)))
    as H by exact H.
  intros w Hne. rewrite run_bind.
  pose proof (guarded_cycle_leaves_no_file (set_locals no_paths w) eq_refl Hne)
    as Hsub.
  destruct (try_finally _ _ _) as [[[]|e] w1]; cbn [snd] in *; [|done].
  unfold sleep. cbn [modify snd]. unfold emit. by cbn [fs].
Qed.

End Accounting.

(** X15. A cycle that runs undisturbed leaves no file behind.  When no
    call is cut short by an interrupt ([KeyboardInterrupt] passes
    [except Exception] and is outside this embedding), [time.sleep] accepts
    the configured duration, and neither [stop_recording] nor the
    detector's [close()] raises, every file on disk after the cycle was
    there before it, whatever else fails on the way and whether the cycle
    returns or raises.  Each of the three calls named runs after a file was
    written and before its path reaches the variables of [run], so the
    [finally] block cannot remove what they leave. *)
Theorem a_cycle_leaves_nothing_on_disk (env : Env) (self : SecuritySystem)
    (w : World) :
  (∀ c tr e, oracle env c tr = Some e → is_Exception e = true) →
  (∀ tr, oracle env (time_sleep (VIDEO_DURATION self)) tr = None) →
  (∀ h tr, oracle env (stop_recording h) tr = None) →
  (∀ tr, oracle env detector_close tr = None) →
  "" ∉ fs w →
  fs (cycle env self w).2 ⊆ fs w.
Proof.
  intros _ Hsleep Hstop Hclose Hne.
  by apply (cycle_leaves_no_file env self Hsleep Hstop Hclose).
Qed.

(** X15 on a quiet day, from the start of the program. *)
Lemma a_cycle_leaves_nothing_on_disk_witness :
  fs (cycle quiet_env a_system empty_world).2 ⊆ fs empty_world.
Proof.
  apply (a_cycle_leaves_nothing_on_disk quiet_env a_system empty_world).
  - intros c tr e H. discriminate H.
  - reflexivity.
  - reflexivity.
  - reflexivity.
  - cbn [empty_world fs]. set_solver.
Defined.
